(** * MKTools: the APK inject-and-resign core (electron/services, signing)

    A shallow embedding of the signature-spoofing resign pipeline:
    certificate extraction, manifest analysis, injection planning, smali
    patching, partition selection, dex merging and the orchestrating
    [injectAndResignApk].

    JavaScript strings are sequences of UTF-16 code units; they are
    modelled as [list N].  File-system paths, file contents, command
    output and log text are all such strings.

    What the embedding takes for granted:
    - paths are plain strings, already normalised, and a directory
      contains the paths that extend its own by a slash;
    - [existsSync] and a forced [rmSync] do not throw; any write can
      (the world decides); a read fails only for want of the file or
      the directory it names;
    - an external tool is known by its exit status, its output and the
      file or tree it leaves at the output path of its command line;
      [unzip] and [zip -u -j] are modelled on the entries of the
      container, the unquoted pattern [classes*.dex] reaching [unzip] as
      written;
    - integers read from digits are exact (the program's are, below
      2^53), and [toLowerCase] is that of ASCII text. *)

From Stdlib Require Import NArith String Ascii.
From stdpp Require Import gmap list.

Local Open Scope N_scope.

(** ** JavaScript strings *)

Abbreviation jsstr := (list N).

(** A literal of the source, code unit by code unit (ASCII literals only). *)
Fixpoint lit (s : string) : jsstr :=
  match s with
  | EmptyString => []
  | String a s' => N_of_ascii a :: lit s'
  end.

Arguments lit : simpl never.

Module Js.

(** [\s] of an ECMAScript regular expression, which is also the set that
    [String.prototype.trim] strips: WhiteSpace and LineTerminator. *)
Definition is_space (c : N) : bool :=
  (c =? 9) || (c =? 10) || (c =? 11) || (c =? 12) || (c =? 13) || (c =? 32)
  || (c =? 160) || (c =? 5760) || ((8192 <=? c) && (c <=? 8202))
  || (c =? 8232) || (c =? 8233) || (c =? 8239) || (c =? 8287)
  || (c =? 12288) || (c =? 65279).

(** [.] of a regular expression without the [s] flag: anything but a
    LineTerminator. *)
Definition is_line_terminator (c : N) : bool :=
  (c =? 10) || (c =? 13) || (c =? 8232) || (c =? 8233).

(** [\d] *)
Definition is_digit (c : N) : bool := (48 <=? c) && (c <=? 57).

(** Canonicalize of a non-unicode, ignore-case regular expression,
    restricted to what an ASCII pattern character can be compared with:
    a code unit of 128 or more never folds onto an ASCII one. *)
Definition canon (c : N) : N :=
  if (97 <=? c) && (c <=? 122) then c - 32 else c.

Fixpoint startsWith (p s : jsstr) : bool :=
  match p, s with
  | [], _ => true
  | a :: p', b :: s' => (a =? b) && startsWith p' s'
  | _ :: _, [] => false
  end.

(** Prefix test under the [i] flag. *)
Fixpoint startsWith_ci (p s : jsstr) : bool :=
  match p, s with
  | [], _ => true
  | a :: p', b :: s' => (canon a =? canon b) && startsWith_ci p' s'
  | _ :: _, [] => false
  end.

Definition endsWith (p s : jsstr) : bool := startsWith (reverse p) (reverse s).

Definition eqb (a b : jsstr) : bool := bool_decide (a = b).

(** Leftmost position at which a matcher succeeds, with its result: the
    search loop of [RegExp.prototype.exec] and of [indexOf]. *)
Fixpoint search {A} (m : jsstr → option A) (s : jsstr) : option (nat * A) :=
  match m s with
  | Some a => Some (0%nat, a)
  | None =>
      match s with
      | [] => None
      | _ :: t => prod_map S id <$> search m t
      end
  end.

Definition at_prefix (p : jsstr) (s : jsstr) : option unit :=
  if startsWith p s then Some () else None.

Definition indexOf (needle hay : jsstr) : option nat :=
  fst <$> search (at_prefix needle) hay.

Definition includes (needle hay : jsstr) : bool :=
  bool_decide (is_Some (indexOf needle hay)).

(** [p*] for a character class [p], greedy: the longest run. *)
Fixpoint span (p : N → bool) (s : jsstr) : jsstr * jsstr :=
  match s with
  | c :: t => if p c then let '(a, b) := span p t in (c :: a, b) else ([], s)
  | [] => ([], [])
  end.

Definition strip (p s : jsstr) : option jsstr :=
  if startsWith p s then Some (drop (length p) s) else None.

Definition trimStart (s : jsstr) : jsstr := (span is_space s).2.
Definition trimEnd (s : jsstr) : jsstr := reverse (trimStart (reverse s)).
Definition trim (s : jsstr) : jsstr := trimEnd (trimStart s).

End Js.

(** ** ManifestAnalyzer *)

Definition is_quote (c : N) : bool := (c =? 34) || (c =? 39).

(** The regular expression [KEY\s*=\s*Q([^Q]+)Q], where Q is the class
    of the two quote characters (code units 34 and 39), tried at the
    head of [s]; the result is capture group 1.  The classes on either
    side of every quantifier are disjoint, so the greedy run is the only
    way to match. *)
Definition match_attribute (key s : jsstr) : option jsstr :=
  s1 ← Js.strip key s;
  match (Js.span Js.is_space s1).2 with
  | 61 :: s2 =>
      match (Js.span Js.is_space s2).2 with
      | q :: s3 =>
          if is_quote q then
            let '(name, s4) := Js.span (λ c, negb (is_quote c)) s3 in
            match name, s4 with
            | _ :: _, _ :: _ => Some name
            | _, _ => None
            end
          else None
      | [] => None
      end
  | _ => None
  end.

Definition match_android_name : jsstr → option jsstr :=
  match_attribute (lit "android:name").

(** [/<activity|<service|<provider|<receiver|<meta-data|<\/application/i] *)
Definition stop_tokens : list jsstr :=
  [lit "<activity"; lit "<service"; lit "<provider"; lit "<receiver";
   lit "<meta-data"; lit "</application"].

Definition match_stop (s : jsstr) : option unit :=
  if existsb (λ t, Js.startsWith_ci t s) stop_tokens then Some () else None.

(** The text the name regex is run on: from [<application] up to the
    first stop token, or to the end when there is none. *)
Definition scanningArea (content : jsstr) : option jsstr :=
  appStart ← Js.indexOf (lit "<application") content;
  let area := drop appStart content in
  Some match Js.search match_stop area with
       | Some (i, _) => take i area
       | None => area
       end.

(** [nameMatch[1]]: the value of the first [android:name] attribute of
    the scanning area. *)
Definition application_first_name (content : jsstr) : option jsstr :=
  area ← scanningArea content;
  snd <$> Js.search match_android_name area.

(** Android default classes or references are not Application classes. *)
Definition excluded_name (name : jsstr) : bool :=
  Js.startsWith (lit "@") name || Js.startsWith (lit "android.") name
  || Js.eqb name (lit "true") || Js.eqb name (lit "false").

Definition extractApplicationName (content : jsstr) : option jsstr :=
  match application_first_name content with
  | Some name => if excluded_name name then None else Some name
  | None => None
  end.

Definition normalizeClassName (className packageName : jsstr) : jsstr :=
  if Js.startsWith (lit ".") className then packageName ++ className
  else className.

(** [s.split(sep)] for a non-empty separator.  [findLaunchActivity] goes
    through the parts of [content.split('<activity')] in order; the first
    one that mentions both MAIN and LAUNCHER and has an [android:name]
    attribute gives the result. *)
Fixpoint split_on (fuel : nat) (sep s : jsstr) : list jsstr :=
  match fuel with
  | O => [s]
  | S fuel' =>
      match Js.indexOf sep s with
      | Some i => take i s :: split_on fuel' sep (drop (i + length sep) s)
      | None => [s]
      end
  end.

Definition split (sep s : jsstr) : list jsstr := split_on (length s) sep s.

Fixpoint first_launcher (parts : list jsstr) : option jsstr :=
  match parts with
  | [] => None
  | part :: rest =>
      if Js.includes (lit "android.intent.action.MAIN") part
         && Js.includes (lit "android.intent.category.LAUNCHER") part
      then match Js.search match_android_name part with
           | Some (_, name) => Some name
           | None => first_launcher rest
           end
      else first_launcher rest
  end.

Definition findLaunchActivity (manifestContent : jsstr) : option jsstr :=
  first_launcher (split (lit "<activity") manifestContent).

(** ** The world outside the program

    Files hold either text (a JavaScript string, also used for raw
    bytes, one code unit per byte) or a zip container, kept as its
    entries.  External commands are an oracle: the program only sees
    their exit status, their output and the files they leave at the
    places named on their command line. *)

Inductive data :=
  | Text (s : jsstr)
  | Archive (entries : gmap jsstr jsstr).

Inductive node :=
  | File (d : data)
  | Dir.

(** The instances are spelled out so that no binder of a statement is
    taken for one. *)
Abbreviation filesystem :=
  (@gmap jsstr (@list_eq_dec N N.eq_dec) (@list_countable N N.eq_dec N_countable)
     node).

(** [path.join] of two segments; an empty segment is dropped.  Paths
    are taken to be normalised already. *)
Definition path_join (a b : jsstr) : jsstr :=
  match a, b with
  | [], _ => b
  | _, [] => a
  | _, _ => a ++ [47] ++ b
  end.

(** The descendants of a directory are the paths that extend it by a
    slash and more. *)
Definition under (dir p : jsstr) : bool := Js.startsWith (dir ++ [47]) p.

Definition within (dir p : jsstr) : bool := Js.eqb p dir || under dir p.

(** The command lines the program builds, by the tool they run. *)
Inductive command :=
  | AaptBadging (aapt apk : jsstr)
  | ApkSigReader (jar apk : jsstr)
  | UnzipList (apk : jsstr)
  | UnzipPipe (apk entry outFile : jsstr)
  | ApktoolDecode (jar outDir apk : jsstr)
  | ApktoolBuild (jar outApk dir : jsstr)
  | AXMLPrinter (jar manifest : jsstr)
  | ManifestEditor (jar input name output : jsstr)
  | UnzipExtract (apk pattern destDir : jsstr)
  | ZipUpdate (dir archive : jsstr)
  | Zipalign (tool input output : jsstr)
  | ApksignerSign (tool : jsstr) (viaJava : bool)
      (keystore storePass keyPass alias output input : jsstr)
  | Jarsigner (keystore storePass keyPass target alias : jsstr)
  | ApksignerVerify (tool : jsstr) (viaJava : bool) (apk : jsstr).

(** What a finished child process reports.  [failure] is the message of
    the error [exec] rejects with on a non-zero exit status.  [out_file]
    and [out_tree] are what the tool leaves at its output path: a file,
    or the nodes of a directory tree by their path below its root. *)
Record outcome := {
  failure : option jsstr;
  stdout : jsstr;
  stderr : jsstr;
  out_file : option data;
  out_tree : gmap jsstr node
}.

Inductive tempKind := ApkCert | ApkInject | ManifestEdit | DexMerge.

Definition temp_prefix (k : tempKind) : jsstr :=
  match k with
  | ApkCert => lit "apk-cert-"
  | ApkInject => lit "apk-inject-"
  | ManifestEdit => lit "manifest-edit-"
  | DexMerge => lit "dex-merge-"
  end.

Record World := {
  (** [os.tmpdir()] *)
  tmpdir : jsstr;
  (** the random characters [mkdtempSync] appends to its prefix *)
  mkdtemp_suffix : tempKind → filesystem → jsstr;
  (** [getJarToolPath], [getBuildToolsPath()], [process.platform === 'win32'] *)
  jarToolPath : jsstr → jsstr;
  buildToolsPath : jsstr;
  win32 : bool;
  (** the external tools *)
  spawn : command → filesystem → outcome;
  (** [zip -u] replaces an entry only by a file modified after it *)
  newer : jsstr → filesystem → bool;
  (** an operating-system error on a write to a path, if any *)
  write_error : jsstr → filesystem → option jsstr;
  (** the bytes of a container file *)
  zip_bytes : gmap jsstr jsstr → jsstr;
  (** decoding and encoding of file bytes as utf-8 text *)
  utf8_decode : jsstr → jsstr;
  utf8_encode : jsstr → jsstr
}.

(** ** Log lines

    A line handed to [onLog] is kept as the call site that wrote it,
    with the values interpolated into its text. *)
Inductive event :=
  | LogExecuting (c : command)
  | LogStdout (s : jsstr)
  | LogStderr (s : jsstr)
  | LogStartSigning
  | LogSigning
  | LogSignFallbackJarsigner
  | LogVerifying
  | LogSignFailed (e : jsstr)
  | LogUsingApkSigReader
  | LogWarnReaderMissing
  | LogReaderFailed (e : jsstr)
  | LogExtractingSignature
  | LogWarnNoSignature
  | LogSignatureExtracted (signature : jsstr)
  | LogPackageName (packageName : jsstr)
  | LogDecompiling
  | LogInjecting
  | LogRecompiling
  | LogMerging
  | LogAligning
  | LogWarnNoZipalign
  | LogProcessFailed (e : jsstr)
  | LogBinaryManifest
  | LogAXMLPrinterFailed (e : jsstr)
  | LogWarnNoAXMLPrinter
  | LogTargetApplication (appClass : jsstr)
  | LogNoApplication
  | LogTryManifestEditor
  | LogManifestEditorOk
  | LogManifestEditorNoOutput
  | LogManifestEditorFailed (e : jsstr)
  | LogTryTextManifest
  | LogTextManifestOk
  | LogNoApplicationTag
  | LogTextManifestFailed (e : jsstr)
  | LogManifestStillBinary
  | LogMyApplicationWritten
  | LogTryActivityFallback
  | LogActivityFallbackOk
  | LogHelpersWritten (dir : jsstr)
  | LogInjected (method path : jsstr)
  | LogWarnNoLocals (method : jsstr)
  | LogMethodAdded (method path : jsstr)
  | LogUseBinaryManifest
  | LogUseBuiltManifest.

(** ** Computations: state, exceptions, [try]/[catch]/[finally] *)

Record state := { files : filesystem; logs : list event }.

Inductive result (A : Type) :=
  | Ok (a : A)
  | Throw (e : jsstr).
Arguments Ok {A} a.
Arguments Throw {A} e.

Definition M (A : Type) : Type := state → result A * state.

Definition ret {A} (a : A) : M A := λ s, (Ok a, s).

Definition bind {A B} (m : M A) (k : A → M B) : M B :=
  λ s, match m s with
       | (Ok a, s') => k a s'
       | (Throw e, s') => (Throw e, s')
       end.

Definition throw {A} (e : jsstr) : M A := λ s, (Throw e, s).

Definition try_catch {A} (m : M A) (handler : jsstr → M A) : M A :=
  λ s, match m s with
       | (Ok a, s') => (Ok a, s')
       | (Throw e, s') => handler e s'
       end.

(** The completion of the [finally] block replaces that of the body only
    when the block itself throws. *)
Definition try_finally {A} (m : M A) (cleanup : M unit) : M A :=
  λ s, let '(r, s') := m s in
       match cleanup s' with
       | (Ok _, s'') => (r, s'')
       | (Throw e, s'') => (Throw e, s'')
       end.

Notation "'do' x <- m ; k" := (bind m (λ x, k))
  (at level 10, x pattern, m at level 100, k at level 200,
   format "'[v' 'do'  x  <-  m ; '/' k ']'").
Notation "'run' m ; k" := (bind m (λ _, k))
  (at level 10, m at level 100, k at level 200,
   format "'[v' 'run'  m ; '/' k ']'").

Definition get_files : M filesystem := λ s, (Ok (files s), s).

Definition set_files (f : filesystem → filesystem) : M unit :=
  λ s, (Ok (), {| files := f (files s); logs := logs s |}).

Definition onLog (e : event) : M unit :=
  λ s, (Ok (), {| files := files s; logs := logs s ++ [e] |}).

(** ** File-system and child-process primitives *)

Section Primitives.
Context (W : World).

(** Bytes of a file as [readFileSync] returns them.  The serialised form
    of a container is never inspected by the program. *)
Definition data_bytes (d : data) : jsstr :=
  match d with
  | Text s => s
  | Archive entries => zip_bytes W entries
  end.

(** The messages of the errors Node's [fs] throws: the code, its
    description, the system call that failed and its paths. *)
Definition enoent (p : jsstr) : jsstr :=
  lit "ENOENT: no such file or directory, open '" ++ p ++ lit "'".

Definition eisdir : jsstr := lit "EISDIR: illegal operation on a directory, read".

Definition scandir_error (found : option node) (dir : jsstr) : jsstr :=
  match found with
  | Some _ => lit "ENOTDIR: not a directory, scandir '"
  | None => lit "ENOENT: no such file or directory, scandir '"
  end ++ dir ++ lit "'".

Definition copyfile_error (found : option node) (src dst : jsstr) : jsstr :=
  match found with
  | Some _ => lit "EISDIR: illegal operation on a directory, copyfile '"
  | None => lit "ENOENT: no such file or directory, copyfile '"
  end ++ src ++ lit "' -> '" ++ dst ++ lit "'".

Definition existsSync (p : jsstr) : M bool :=
  do fs <- get_files;
  ret (match p with [] => false | _ => bool_decide (is_Some (fs !! p)) end).

Definition readFileSync (p : jsstr) : M jsstr :=
  do fs <- get_files;
  match fs !! p with
  | Some (File d) => ret (data_bytes d)
  | Some Dir => throw eisdir
  | None => throw (enoent p)
  end.

Definition write_node (p : jsstr) (n : node) : M unit :=
  do fs <- get_files;
  match write_error W p fs with
  | Some e => throw e
  | None => set_files (insert p n)
  end.

(** [fs.writeFileSync(p, text)]: the text is stored utf-8 encoded. *)
Definition writeFileSync (p text : jsstr) : M unit :=
  write_node p (File (Text (utf8_encode W text))).

Definition copyFileSync (src dst : jsstr) : M unit :=
  do fs <- get_files;
  match fs !! src with
  | Some (File d) => write_node dst (File d)
  | found => throw (copyfile_error found src dst)
  end.

(** [fs.rmSync(p, { recursive: true, force: true })] *)
Definition remove_tree (p : jsstr) (fs : filesystem) : filesystem :=
  filter (λ kv, within p kv.1 = false) fs.

Definition rmSync (p : jsstr) : M unit := set_files (remove_tree p).

(** [fs.mkdtempSync(path.join(os.tmpdir(), prefix))] *)
Definition mkdtemp_name (k : tempKind) (fs : filesystem) : jsstr :=
  path_join (tmpdir W) (temp_prefix k) ++ mkdtemp_suffix W k fs.

Definition mkdtempSync (k : tempKind) : M jsstr :=
  do fs <- get_files;
  let d := mkdtemp_name k fs in
  run write_node d Dir;
  ret d.

(** [fs.mkdirSync(path.join(base, c1, ..., cn), { recursive: true })] *)
Fixpoint mkdirs (base : jsstr) (components : list jsstr) (fs : filesystem)
  : filesystem :=
  match components with
  | [] => fs
  | c :: rest =>
      let d := path_join base c in
      mkdirs d rest (match fs !! d with Some _ => fs | None => <[d := Dir]> fs end)
  end.

Definition mkdirSync (base : jsstr) (components : list jsstr) : M jsstr :=
  do fs <- get_files;
  let d := foldl path_join base components in
  match write_error W d fs with
  | Some e => throw e
  | None => run set_files (mkdirs base components); ret d
  end.

(** The name of [p] inside [dir] when [p] is an immediate child of it. *)
Definition child_name (dir p : jsstr) : option jsstr :=
  if under dir p then
    let name := drop (length dir + 1) p in
    match name with
    | [] => None
    | _ => if existsb (N.eqb 47) name then None else Some name
    end
  else None.

Definition children (dir : jsstr) (fs : filesystem) : list (jsstr * node) :=
  omap (λ kv, (λ name, (name, kv.2)) <$> child_name dir kv.1) (map_to_list fs).

Definition readdirSync (dir : jsstr) : M (list jsstr) :=
  do fs <- get_files;
  match fs !! dir with
  | Some Dir => ret (fst <$> children dir fs)
  | found => throw (scandir_error found dir)
  end.

(** *** Child processes *)

Definition no_effect : outcome → filesystem → filesystem := λ _ fs, fs.

(** The tool leaves a file at [p]. *)
Definition leaves_file (p : jsstr) : outcome → filesystem → filesystem :=
  λ o fs, match out_file o with Some d => <[p := File d]> fs | None => fs end.

(** The tool leaves a tree below [dir]. *)
Definition place (dir : jsstr) (tree : gmap jsstr node) (fs : filesystem)
  : filesystem :=
  foldr (λ kv acc, <[path_join dir kv.1 := kv.2]> acc) fs (map_to_list tree).

Definition leaves_tree (dir : jsstr) : outcome → filesystem → filesystem :=
  λ o fs, place dir (out_tree o) fs.

(** [cmd > p]: the shell creates the file and the tool's output fills it. *)
Definition redirected (p : jsstr) : outcome → filesystem → filesystem :=
  λ o fs, <[p := File (Text (stdout o))]> fs.

(** [await execPromise(command)]: rejects when the exit status is not 0. *)
Definition execPromise (c : command)
    (effect : outcome → filesystem → filesystem) : M (jsstr * jsstr) :=
  λ s, let o := spawn W c (files s) in
       let s' := {| files := effect o (files s); logs := logs s |} in
       match failure o with
       | Some e => (Throw e, s')
       | None => (Ok (stdout o, stderr o), s')
       end.

Definition execWithLog (c : command)
    (effect : outcome → filesystem → filesystem) : M (jsstr * jsstr) :=
  run onLog (LogExecuting c);
  do (out, err) <- execPromise c effect;
  run (match out with [] => ret () | _ => onLog (LogStdout out) end);
  run (match err with [] => ret () | _ => onLog (LogStderr err) end);
  ret (out, err).

(** ** SignatureExtractor *)

Definition is_hex (c : N) : bool :=
  Js.is_digit c || ((97 <=? c) && (c <=? 102)) || ((65 <=? c) && (c <=? 70)).

(** [toLowerCase] on ASCII text: the only strings it is applied to
    consist of hexadecimal digits. *)
Definition toLowerCase (s : jsstr) : jsstr :=
  (λ c, if (65 <=? c) && (c <=? 90) then c + 32 else c) <$> s.

(** [/^[0-9a-fA-F]+$/.test(output)] *)
Definition hex_test (output : jsstr) : bool :=
  match output with [] => false | _ => forallb is_hex output end.

Definition sentinel : jsstr := lit "00".

Definition getCertHexUsingApkSig (apkPath : jsstr) : M jsstr :=
  let apkSigReader := jarToolPath W (lit "ApkSigReader.jar") in
  do present <- existsSync apkSigReader;
  if negb present then
    run onLog LogWarnReaderMissing;
    ret sentinel
  else
    do found <-
      try_catch
        (do (out, _) <- execPromise (ApkSigReader apkSigReader apkPath) no_effect;
         let output := Js.trim out in
         ret (if hex_test output then Some (toLowerCase output) else None))
        (λ e, run onLog (LogReaderFailed e); ret None);
    ret (default sentinel found).

Definition hex_digit (n : N) : N := if n <? 10 then 48 + n else 87 + n.

(** [buffer.toString('hex')] *)
Definition toString_hex (buffer : jsstr) : jsstr :=
  buffer ≫= λ b, [hex_digit ((b / 16) `mod` 16); hex_digit (b `mod` 16)].

(** The last element of [line.trim().split(/\s+/)]. *)
Definition last_field (line : jsstr) : jsstr :=
  reverse (Js.span (λ c, negb (Js.is_space c)) (reverse (Js.trim line))).1.

Definition is_cert_entry (fileName : jsstr) : bool :=
  Js.startsWith (lit "META-INF/") fileName
  && (Js.endsWith (lit ".RSA") fileName || Js.endsWith (lit ".DSA") fileName
      || Js.endsWith (lit ".EC") fileName).

Definition find_cert_file (listing : jsstr) : option jsstr :=
  head (filter (λ f, is_cert_entry f = true) (last_field <$> split [10] listing)).

(** The reader of the legacy signature file (a [META-INF] entry ending
    in [.RSA], [.DSA] or [.EC]). *)
Definition getCertRsaHex (apkPath : jsstr) : M jsstr :=
  do found <-
    try_catch
      (do tempDir <- mkdtempSync ApkCert;
       try_finally
         (do (out, _) <- execPromise (UnzipList apkPath) no_effect;
          match find_cert_file out with
          | Some certFile =>
              let outputFile := path_join tempDir (lit "CERT") in
              do _ <- execPromise (UnzipPipe apkPath certFile outputFile)
                        (redirected outputFile);
              do buffer <- readFileSync outputFile;
              ret (Some (toLowerCase (toString_hex buffer)))
          | None => ret None
          end)
         (rmSync tempDir))
      (λ _, ret None);
  ret (default sentinel found).

Definition getOriginalSignature (apkPath : jsstr) : M jsstr :=
  run onLog LogUsingApkSigReader;
  getCertHexUsingApkSig apkPath.

End Primitives.

(** ** SmaliCodeGenerator: patching a method of a smali file *)

(** Decimal numerals: [parseInt(digits, 10)] on a run of digits and the
    rendering of a non-negative integer inside a template literal. *)
Definition parse_decimal (digits : jsstr) : N :=
  foldl (λ acc d, 10 * acc + (d - 48)) 0 digits.

Fixpoint to_decimal_aux (fuel : nat) (n : N) (acc : jsstr) : jsstr :=
  match fuel with
  | O => acc
  | S fuel' =>
      let acc' := (48 + n `mod` 10) :: acc in
      if n / 10 =? 0 then acc' else to_decimal_aux fuel' (n / 10) acc'
  end.

Definition to_decimal (n : N) : jsstr :=
  to_decimal_aux (S (N.to_nat (N.log2 n))) n [].

(** GetSubstitution of ECMA-262 for a match without named groups:
    the expansion of the dollar patterns of a replacement string. *)
Fixpoint get_substitution (matched before after : jsstr)
    (captures : list jsstr) (replacement : jsstr) : jsstr :=
  let go := get_substitution matched before after captures in
  let m := N.of_nat (length captures) in
  let capture i := default [] (captures !! N.to_nat (i - 1)) in
  match replacement with
  | [] => []
  | c :: r1 =>
      if negb (c =? 36) then c :: go r1 else
      match r1 with
      | [] => [36]
      | c1 :: r2 =>
          if c1 =? 36 then 36 :: go r2
          else if c1 =? 38 then matched ++ go r2
          else if c1 =? 96 then before ++ go r2
          else if c1 =? 39 then after ++ go r2
          else if Js.is_digit c1 then
            let one :=
              let i := c1 - 48 in
              if (1 <=? i) && (i <=? m) then capture i ++ go r2
              else 36 :: c1 :: go r2 in
            match r2 with
            | c2 :: r3 =>
                if Js.is_digit c2 then
                  let i := 10 * (c1 - 48) + (c2 - 48) in
                  if m <? i then one
                  else if 1 <=? i then capture i ++ go r3
                  else 36 :: c1 :: c2 :: go r3
                else one
            | [] => one
            end
          else 36 :: go r1
      end
  end.

(** [s.replace(pattern, replacement)] for a string pattern: the first
    occurrence only. *)
Definition replace_string (pattern replacement s : jsstr) : jsstr :=
  match Js.indexOf pattern s with
  | Some i =>
      let before := take i s in
      let after := drop (i + length pattern) s in
      before ++ get_substitution pattern before after [] replacement ++ after
  | None => s
  end.

Inductive method := AttachBaseContext | OnCreate | ProviderOnCreate | StaticBlock.

Definition method_name (m : method) : jsstr :=
  match m with
  | AttachBaseContext => lit "attachBaseContext"
  | OnCreate => lit "onCreate"
  | ProviderOnCreate => lit "providerOnCreate"
  | StaticBlock => lit "staticBlock"
  end.

Definition dq : jsstr := [34].

(** The lines of a template literal, joined by line feeds. *)
Fixpoint text (lines : list (list jsstr)) : jsstr :=
  match lines with
  | [] => []
  | [l] => concat l
  | l :: rest => concat l ++ 10 :: text rest
  end.

Definition hookCall_provider (signature pkgName : jsstr) : jsstr :=
  text
    [[];
     [lit "    # Inject Hook Start (Provider)"];
     [lit "    const-string v0, "; dq; lit "SIGN_HOOK"; dq];
     [lit "    const-string v1, "; dq; lit "Starting Provider hook..."; dq];
     [lit "    invoke-static {v0, v1}, Landroid/util/Log;->d(Ljava/lang/String;Ljava/lang/String;)I"];
     [];
     [lit "    invoke-virtual {p0}, Landroid/content/ContentProvider;->getContext()Landroid/content/Context;"];
     [lit "    move-result-object v2"];
     [lit "    const-string v0, "; dq; signature; dq];
     [lit "    const-string v1, "; dq; pkgName; dq];
     [lit "    invoke-static {v2, v0, v1}, Lcom/verify/signature/HookServiceWraper;->startHookPMS(Landroid/content/Context;Ljava/lang/String;Ljava/lang/String;)V"];
     [lit "    # Inject Hook End"];
     [lit "    "]].

Definition hookCall_static (signature pkgName : jsstr) : jsstr :=
  text
    [[];
     [lit "    # Inject Hook Start (Static Block)"];
     [lit "    "];
     [lit "    # 1. Log start"];
     [lit "    const-string v0, "; dq; lit "SIGN_HOOK"; dq];
     [lit "    const-string v1, "; dq; lit "Starting static block hook..."; dq];
     [lit "    invoke-static {v0, v1}, Landroid/util/Log;->d(Ljava/lang/String;Ljava/lang/String;)I"];
     [];
     [lit "    :try_start_0"];
     [lit "    # 2. Get Application Context via Reflection"];
     [lit "    # Class.forName("; dq; lit "android.app.ActivityThread"; dq; lit ")"];
     [lit "    const-string v0, "; dq; lit "android.app.ActivityThread"; dq];
     [lit "    invoke-static {v0}, Ljava/lang/Class;->forName(Ljava/lang/String;)Ljava/lang/Class;"];
     [lit "    move-result-object v0"];
     [];
     [lit "    # getDeclaredMethod("; dq; lit "currentApplication"; dq; lit ", [])"];
     [lit "    const-string v1, "; dq; lit "currentApplication"; dq];
     [lit "    const/4 v2, 0x0"];
     [lit "    new-array v3, v2, [Ljava/lang/Class;"];
     [lit "    invoke-virtual {v0, v1, v3}, Ljava/lang/Class;->getDeclaredMethod(Ljava/lang/String;[Ljava/lang/Class;)Ljava/lang/reflect/Method;"];
     [lit "    move-result-object v0"];
     [];
     [lit "    # invoke(null, []) -> Application Context"];
     [lit "    const/4 v1, 0x0"];
     [lit "    new-array v2, v2, [Ljava/lang/Object;"];
     [lit "    invoke-virtual {v0, v1, v2}, Ljava/lang/reflect/Method;->invoke(Ljava/lang/Object;[Ljava/lang/Object;)Ljava/lang/Object;"];
     [lit "    move-result-object v0"];
     [lit "    check-cast v0, Landroid/content/Context;"];
     [lit "    "];
     [lit "    # 3. Log success"];
     [lit "    const-string v1, "; dq; lit "SIGN_HOOK"; dq];
     [lit "    const-string v2, "; dq; lit "Context retrieved successfully in static block"; dq];
     [lit "    invoke-static {v1, v2}, Landroid/util/Log;->d(Ljava/lang/String;Ljava/lang/String;)I"];
     [lit "    "];
     [lit "    # 4. Call startHookPMS(Context, signature, pkgName)"];
     [lit "    const-string v1, "; dq; signature; dq];
     [lit "    const-string v2, "; dq; pkgName; dq];
     [lit "    invoke-static {v0, v1, v2}, Lcom/verify/signature/HookServiceWraper;->startHookPMS(Landroid/content/Context;Ljava/lang/String;Ljava/lang/String;)V"];
     [lit "    "];
     [lit "    :try_end_0"];
     [lit "    .catch Ljava/lang/Exception; {:try_start_0 .. :try_end_0} :catch_0"];
     [];
     [lit "    goto :goto_0"];
     [];
     [lit "    :catch_0"];
     [lit "    move-exception v0"];
     [lit "    "];
     [lit "    # Log error"];
     [lit "    const-string v1, "; dq; lit "SIGN_HOOK"; dq];
     [lit "    const-string v2, "; dq; lit "Failed to get Context in static block, fallback to null"; dq];
     [lit "    invoke-static {v1, v2, v0}, Landroid/util/Log;->e(Ljava/lang/String;Ljava/lang/String;Ljava/lang/Throwable;)I"];
     [lit "    "];
     [lit "    # Fallback: call with null context"];
     [lit "    const/4 v0, 0x0"];
     [lit "    const-string v1, "; dq; signature; dq];
     [lit "    const-string v2, "; dq; pkgName; dq];
     [lit "    invoke-static {v0, v1, v2}, Lcom/verify/signature/HookServiceWraper;->startHookPMS(Landroid/content/Context;Ljava/lang/String;Ljava/lang/String;)V"];
     [];
     [lit "    :goto_0"];
     [lit "    # Inject Hook End"];
     [lit "    "]].

Definition hookCall_generic (signature pkgName method contextReg : jsstr) : jsstr :=
  text
    [[];
     [lit "    # Inject Hook Start"];
     [lit "    const-string v0, "; dq; lit "SIGN_HOOK"; dq];
     [lit "    const-string v1, "; dq; lit "Starting Generic hook ("; method; lit ")..."; dq];
     [lit "    invoke-static {v0, v1}, Landroid/util/Log;->d(Ljava/lang/String;Ljava/lang/String;)I"];
     [];
     [lit "    const-string v0, "; dq; signature; dq];
     [lit "    const-string v1, "; dq; pkgName; dq];
     [lit "    invoke-static {"; contextReg; lit ", v0, v1}, Lcom/verify/signature/HookServiceWraper;->startHookPMS(Landroid/content/Context;Ljava/lang/String;Ljava/lang/String;)V"];
     [lit "    # Inject Hook End"];
     [lit "    "]].

Definition newMethod_provider (hookCall superClass : jsstr) : jsstr :=
  text
    [[];
     [lit "# virtual methods"];
     [lit ".method public onCreate()Z"];
     [lit "    .locals 3"];
     [lit "    "; hookCall];
     [lit "    invoke-super {p0}, "; superClass; lit "->onCreate()Z"];
     [lit "    move-result v0"];
     [lit "    return v0"];
     [lit ".end method"];
     []].

Definition newMethod_static (hookCall : jsstr) : jsstr :=
  text
    [[];
     [lit "# direct methods"];
     [lit ".method static constructor <clinit>()V"];
     [lit "    .locals 6"];
     [lit "    "; hookCall];
     [lit "    return-void"];
     [lit ".end method"];
     []].

Definition newMethod_generic (hookCall superClass superMethodSig : jsstr) : jsstr :=
  text
    [[];
     [lit "# virtual methods"];
     [lit ".method protected "; superMethodSig];
     [lit "    .locals 2"];
     [lit "    "];
     [lit "    "; hookCall];
     [];
     [lit "    invoke-super {p0"; lit ", p1"; lit "}, "; superClass; lit "->"; superMethodSig];
     [lit "    return-void"];
     [lit ".end method"];
     []].

Definition contextReg (m : method) : jsstr :=
  match m with AttachBaseContext => lit "p1" | _ => lit "p0" end.

Definition hookCall (signature pkgName : jsstr) (m : method) : jsstr :=
  match m with
  | ProviderOnCreate => hookCall_provider signature pkgName
  | StaticBlock => hookCall_static signature pkgName
  | _ => hookCall_generic signature pkgName (method_name m) (contextReg m)
  end.

(** [methodSig]: a name, optional white space and the descriptor. *)
Definition methodSig (m : method) : jsstr * jsstr :=
  match m with
  | AttachBaseContext => (lit "attachBaseContext", lit "(Landroid/content/Context;)V")
  | OnCreate => (lit "onCreate", lit "(Landroid/os/Bundle;)V")
  | StaticBlock => (lit "<clinit>", lit "()V")
  | ProviderOnCreate => (lit "onCreate", lit "()Z")
  end.

(** Length of a match of [methodSig] at the head of [s]. *)
Definition match_sig (m : method) (s : jsstr) : option nat :=
  s1 ← Js.strip (methodSig m).1 s;
  let '(ws, s2) := Js.span Js.is_space s1 in
  _ ← Js.strip (methodSig m).2 s2;
  Some (length (methodSig m).1 + length ws + length (methodSig m).2)%nat.

(** [/\.locals\s+(\d+)/] at the head of [s]: the white space and the
    digits matched. *)
Definition match_locals (s : jsstr) : option (jsstr * jsstr) :=
  s1 ← Js.strip (lit ".locals") s;
  let '(ws, s2) := Js.span Js.is_space s1 in
  let '(digits, _) := Js.span Js.is_digit s2 in
  match ws, digits with
  | _ :: _, _ :: _ => Some (ws, digits)
  | _, _ => None
  end.

Definition locals_length (wd : jsstr * jsstr) : nat :=
  (7 + length wd.1 + length wd.2)%nat.

(** [.*] followed by a continuation: the dot takes no line terminator
    and the star is greedy, so the continuation is tried from the far
    end of the line backwards.  The result is the length matched. *)
Fixpoint dot_star (k : jsstr → option nat) (s : jsstr) : option nat :=
  match s with
  | c :: t =>
      if Js.is_line_terminator c then k s
      else match dot_star k t with
           | Some n => Some (S n)
           | None => k s
           end
  | [] => k s
  end.

(** [methodDefRegex]: [(\.method.*SIG)] at the head of [s]. *)
Definition match_methodDef (m : method) (s : jsstr) : option nat :=
  s1 ← Js.strip (lit ".method") s;
  n ← dot_star (match_sig m) s1;
  Some (7 + n)%nat.

(** [[\s\S]*?\.locals\s+\d+]: lazily up to the first declaration. *)
Definition upto_locals (s : jsstr) : option nat :=
  '(i, wd) ← Js.search match_locals s;
  Some (i + locals_length wd)%nat.

(** [regex]: [(\.method.*SIG[\s\S]*?\.locals\s+\d+)] at the head of [s]. *)
Definition match_header (m : method) (s : jsstr) : option nat :=
  s1 ← Js.strip (lit ".method") s;
  n ← dot_star (λ s2, k ← match_sig m s2; r ← upto_locals (drop k s2); Some (k + r)%nat) s1;
  Some (7 + n)%nat.

Definition minLocals (m : method) : N :=
  match m with StaticBlock => 6 | ProviderOnCreate => 3 | _ => 2 end.

(** The header with its first [.locals] declaration checked against the
    minimum of the variant. *)
Definition raise_locals (m : method) (header : jsstr) : jsstr :=
  match Js.search match_locals header with
  | Some (i, wd) =>
      if parse_decimal wd.2 <? minLocals m then
        take i header ++ lit ".locals " ++ to_decimal (minLocals m)
          ++ drop (i + locals_length wd) header
      else header
  | None => header
  end.

Inductive injection :=
  | Patched (content : jsstr)
  | NoLocals
  | Created (content : jsstr).

Definition superClass (m : method) (content : jsstr) : jsstr :=
  match m with
  | AttachBaseContext => lit "Landroid/app/Application;"
  | ProviderOnCreate => lit "Landroid/content/ContentProvider;"
  | _ =>
      (* [/\.super\s+(L[^;]+;)/] *)
      let super s :=
        s1 ← Js.strip (lit ".super") s;
        let '(ws, s2) := Js.span Js.is_space s1 in
        match ws, s2 with
        | _ :: _, 76 :: s3 =>
            let '(name, s4) := Js.span (λ c, negb (c =? 59)) s3 in
            match name, s4 with
            | _ :: _, _ :: _ => Some (76 :: name ++ [59])
            | _, _ => None
            end
        | _, _ => None
        end in
      match Js.search super content with
      | Some (_, cls) => cls
      | None => lit "Landroid/app/Activity;"
      end
  end.

Definition newMethod (signature pkgName : jsstr) (m : method) (content : jsstr)
  : jsstr :=
  let hook := hookCall signature pkgName m in
  match m with
  | ProviderOnCreate => newMethod_provider hook (superClass m content)
  | StaticBlock => newMethod_static hook
  | AttachBaseContext =>
      newMethod_generic hook (superClass m content)
        (lit "attachBaseContext(Landroid/content/Context;)V")
  | OnCreate =>
      newMethod_generic hook (superClass m content)
        (lit "onCreate(Landroid/os/Bundle;)V")
  end.

(** The new content of the smali file, as [injectCodeToSmali] computes
    it between reading and writing the file. *)
Definition inject (signature pkgName : jsstr) (m : method) (content : jsstr)
  : injection :=
  match Js.search (match_methodDef m) content with
  | Some _ =>
      match Js.search (match_header m) content with
      | Some (i, n) =>
          let before := take i content in
          let header := take n (drop i content) in
          let after := drop (i + n) content in
          let replacement :=
            raise_locals m header ++ [10] ++ hookCall signature pkgName m in
          Patched (before
                   ++ get_substitution header before after [header] replacement
                   ++ after)
      | None => NoLocals
      end
  | None =>
      Created (Js.trimEnd content ++ [10; 10] ++ newMethod signature pkgName m content)
  end.

(** ** Texts of the errors the program raises and of its results *)

Definition msg_apk_missing : jsstr :=
  [65; 80; 75; 32; 19981; 23384; 22312].

Definition msg_sign_ok : jsstr :=
  [31614; 21517; 25104; 21151].

Definition msg_sign_failed : jsstr :=
  [31614; 21517; 22833; 36133; 58; 32].

Definition msg_inject_ok : jsstr :=
  [27880; 20837; 24182; 31614; 21517; 25104; 21151].

Definition msg_signed_missing : jsstr :=
  [31614; 21517; 21518; 25991; 20214; 26410; 29983; 25104].

Definition msg_process_failed : jsstr :=
  [22788; 29702; 22833; 36133; 58; 32].

Definition msg_no_package : jsstr :=
  [26080; 27861; 22312; 32; 77; 97; 110; 105; 102; 101; 115; 116; 32;
   20013; 25214; 21040; 21253; 21517; 65292; 19988; 26410; 36890; 36807;
   32; 97; 97; 112; 116; 32; 33719; 21462; 21040; 21253; 21517].

Definition msg_no_class_file : jsstr :=
  [26080; 27861; 23450; 20301; 32; 65; 112; 112; 108; 105; 99; 97; 116;
   105; 111; 110; 32; 31867; 25991; 20214; 58; 32].

Definition msg_injection_impossible : jsstr :=
  [26080; 27861; 20462; 25913; 32; 77; 97; 110; 105; 102; 101; 115; 116;
   32; 19988; 26080; 27861; 27880; 20837; 32; 65; 112; 112; 108; 105; 99;
   97; 116; 105; 111; 110; 65292; 31614; 21517; 39564; 35777; 21487;
   33021; 22833; 25928].

(** The smali sources of [SmaliTemplates]. *)
Record Templates := {
  proxyHookPMS : jsstr;
  hookServiceWraper : jsstr;
  myApplicationTemplate : jsstr
}.

Record SignResult := {
  success : bool;
  message : jsstr;
  outputPath : option jsstr
}.

(** ** InjectionPlanner and DexMerger *)

(** The branch of [injectHookCode] that did the injection. *)
Inductive strategy :=
  | ApplicationHook
  | ManifestSynthesis (binary : bool)
  | ActivityFallback.

Record Injected := {
  plan : strategy;
  manifestModified : bool;
  binaryManifestPath : option jsstr
}.

(** [/smali_classes(\d+)/] at the head of [s]: the digits. *)
Definition match_smali_classes (s : jsstr) : option jsstr :=
  s1 ← Js.strip (lit "smali_classes") s;
  match (Js.span Js.is_digit s1).1 with
  | [] => None
  | digits => Some digits
  end.

Definition partition_index (d : jsstr) : option N :=
  (λ r, parse_decimal r.2) <$> Js.search match_smali_classes d.

Definition maxIndex (dirs : list jsstr) : N :=
  foldl (λ mx d, match partition_index d with
                 | Some index => if mx <? index then index else mx
                 | None => mx
                 end) 1 dirs.

(** The directory the helper classes go to, from the listing of the
    decoded tree and whether it has a [smali] directory. *)
Definition nextSmaliDir (listing : list jsstr) (smaliExists : bool) : jsstr :=
  let dirs := filter (λ d, Js.startsWith (lit "smali_classes") d = true) listing in
  match dirs with
  | [] => if smaliExists then lit "smali_classes2" else lit "smali"
  | _ => lit "smali_classes" ++ to_decimal (maxIndex dirs + 1)
  end.

(** The pattern [classes*.dex] of [unzip]. *)
Definition is_classes_dex (name : jsstr) : bool :=
  Js.startsWith (lit "classes") name && Js.endsWith (lit ".dex") name
  && bool_decide (11 ≤ length name)%nat.

Definition manifest_name : jsstr := lit "AndroidManifest.xml".

Definition application_class : jsstr := lit "com.demo.repackage.MyApplication".

Section Pipeline.
Context (W : World) (T : Templates).

(** [unzip -o apk pattern -d destDir]: the entries the pattern selects
    are written below [destDir] under their own names. *)
Definition extracts (apk destDir : jsstr) (selected : jsstr → bool)
  : outcome → filesystem → filesystem :=
  λ _ fs,
    match fs !! apk with
    | Some (File (Archive entries)) =>
        place destDir
          ((λ bytes, File (Text bytes)) <$> filter (λ kv, selected kv.1 = true) entries) fs
    | _ => fs
    end.

(** The regular files the shell pattern [*] names in [dir]. *)
Definition top_files (dir : jsstr) (fs : filesystem) : list (jsstr * jsstr) :=
  omap (λ kv, match kv.2 with
              | File d => if Js.startsWith (lit ".") kv.1 then None
                          else Some (kv.1, data_bytes W d)
              | Dir => None
              end) (children dir fs).

Definition update_entries (dir : jsstr) (fs : filesystem)
    (entries : gmap jsstr jsstr) : gmap jsstr jsstr :=
  foldr (λ kv acc,
           match entries !! kv.1 with
           | Some _ => if newer W (path_join dir kv.1) fs
                       then <[kv.1 := kv.2]> acc else acc
           | None => <[kv.1 := kv.2]> acc
           end) entries (top_files dir fs).

(** [cd dir && zip -u -j archive *] *)
Definition zip_updates (dir archive : jsstr)
  : outcome → filesystem → filesystem :=
  λ _ fs,
    match fs !! archive with
    | Some (File (Archive entries)) =>
        <[archive := File (Archive (update_entries dir fs entries))]> fs
    | _ => fs
    end.

Definition findSmaliFile (decodeDir className : jsstr) : M (option jsstr) :=
  let classPath :=
    ((λ c, if c =? 46 then 47 else c) <$> className) ++ lit ".smali" in
  do listing <- readdirSync decodeDir;
  let dirs := filter (λ d, Js.startsWith (lit "smali") d = true) listing in
  do fs <- get_files;
  ret (head (filter (λ p, bool_decide (is_Some (fs !! p)))
               ((λ d, path_join (path_join decodeDir d) classPath) <$> dirs))).

Definition injectCodeToSmali (smaliPath signature pkgName : jsstr) (m : method)
  : M unit :=
  do buffer <- readFileSync W smaliPath;
  let content := utf8_decode W buffer in
  do content' <-
    match inject signature pkgName m content with
    | Patched c => run onLog (LogInjected (method_name m) smaliPath); ret c
    | NoLocals => run onLog (LogWarnNoLocals (method_name m)); ret content
    | Created c => run onLog (LogMethodAdded (method_name m) smaliPath); ret c
    end;
  writeFileSync W smaliPath content'.

Definition createMyApplication (decodeDir signature pkgName : jsstr) : M unit :=
  do targetDir <- mkdirSync W decodeDir
                    [lit "smali"; lit "com"; lit "demo"; lit "repackage"];
  let content :=
    replace_string (lit "{PACKAGE_NAME}") pkgName
      (replace_string (lit "{SIGNATURE}") signature (myApplicationTemplate T)) in
  writeFileSync W (path_join targetDir (lit "MyApplication.smali")) content.

(** Reading the manifest: the text and whether it is still binary. *)
Definition readManifest (manifestPath : jsstr) : M (jsstr * bool) :=
  do buffer <- readFileSync W manifestPath;
  do (manifestContent, isBinaryManifest) <-
    (if bool_decide (4 < length buffer)%nat
        && bool_decide (buffer !! 0%nat = Some 3)
        && bool_decide (buffer !! 1%nat = Some 0)
     then
       run onLog LogBinaryManifest;
       let axmlPrinter := jarToolPath W (lit "AXMLPrinter2.jar") in
       do present <- existsSync axmlPrinter;
       if present then
         try_catch
           (do (out, _) <- execPromise W (AXMLPrinter axmlPrinter manifestPath) no_effect;
            try_catch
              (run writeFileSync W manifestPath out; ret (out, false))
              (λ e, run onLog (LogAXMLPrinterFailed e); ret (out, true)))
           (λ e, run onLog (LogAXMLPrinterFailed e); ret ([], true))
       else
         run onLog LogWarnNoAXMLPrinter;
         ret (utf8_decode W buffer, true)
     else ret (utf8_decode W buffer, false));
  ret (match manifestContent with
       | [] => utf8_decode W buffer
       | _ => manifestContent
       end, isBinaryManifest).

(** Plan A: the binary manifest of the original package, patched by
    ManifestEditor. *)
Definition editBinaryManifest (originalApkPath : jsstr) : M (option jsstr) :=
  run onLog LogTryManifestEditor;
  let manifestEditor := jarToolPath W (lit "ManifestEditor-2.0.jar") in
  do present <- existsSync manifestEditor;
  if present then
    try_catch
      (do tempDir <- mkdtempSync W ManifestEdit;
       let originalManifestPath := path_join tempDir manifest_name in
       let modifiedManifestPath := path_join tempDir (lit "AndroidManifest_mod.xml") in
       do _ <- execPromise W
                 (UnzipPipe originalApkPath manifest_name originalManifestPath)
                 (redirected originalManifestPath);
       do _ <- execWithLog W
                 (ManifestEditor manifestEditor originalManifestPath
                    application_class modifiedManifestPath)
                 (leaves_file modifiedManifestPath);
       do made <- existsSync modifiedManifestPath;
       if made then
         run onLog LogManifestEditorOk;
         ret (Some modifiedManifestPath)
       else
         run onLog LogManifestEditorNoOutput;
         ret None)
      (λ e, run onLog (LogManifestEditorFailed e); ret None)
  else ret None.

(** Plan B: the [android:name] attribute added to the textual manifest. *)
Definition editTextManifest (manifestPath manifestContent : jsstr)
    (isBinaryManifest : bool) : M bool :=
  if isBinaryManifest then
    run onLog LogManifestStillBinary;
    ret false
  else
    try_catch
      (run onLog LogTryTextManifest;
       if Js.includes (lit "<application") manifestContent then
         let newManifest :=
           replace_string (lit "<application")
             (lit "<application android:name=" ++ dq ++ application_class ++ dq)
             manifestContent in
         run writeFileSync W manifestPath newManifest;
         run onLog LogTextManifestOk;
         ret true
       else
         run onLog LogNoApplicationTag;
         ret false)
      (λ e, run onLog (LogTextManifestFailed e); ret false).

(** The last resort: a static initializer in the launch Activity. *)
Definition injectLaunchActivity (decodeDir signature pkgName manifestContent : jsstr)
  : M bool :=
  run onLog LogTryActivityFallback;
  match findLaunchActivity manifestContent with
  | Some launchActivity =>
      let fullClassName := normalizeClassName launchActivity pkgName in
      do smaliPath <- findSmaliFile decodeDir fullClassName;
      match smaliPath with
      | Some p =>
          try_catch
            (run injectCodeToSmali p signature pkgName StaticBlock;
             run onLog LogActivityFallbackOk;
             ret true)
            (λ _, ret false)
      | None => ret false
      end
  | None => ret false
  end.

(** Writing ProxyHookPMS and HookServiceWraper to the next partition. *)
Definition writeHelpers (decodeDir : jsstr) : M unit :=
  do listing <- readdirSync decodeDir;
  do smaliExists <- existsSync (path_join decodeDir (lit "smali"));
  let next := nextSmaliDir listing smaliExists in
  do targetDir <- mkdirSync W decodeDir
                    [next; lit "com"; lit "verify"; lit "signature"];
  run writeFileSync W (path_join targetDir (lit "ProxyHookPMS.smali")) (proxyHookPMS T);
  run writeFileSync W (path_join targetDir (lit "HookServiceWraper.smali"))
        (hookServiceWraper T);
  onLog (LogHelpersWritten next).

Definition injectHookCode (decodeDir signature packageName originalApkPath : jsstr)
  : M Injected :=
  let manifestPath := path_join decodeDir manifest_name in
  do (manifestContent, isBinaryManifest) <- readManifest manifestPath;
  do pkgName <-
    match packageName with
    | [] =>
        match Js.search (match_attribute (lit "package")) manifestContent with
        | Some (_, name) => ret name
        | None => throw msg_no_package
        end
    | _ => ret packageName
    end;
  match extractApplicationName manifestContent with
  | Some appClass =>
      run onLog (LogTargetApplication appClass);
      let fullClassName := normalizeClassName appClass pkgName in
      do smaliPath <- findSmaliFile decodeDir fullClassName;
      match smaliPath with
      | Some p =>
          run injectCodeToSmali p signature pkgName AttachBaseContext;
          run writeHelpers decodeDir;
          ret {| plan := ApplicationHook; manifestModified := false;
                 binaryManifestPath := None |}
      | None => throw (msg_no_class_file ++ fullClassName)
      end
  | None =>
      run onLog LogNoApplication;
      do edited <- editBinaryManifest originalApkPath;
      do textual <-
        match edited with
        | Some _ => ret false
        | None => editTextManifest manifestPath manifestContent isBinaryManifest
        end;
      if bool_decide (is_Some edited) || textual then
        run createMyApplication decodeDir signature pkgName;
        run onLog LogMyApplicationWritten;
        run writeHelpers decodeDir;
        ret {| plan := ManifestSynthesis (bool_decide (is_Some edited));
               manifestModified := true; binaryManifestPath := edited |}
      else
        do done_ <- injectLaunchActivity decodeDir signature pkgName manifestContent;
        if done_ then
          ret {| plan := ActivityFallback; manifestModified := false;
                 binaryManifestPath := None |}
        else throw msg_injection_impossible
  end.

(** *** DexMerger: only the regenerated parts go into a copy of the original *)

Definition mergeDexIntoOriginalApk (originalApk newApk outputApk : jsstr)
    (updateManifest : bool) (binaryManifestPath : option jsstr) : M unit :=
  run copyFileSync W originalApk outputApk;
  do tempDexDir <- mkdtempSync W DexMerge;
  try_finally
    (do _ <- execWithLog W (UnzipExtract newApk (lit "classes*.dex") tempDexDir)
               (extracts newApk tempDexDir is_classes_dex);
     run (if updateManifest then
            do usable <- match binaryManifestPath with
                         | Some p => existsSync p
                         | None => ret false
                         end;
            match binaryManifestPath, usable with
            | Some p, true =>
                run onLog LogUseBinaryManifest;
                copyFileSync W p (path_join tempDexDir manifest_name)
            | _, _ =>
                run onLog LogUseBuiltManifest;
                do _ <- execWithLog W (UnzipExtract newApk manifest_name tempDexDir)
                          (extracts newApk tempDexDir (λ n, Js.eqb n manifest_name));
                ret ()
            end
          else ret ());
     do _ <- execWithLog W (ZipUpdate tempDexDir outputApk)
               (zip_updates tempDexDir outputApk);
     ret ())
    (rmSync tempDexDir).

(** ** ResignOrchestrator *)

(** [/package: name='([^']+)'/] on the output of [aapt dump badging]. *)
Definition match_badging_name (s : jsstr) : option jsstr :=
  s1 ← Js.strip (lit "package: name='") s;
  let '(name, s2) := Js.span (λ c, negb (c =? 39)) s1 in
  match name, s2 with
  | _ :: _, _ :: _ => Some name
  | _, _ => None
  end.

(** The [packageName] field of [analyzeApk]'s result. *)
Definition analyzeApk (apkPath : jsstr) : M jsstr :=
  let aapt := path_join (buildToolsPath W) (lit "aapt") in
  try_catch
    (do (out, _) <- execPromise W (AaptBadging aapt apkPath) no_effect;
     ret (match Js.search match_badging_name out with
          | Some (_, name) => name
          | None => []
          end))
    (λ _, ret (lit "Unknown")).

Record SignArgs := {
  apkPath : jsstr;
  keystorePath : jsstr;
  storePass : jsstr;
  keyPass : jsstr;
  alias : jsstr
}.

Definition signed_name (apk : jsstr) : jsstr :=
  replace_string (lit ".apk") (lit "_signed.apk") apk.

Definition resignApk (args : SignArgs) : M SignResult :=
  let failed msg := {| success := false; message := msg; outputPath := None |} in
  do present <- existsSync (apkPath args);
  if negb present then ret (failed msg_apk_missing) else
  let outputApk := signed_name (apkPath args) in
  let apksigner := jarToolPath W (lit "apksigner.jar") in
  let apksignerBat :=
    path_join (buildToolsPath W)
      (if win32 W then lit "apksigner.bat" else lit "apksigner") in
  let sign tool viaJava :=
    ApksignerSign tool viaJava (keystorePath args) (storePass args)
      (keyPass args) (alias args) outputApk (apkPath args) in
  try_catch
    (run onLog LogStartSigning;
     do hasBat <- existsSync apksignerBat;
     do hasJar <- existsSync apksigner;
     run (if hasBat then
            do _ <- execWithLog W (sign apksignerBat false) (leaves_file outputApk);
            ret ()
          else if hasJar then
            do _ <- execWithLog W (sign apksigner true) (leaves_file outputApk);
            ret ()
          else
            run onLog LogSignFallbackJarsigner;
            run copyFileSync W (apkPath args) outputApk;
            do _ <- execWithLog W
                      (Jarsigner (keystorePath args) (storePass args)
                         (keyPass args) outputApk (alias args))
                      (leaves_file outputApk);
            ret ());
     run onLog LogVerifying;
     do hasBat' <- existsSync apksignerBat;
     do hasJar' <- existsSync apksigner;
     run (if hasBat' then
            do _ <- execWithLog W (ApksignerVerify apksignerBat false outputApk) no_effect;
            ret ()
          else if hasJar' then
            do _ <- execWithLog W (ApksignerVerify apksigner true outputApk) no_effect;
            ret ()
          else ret ());
     ret {| success := true; message := msg_sign_ok; outputPath := Some outputApk |})
    (λ e, run onLog (LogSignFailed e); ret (failed (msg_sign_failed ++ e))).

(** Step 0 of [injectAndResignApk]: the original signature, with the
    warning that replaces a failure. *)
Definition extractStage (apkPath : jsstr) : M jsstr :=
  run onLog LogExtractingSignature;
  do originalSignature <- getOriginalSignature W apkPath;
  run (if bool_decide (originalSignature = []) || Js.eqb originalSignature sentinel
       then onLog LogWarnNoSignature
       else onLog (LogSignatureExtracted originalSignature));
  ret originalSignature.

(** The [finally] block of a job: the working directory is removed. *)
Definition cleanup_of (tempDir : jsstr) : M unit :=
  do present <- existsSync tempDir;
  if present then rmSync tempDir else ret ().

Definition hooked_name (apk : jsstr) : jsstr :=
  replace_string (lit ".apk") (lit "_hooked_signed.apk") apk.

Definition injectAndResignApk (args : SignArgs) : M SignResult :=
  do tempDir <- mkdtempSync W ApkInject;
  let decodeDir := path_join tempDir (lit "decoded") in
  let outputApk := hooked_name (apkPath args) in
  let apktool := jarToolPath W (lit "apktool.jar") in
  try_finally
    (try_catch
       (do originalSignature <- extractStage (apkPath args);
        do name <- analyzeApk (apkPath args);
        do packageName <-
          (if bool_decide (name = []) || Js.eqb name (lit "Unknown") then ret []
           else run onLog (LogPackageName name); ret name);
        run onLog LogDecompiling;
        do _ <- execWithLog W (ApktoolDecode apktool decodeDir (apkPath args))
                  (leaves_tree decodeDir);
        run onLog LogInjecting;
        do injected <- injectHookCode decodeDir originalSignature packageName
                         (apkPath args);
        run onLog LogRecompiling;
        let buildApk := path_join tempDir (lit "dist.apk") in
        do _ <- execWithLog W (ApktoolBuild apktool buildApk decodeDir)
                  (leaves_file buildApk);
        run onLog LogMerging;
        let mergedApk := path_join tempDir (lit "merged.apk") in
        run mergeDexIntoOriginalApk (apkPath args) buildApk mergedApk
              (manifestModified injected) (binaryManifestPath injected);
        run onLog LogAligning;
        let zipalign :=
          path_join (buildToolsPath W)
            (if win32 W then lit "zipalign.exe" else lit "zipalign") in
        let alignedApk := path_join tempDir (lit "aligned.apk") in
        do hasZipalign <- existsSync zipalign;
        run (if hasZipalign then
               do _ <- execWithLog W (Zipalign zipalign mergedApk alignedApk)
                         (leaves_file alignedApk);
               ret ()
             else
               run onLog LogWarnNoZipalign;
               copyFileSync W mergedApk alignedApk);
        run onLog LogSigning;
        do signResult <-
          resignApk {| apkPath := alignedApk; keystorePath := keystorePath args;
                       storePass := storePass args; keyPass := keyPass args;
                       alias := alias args |};
        if negb (success signResult) then throw (message signResult) else
        let signedTemp := signed_name alignedApk in
        do made <- existsSync signedTemp;
        if made then
          run copyFileSync W signedTemp outputApk;
          ret {| success := true; message := msg_inject_ok;
                 outputPath := Some outputApk |}
        else throw msg_signed_missing)
       (λ e,
          run onLog (LogProcessFailed e);
          ret {| success := false; message := msg_process_failed ++ e;
                 outputPath := None |}))
    (cleanup_of tempDir).

End Pipeline.

(** ** The rest of the signing service

    The functions of the service that the resign pipeline does not go
    through, and the search for the bundled tools that it relies on. *)

(** *** A provider of the application (findContentProvider) *)

(** [/<provider[\s\S]*?android:name\s*=\s*Q([^Q]+)Q/] at the head of
    [s], Q being the class of the two quote characters: the lazy run
    ends at the first place where the attribute matches. *)
Definition match_provider_name (s : jsstr) : option jsstr :=
  s1 ← Js.strip (lit "<provider") s;
  snd <$> Js.search match_android_name s1.

Definition findContentProvider (manifestContent : jsstr) : option jsstr :=
  match Js.search match_provider_name manifestContent with
  | Some (_, name) =>
      if Js.startsWith (lit "android.") name || Js.startsWith (lit "androidx.") name
         || Js.startsWith (lit "com.google.") name
      then None else Some name
  | None => None
  end.

(** *** Listings: keystore aliases and signing identities *)

(** The tools that are only asked for their output. *)
Inductive query :=
  | KeytoolList (keystorePath storePass : jsstr)
  | SecurityFindIdentity.

Definition msg_keystore_unreadable : jsstr :=
  [26080; 27861; 35835; 21462; 32; 75; 101; 121; 115; 116; 111; 114; 101; 58; 32].

(** The label of an alias in the Chinese locale of keytool. *)
Definition alias_label_zh : jsstr := [21035; 21517; 58].

(** The message of the TypeError that a call of [trim] on [undefined]
    raises. *)
Definition msg_undefined_trim : jsstr :=
  lit "Cannot read properties of undefined (reading 'trim')".

(** The regular expression of [getIosIdentities] at the head of [s]: a
    double quote, one or more characters other than a double quote
    (capture group 1), and a double quote. *)
Definition match_quoted (s : jsstr) : option jsstr :=
  match s with
  | c :: s1 =>
      if c =? 34 then
        let '(name, s2) := Js.span (λ c, negb (c =? 34)) s1 in
        match name, s2 with
        | _ :: _, _ :: _ => Some name
        | _, _ => None
        end
      else None
  | [] => None
  end.

(** [[...new Set(identities)]]: the first occurrence of each element,
    in order. *)
Definition distinct (l : list jsstr) : list jsstr :=
  foldl (λ seen x, if bool_decide (x ∈ seen) then seen else seen ++ [x]) [] l.

Section Listings.
Context (ask : query → filesystem → outcome).

(** [await execPromise(cmd)] for a tool that leaves the file system
    alone: its standard output, or the rejection. *)
Definition execQuery (q : query) : M jsstr :=
  λ s, match failure (ask q (files s)) with
       | Some e => (Throw e, s)
       | None => (Ok (stdout (ask q (files s))), s)
       end.

(** [line.split(label)[1].trim()] *)
Definition alias_after (label line : jsstr) : M jsstr :=
  match split label line !! 1%nat with
  | Some part => ret (Js.trim part)
  | None => throw msg_undefined_trim
  end.

Fixpoint collect_aliases (lines aliases : list jsstr) : M (list jsstr) :=
  match lines with
  | [] => ret aliases
  | line :: rest =>
      if Js.includes (lit "Alias name:") line then
        do a <- alias_after (lit "Alias name:") line;
        collect_aliases rest (aliases ++ [a])
      else if Js.includes alias_label_zh line then
        do a <- alias_after alias_label_zh line;
        collect_aliases rest (aliases ++ [a])
      else collect_aliases rest aliases
  end.

Definition getKeystoreAliases (keystorePath storePass : jsstr) : M (list jsstr) :=
  try_catch
    (do out <- execQuery (KeytoolList keystorePath storePass);
     collect_aliases (split [10] out) [])
    (λ e, throw (msg_keystore_unreadable ++ e)).

(** [darwin] is [process.platform === 'darwin']. *)
Definition getIosIdentities (darwin : bool) : M (list jsstr) :=
  if negb darwin then ret [] else
  try_catch
    (do out <- execQuery SecurityFindIdentity;
     let identities :=
       omap (λ line, snd <$> Js.search match_quoted line) (split [10] out) in
     ret (distinct identities))
    (λ _, ret []).

End Listings.

(** *** The signature schemes apksigner reports (analyzeApkSignature) *)

Definition scheme_label (v : jsstr) : jsstr :=
  lit "Verified using v" ++ v ++ lit " scheme".

(** [/Verified using vN scheme[^:]*:\s*(true|false)/i] at the head of
    [s]: whether capture group 1, in lower case, is the word true.  The
    run of characters other than a colon can only end at a colon, and
    the white space after it only at something else. *)
Definition match_verified (v s : jsstr) : option bool :=
  if Js.startsWith_ci (scheme_label v) s then
    match (Js.span (λ c, negb (c =? 58)) (drop (length (scheme_label v)) s)).2 with
    | _ :: s1 =>
        let s2 := (Js.span Js.is_space s1).2 in
        if Js.startsWith_ci (lit "true") s2 then Some true
        else if Js.startsWith_ci (lit "false") s2 then Some false
        else None
    | [] => None
    end
  else None.

(** [hasV1], [hasV2] and [hasV3] of [analyzeApkSignature], by the digit
    of the scheme: the verdict of the first line that carries one, else
    the two [includes] tests. *)
Definition hasScheme (v stdout : jsstr) : bool :=
  match Js.search (match_verified v) stdout with
  | Some (_, verified) => verified
  | None =>
      Js.includes (scheme_label v) stdout
      && negb (Js.includes (scheme_label v ++ lit ": false") stdout)
  end.

(** *** Where the bundled tools are looked for (getJarToolPath) *)

(** [process.resourcesPath], [process.cwd()] and
    [path.resolve(__dirname, '..')]. *)
Record Install := {
  resourcesPath : jsstr;
  cwd : jsstr;
  rootDir : jsstr
}.

(** The lines it writes to the console when nothing is found are not
    part of the model. *)
Definition getJarToolPath (I : Install) (jarName : jsstr) : M jsstr :=
  let packaged := foldl path_join (resourcesPath I) [lit "bin"; lit "tools"; jarName] in
  do found <- existsSync packaged;
  if found then ret packaged else
  let fromCwd :=
    foldl path_join (cwd I) [lit "resources"; lit "bin"; lit "tools"; jarName] in
  do found <- existsSync fromCwd;
  if found then ret fromCwd else
  let fromRoot :=
    foldl path_join (rootDir I) [lit "resources"; lit "bin"; lit "tools"; jarName] in
  do found <- existsSync fromRoot;
  if found then ret fromRoot else ret [].

(** ** Statements in the words of the specification *)

Definition is_lower_hex (c : N) : bool :=
  Js.is_digit c || ((97 <=? c) && (c <=? 102)).

(** Lowercase hexadecimal: at least one digit, digits and a to f only. *)
Definition lower_hex (s : jsstr) : Prop := s ≠ [] ∧ forallb is_lower_hex s = true.

(** Extraction by the signing-block reader alone: its output when that
    is hexadecimal, else the sentinel; with the lines it logs. *)
Definition reader_only (W : World) (apkPath : jsstr) (fs : filesystem)
  : jsstr * list event :=
  let jar := jarToolPath W (lit "ApkSigReader.jar") in
  match jar with
  | [] => (sentinel, [LogWarnReaderMissing])
  | _ =>
      if bool_decide (is_Some (fs !! jar)) then
        let o := spawn W (ApkSigReader jar apkPath) fs in
        match failure o with
        | Some e => (sentinel, [LogReaderFailed e])
        | None =>
            if hex_test (Js.trim (stdout o))
            then (toLowerCase (Js.trim (stdout o)), [])
            else (sentinel, [])
        end
      else (sentinel, [LogWarnReaderMissing])
  end.

(** Text in which no dollar pattern can occur. *)
Definition no_dollar (s : jsstr) : bool := forallb (λ c, negb (c =? 36)) s.

(** ** Predicates on computations *)

(** Every value the computation can return satisfies [Q]. *)
Definition ensures {A : Type} (m : M A) (Q : A → Prop) : Prop :=
  ∀ s a s', m s = (Ok a, s') → Q a.

(** The computation keeps a property of the file system, however it
    ends. *)
Definition preserves {A : Type} (P : filesystem → Prop) (m : M A) : Prop :=
  ∀ s, P (files s) → P (files (m s).2).

(** What the merge may change in the original container: a bytecode
    partition, and the manifest when it was modified. *)
Definition mergeable (updateManifest : bool) (name : jsstr) : Prop :=
  is_classes_dex name = true ∨ (name = manifest_name ∧ updateManifest = true).

Definition same_but_merged (updateManifest : bool)
    (entries merged : gmap jsstr jsstr) : Prop :=
  ∀ name, merged !! name ≠ entries !! name → mergeable updateManifest name.

(** While merging: the output is the original container up to
    mergeable entries, and the scratch directory [dir] holds nothing but
    mergeable files. *)
Definition merging (updateManifest : bool) (entries : gmap jsstr jsstr)
    (dir outputApk : jsstr) (fs : filesystem) : Prop :=
  (∃ merged, fs !! outputApk = Some (File (Archive merged))
             ∧ same_but_merged updateManifest entries merged)
  ∧ ∀ name x, fs !! (dir ++ 47 :: name) = Some x → mergeable updateManifest name.

(** Whether [zip -u] takes the file [name] of the directory [dir] into
    an archive: always when the archive has no entry of that name, and
    otherwise when the file is newer than the entry. *)
Definition zip_takes (W : World) (dir : jsstr) (fs : filesystem)
    (entries : gmap jsstr jsstr) (name : jsstr) : bool :=
  match entries !! name with
  | Some _ => newer W (path_join dir name) fs
  | None => true
  end.

(** The entry [name] of the merged container, given the regenerated
    bytes of that name, if any. *)
Definition updated_entry (W : World) (dir : jsstr) (fs : filesystem)
    (entries : gmap jsstr jsstr) (name : jsstr) (regenerated : option jsstr)
  : option jsstr :=
  match regenerated with
  | Some bytes =>
      if zip_takes W dir fs entries name then Some bytes else entries !! name
  | None => entries !! name
  end.

(** An entry at the top of a container: no slash in its name. *)
Definition top_level (name : jsstr) : bool := negb (existsb (N.eqb 47) name).

(** The path [out] holds what it held ([v], or nothing). *)
Definition kept (out : jsstr) (v : option node) (fs : filesystem) : Prop :=
  fs !! out = v.

(** The result of a job that succeeded, with the artifact in place. *)
Definition delivered (out : jsstr) (r : SignResult) (fs : filesystem) : Prop :=
  success r = true ∧ outputPath r = Some out ∧ ∃ d, fs !! out = Some (File d).

(** A computation that either returns a result that is [Good], or throws
    with [P] still true. *)
Definition finishes (P : filesystem → Prop)
    (Good : SignResult → filesystem → Prop) (m : M SignResult) : Prop :=
  ∀ s, P (files s) →
       match m s with
       | (Ok r, s') => Good r (files s')
       | (Throw _, s') => P (files s')
       end.

(** The computation returns, whatever happens inside it. *)
Definition never_throws {A : Type} (m : M A) : Prop :=
  ∀ s, ∃ a s', m s = (Ok a, s').

(** The path [t] is on the file system. *)
Definition still_there (t : jsstr) (fs : filesystem) : Prop := is_Some (fs !! t).

(** The computation only adds lines to the log, and each line it adds
    satisfies [P]. *)
Definition logs_only {A : Type} (P : event → Prop) (m : M A) : Prop :=
  ∀ s, ∃ new, logs (m s).2 = logs s ++ new ∧ Forall P new.

(** A line other than the one that reports the helper classes. *)
Definition not_helpers_line (e : event) : Prop := ∀ d, e ≠ LogHelpersWritten d.

(** The file of a helper class in the partition [partition]. *)
Definition helperPath (decodeDir partition name : jsstr) : jsstr :=
  path_join
    (foldl path_join decodeDir [partition; lit "com"; lit "verify"; lit "signature"])
    name.

(** [classPath] of [findSmaliFile]: dots become slashes. *)
Definition classPath (className : jsstr) : jsstr :=
  ((λ c, if c =? 46 then 47 else c) <$> className) ++ lit ".smali".

(** The replacement of the textual manifest patch. *)
Definition named_application : jsstr :=
  lit "<application android:name=" ++ dq ++ application_class ++ dq.

(** A line of the keytool listing that names an alias. *)
Definition names_alias (line : jsstr) : bool :=
  Js.includes (lit "Alias name:") line || Js.includes alias_label_zh line.

(** ** Concrete packages and tool behaviours *)

Module Demo.

Definition manifest_of (applicationAttributes children : jsstr) : jsstr :=
  lit "<manifest package='com.example.demo'><application android:label='demo'"
  ++ applicationAttributes ++ lit ">" ++ children
  ++ lit "<activity android:name='.MainActivity'><intent-filter><action android:name='android.intent.action.MAIN'/><category android:name='android.intent.category.LAUNCHER'/></intent-filter></activity></application></manifest>".

(** No Application class. *)
Definition manifest_plain : jsstr := manifest_of [] [].

(** An Application class of the package. *)
Definition manifest_app : jsstr := manifest_of (lit " android:name='.App'") [].

(** The platform class as Application class. *)
Definition manifest_platform : jsstr :=
  manifest_of (lit " android:name='android.app.Application'") [].

(** No Application class, and a library declared ahead of the components. *)
Definition manifest_library : jsstr :=
  manifest_of [] (lit "<uses-library android:name='org.apache.http.legacy' android:required='false'/>").

Definition activity_smali : jsstr :=
  text [[lit ".class public Lcom/example/demo/MainActivity;"];
        [lit ".super Landroid/app/Activity;"];
        []].

Definition application_smali : jsstr :=
  text [[lit ".class public Lcom/example/demo/App;"];
        [lit ".super Landroid/app/Application;"];
        [];
        [lit ".method protected attachBaseContext(Landroid/content/Context;)V"];
        [lit "    .locals 1"];
        [lit "    invoke-super {p0, p1}, Landroid/app/Application;->attachBaseContext(Landroid/content/Context;)V"];
        [lit "    return-void"];
        [lit ".end method"];
        []].

(** The entries of the package to re-sign. *)
Definition original : gmap jsstr jsstr :=
  list_to_map [(lit "classes.dex", [100; 101; 120; 10]);
               (manifest_name, [3; 0; 8; 0; 1]);
               (lit "resources.arsc", [2; 0; 12; 0]);
               (lit "res/layout/main.xml", [3; 0; 8; 0; 7]);
               (lit "META-INF/CERT.RSA", [48; 130; 3; 171])].

(** What apktool rebuilds from the patched tree. *)
Definition rebuilt : gmap jsstr jsstr :=
  list_to_map [(lit "classes.dex", [100; 101; 120; 11]);
               (lit "classes2.dex", [100; 101; 120; 12]);
               (manifest_name, [3; 0; 8; 0; 3]);
               (lit "resources.arsc", [9; 9; 9; 9]);
               (lit "res/layout/main.xml", [9; 9])].

(** The tree apktool decodes the package to. *)
Definition decoded (manifest : jsstr) (classes : list (jsstr * jsstr))
  : gmap jsstr node :=
  list_to_map
    ([([], Dir); (manifest_name, File (Text manifest)); (lit "smali", Dir);
      (lit "smali/com", Dir); (lit "smali/com/example", Dir);
      (lit "smali/com/example/demo", Dir)]
     ++ ((λ c, (lit "smali/com/example/demo/" ++ c.1 ++ lit ".smali",
                File (Text c.2))) <$> classes)).

Definition quiet : outcome :=
  {| failure := None; stdout := []; stderr := []; out_file := None; out_tree := ∅ |}.

Definition prints (out : jsstr) : outcome :=
  {| failure := None; stdout := out; stderr := []; out_file := None; out_tree := ∅ |}.

Definition fails (e : jsstr) : outcome :=
  {| failure := Some e; stdout := []; stderr := []; out_file := None; out_tree := ∅ |}.

Definition writes (d : option data) : outcome :=
  {| failure := None; stdout := []; stderr := []; out_file := d; out_tree := ∅ |}.

Definition tools (manifest : jsstr) (classes : list (jsstr * jsstr))
    (reader : outcome) (c : command) (fs : filesystem) : outcome :=
  match c with
  | ApkSigReader _ _ => reader
  | AaptBadging _ _ => fails (lit "Command failed: aapt dump badging")
  | UnzipList _ =>
      prints (text [[lit "  Length      Date    Time    Name"];
                    [lit "      120  2024-01-01 00:00   classes.dex"];
                    [lit "        4  2024-01-01 00:00   META-INF/CERT.RSA"];
                    []])
  | UnzipPipe apk entry _ =>
      match fs !! apk with
      | Some (File (Archive entries)) =>
          match entries !! entry with
          | Some bytes => prints bytes
          | None => fails (lit "Command failed: unzip -p")
          end
      | _ => fails (lit "Command failed: unzip -p")
      end
  | ApktoolDecode _ _ _ =>
      {| failure := None; stdout := []; stderr := []; out_file := None;
         out_tree := decoded manifest classes |}
  | ManifestEditor _ _ _ _ => writes (Some (Text [3; 0; 8; 0; 2]))
  | ApktoolBuild _ _ _ => writes (Some (Archive rebuilt))
  | ApksignerSign _ _ _ _ _ _ _ input =>
      writes match fs !! input with
             | Some (File (Archive entries)) =>
                 Some (Archive (<[lit "META-INF/NEW.RSA" := [48; 130]]> entries))
             | _ => None
             end
  | _ => quiet
  end.

(** A suffix longer than every path in use names a fresh directory. *)
Definition fresh_suffix (fs : filesystem) : jsstr :=
  replicate (S (max_list (length <$> (map_to_list fs).*1))) 97.

Definition world (tool : command → filesystem → outcome)
    (suffix : tempKind → filesystem → jsstr) : World :=
  {| tmpdir := lit "/tmp";
     mkdtemp_suffix := suffix;
     jarToolPath := λ n, lit "/opt/tools/" ++ n;
     buildToolsPath := [];
     win32 := false;
     spawn := tool;
     newer := λ _ _, true;
     write_error := λ _ _, None;
     zip_bytes := λ _, [];
     utf8_decode := id;
     utf8_encode := id |}.

Definition templates : Templates :=
  {| proxyHookPMS := lit ".class public Lcom/verify/signature/ProxyHookPMS;";
     hookServiceWraper := lit ".class public Lcom/verify/signature/HookServiceWraper;";
     myApplicationTemplate :=
       lit ".class public Lcom/demo/repackage/MyApplication; {SIGNATURE} {PACKAGE_NAME}" |}.

Definition jar (name : jsstr) : jsstr * node :=
  (lit "/opt/tools/" ++ name, File (Text [])).

(** The machine before the job, by the jar tools installed on it. *)
Definition disk (jars : list jsstr) : filesystem :=
  list_to_map ([(lit "/tmp", Dir); (lit "/data", Dir);
                (lit "/data/app.apk", File (Archive original))]
               ++ (jar <$> jars)).

Definition all_jars : list jsstr :=
  [lit "ApkSigReader.jar"; lit "apktool.jar"; lit "ManifestEditor-2.0.jar";
   lit "apksigner.jar"].

Definition args : SignArgs :=
  {| apkPath := lit "/data/app.apk"; keystorePath := lit "/data/release.jks";
     storePass := lit "secret"; keyPass := lit "secret"; alias := lit "release" |}.

Definition start (jars : list jsstr) : state := {| files := disk jars; logs := [] |}.

(** A job on a package whose manifest is [manifest] and whose classes
    are [classes]: the state before, the result and the state after. *)
Definition job (manifest : jsstr) (classes : list (jsstr * jsstr))
    (reader : outcome) (jars : list jsstr)
  : state * (result SignResult * state) :=
  let W := world (tools manifest classes reader) (λ _, fresh_suffix) in
  (start jars, injectAndResignApk W templates args (start jars)).

Definition library_job : state * (result SignResult * state) :=
  job manifest_library [(lit "MainActivity", activity_smali)]
    (prints (lit "3082abcd")) all_jars.

(** A reader that prints three hexadecimal digits. *)
Definition odd_reader : World :=
  world (tools manifest_plain [] (prints (lit "ABC" ++ [10]))) (λ _, fresh_suffix).

(** No reader installed, and a package signed the legacy way. *)
Definition legacy_only : World :=
  world (tools manifest_plain [] quiet) (λ _, fresh_suffix).

Definition no_reader : list jsstr :=
  [lit "apktool.jar"; lit "ManifestEditor-2.0.jar"; lit "apksigner.jar"].

(** The merge of the rebuilt package into the original one. *)
Definition merge_world : World :=
  world (tools manifest_plain [] quiet) (λ _, fresh_suffix).

Definition before_merge : state :=
  {| files := <[lit "/tmp/dist.apk" := File (Archive rebuilt)]> (disk all_jars);
     logs := [] |}.

(** A package without Application class, on a machine with every tool. *)
Definition plain_world : World :=
  world (tools manifest_plain [(lit "MainActivity", activity_smali)]
           (prints (lit "3082abcd")))
        (λ _ _, lit "Ab3xYz").

(** The decoded tree of a package, in place for the injection. *)
Definition decoded_state (manifest : jsstr) (classes : list (jsstr * jsstr))
  : state :=
  {| files := place (lit "/work/decoded") (decoded manifest classes)
                (<[lit "/work" := Dir]> (disk all_jars));
     logs := [] |}.

(** An Application class is declared; its smali file is not in the tree. *)
Definition missing_class : result Injected * state :=
  injectHookCode plain_world templates (lit "/work/decoded") (lit "3082abcd") []
    (lit "/data/app.apk")
    (decoded_state manifest_app [(lit "MainActivity", activity_smali)]).

(** No Application class is declared. *)
Definition synthesis : result Injected * state :=
  injectHookCode plain_world templates (lit "/work/decoded") (lit "3082abcd") []
    (lit "/data/app.apk")
    (decoded_state manifest_plain [(lit "MainActivity", activity_smali)]).

(** The job on that package, from start to end. *)
Definition plain_job : result SignResult * state :=
  injectAndResignApk plain_world templates args (start all_jars).

(** A reader that prints eight hexadecimal digits. *)
Definition even_reader : World :=
  world (tools manifest_plain [] (prints (lit "3082ABCD" ++ [10]))) (λ _, fresh_suffix).

(** An Application class whose [attachBaseContext] is native, so that it
    has no body and no [.locals] of its own, followed by the synthetic
    constructor the compiler makes for an anonymous inner class. *)
Definition native_smali : jsstr :=
  text [[lit ".class public Lcom/example/demo/App;"];
        [lit ".super Landroid/app/Application;"];
        [];
        [lit ".method protected native attachBaseContext(Landroid/content/Context;)V"];
        [lit ".end method"];
        [];
        [lit ".method synthetic constructor <init>(Lcom/example/demo/App$1;)V"];
        [lit "    .locals 0"];
        [lit "    invoke-direct {p0}, Lcom/example/demo/App;-><init>()V"];
        [lit "    return-void"];
        [lit ".end method"];
        []].

(** The machine of [merge_world] with a clock that is behind: no file
    written now is newer than an entry of the package to re-sign. *)
Definition old_clock : World :=
  {| tmpdir := lit "/tmp";
     mkdtemp_suffix := λ _, fresh_suffix;
     jarToolPath := λ n, lit "/opt/tools/" ++ n;
     buildToolsPath := [];
     win32 := false;
     spawn := tools manifest_plain [] quiet;
     newer := λ _ _, false;
     write_error := λ _ _, None;
     zip_bytes := λ _, [];
     utf8_decode := id;
     utf8_encode := id |}.

(** The merge of the rebuilt package on that machine, the manifest
    having been modified. *)
Definition stale_merge : result unit * state :=
  mergeDexIntoOriginalApk old_clock (lit "/data/app.apk") (lit "/tmp/dist.apk")
    (lit "/tmp/merged.apk") true None before_merge.

End Demo.

(** ** More packages and machines *)

Module Sample.

(** A manifest that is still in binary form in the decoded tree, with
    text that can be searched behind its header. *)
Definition binary_manifest : jsstr := [3; 0; 8; 0] ++ Demo.manifest_plain.

(** The decoded tree of that package, on a machine with apktool and
    apksigner only. *)
Definition bare_state : state :=
  {| files := place (lit "/work/decoded")
                (Demo.decoded binary_manifest [(lit "MainActivity", Demo.activity_smali)])
                (<[lit "/work" := Dir]>
                   (Demo.disk [lit "apktool.jar"; lit "apksigner.jar"]));
     logs := [] |}.

Definition fallback : result Injected * state :=
  injectHookCode Demo.plain_world Demo.templates (lit "/work/decoded") (lit "3082abcd") []
    (lit "/data/app.apk") bare_state.

(** The decoded tree of the plain package. *)
Definition plain_tree : state :=
  Demo.decoded_state Demo.manifest_plain [(lit "MainActivity", Demo.activity_smali)].

(** The listing of a decoded tree with three partitions. *)
Definition three_partitions : list jsstr :=
  [lit "AndroidManifest.xml"; lit "smali"; lit "smali_classes2"; lit "smali_classes3"].

End Sample.

(** * Properties *)

(** ** Searching *)

Lemma search_Some {A} (m : jsstr → option A) s i a :
  Js.search m s = Some (i, a) →
  m (drop i s) = Some a ∧ (i ≤ length s)%nat
  ∧ ∀ k, (k < i)%nat → m (drop k s) = None.
Proof.
  revert i. induction s as [|c s IH]; intros i; simpl.
  - destruct (m []) eqn:E; [|done]. intros [= <- <-]. repeat split; [done|lia|lia].
  - destruct (m (c :: s)) eqn:E.
    + intros [= <- <-]. repeat split; [done|lia|lia].
    + destruct (Js.search m s) as [[j b]|] eqn:Es; [|done].
      simpl. intros [= <- <-]. destruct (IH j eq_refl) as (H1 & H2 & H3).
      repeat split; [done|lia|]. intros [|k] Hk; [done|]. apply H3. lia.
Qed.

Lemma search_None {A} (m : jsstr → option A) s :
  Js.search m s = None → ∀ k, m (drop k s) = None.
Proof.
  induction s as [|c s IH]; simpl.
  - destruct (m []) eqn:E; [done|]. intros _ k. by rewrite drop_nil.
  - destruct (m (c :: s)) eqn:E; [done|].
    destruct (Js.search m s) as [[j b]|] eqn:Es; [done|].
    intros _ [|k]; [done|]. by apply IH.
Qed.

Lemma search_first {A} (m : jsstr → option A) s i a :
  m (drop i s) = Some a → (i ≤ length s)%nat →
  (∀ k, (k < i)%nat → m (drop k s) = None) →
  Js.search m s = Some (i, a).
Proof.
  revert i. induction s as [|c s IH]; intros i Hm Hi Hk; simpl in *.
  - assert (i = 0)%nat as -> by lia. simpl in Hm. by rewrite Hm.
  - destruct i as [|i].
    + simpl in Hm. by rewrite Hm.
    + pose proof (Hk 0%nat ltac:(lia)) as H0. simpl in H0. rewrite H0.
      rewrite (IH i); [done|done|lia|]. intros k Hlt. apply (Hk (S k)). lia.
Qed.

(** ** ManifestAnalyzer: where the Application class is read from *)

(** What the stop pattern does achieve: the name returned is matched
    inside a stretch of text that starts at [<application] and in which
    none of the six stop tokens begins. *)
Lemma extractApplicationName_scope content name :
  extractApplicationName content = Some name →
  ∃ appStart area j,
    Js.indexOf (lit "<application") content = Some appStart
    ∧ area `prefix_of` drop appStart content
    ∧ (∀ k, (k < length area)%nat →
            match_stop (drop k (drop appStart content)) = None)
    ∧ match_android_name (drop j area) = Some name.
Proof.
  unfold extractApplicationName, application_first_name, scanningArea.
  destruct (Js.indexOf _ content) as [a|] eqn:Ea; simpl; [|done].
  set (rest := drop a content).
  destruct (Js.search match_stop rest) as [[i []]|] eqn:Es.
  - destruct (Js.search match_android_name (take i rest)) as [[j n]|] eqn:En;
      simpl; [|done].
    destruct (excluded_name n); [done|]. intros [= <-].
    apply search_Some in Es as (_ & Hi & Hstop).
    apply search_Some in En as (Hn & _ & _).
    exists a, (take i rest), j. repeat split; auto.
    + apply prefix_take.
    + intros k Hk. apply Hstop. rewrite length_take in Hk. lia.
  - destruct (Js.search match_android_name rest) as [[j n]|] eqn:En;
      simpl; [|done].
    destruct (excluded_name n); [done|]. intros [= <-].
    apply search_Some in En as (Hn & _ & _).
    exists a, rest, j. repeat split; auto.
    intros k _. by apply search_None.
Qed.

(** C9, at its failing input: an application element without a name of
    its own whose first child is a [uses-library] element.  The scan does
    not stop at that child, its [android:name] is returned as the
    Application class, and the job fails looking for a class of that
    name. *)
Theorem extractApplicationName_takes_child_name :
  extractApplicationName Demo.manifest_library = Some (lit "org.apache.http.legacy")
  ∧ Demo.library_job.2.1
    = Ok {| success := false;
            message := msg_process_failed ++ msg_no_class_file
                       ++ lit "org.apache.http.legacy";
            outputPath := None |}.
Proof. split; vm_compute; reflexivity. Qed.

(** ** Reasoning about computations *)

Lemma bind_Ok {A B} (m : M A) (k : A → M B) s b s' :
  bind m k s = (Ok b, s') → ∃ a s1, m s = (Ok a, s1) ∧ k a s1 = (Ok b, s').
Proof.
  unfold bind. destruct (m s) as [[a|e] s1]; [|done]. intros H. by exists a, s1.
Qed.

Lemma ensures_ret {A} (a : A) (Q : A → Prop) : Q a → ensures (ret a) Q.
Proof. intros H s a' s'. unfold ret. by intros [= <- _]. Qed.

Lemma ensures_throw {A} e (Q : A → Prop) : ensures (throw e) Q.
Proof. by intros s a s'. Qed.

Lemma ensures_bind {A B} (m : M A) (k : A → M B) (Q : B → Prop) :
  (∀ a, ensures (k a) Q) → ensures (bind m k) Q.
Proof.
  intros H s b s' Hb. apply bind_Ok in Hb as (a & s1 & _ & Hk). by eapply H.
Qed.

Ltac ensures_steps :=
  repeat first
    [ apply ensures_ret
    | apply ensures_throw
    | apply ensures_bind; intros
    | match goal with
      | |- ensures (if ?b then _ else _) _ => destruct b
      | |- ensures (match ?x with _ => _ end) _ => destruct x
      end ].

(** C10: a first [android:name] of the application element that is a
    resource reference, a platform class, or one of the words true and
    false is not an Application class: the analyzer reports none, and the
    injection never takes the ApplicationHook branch. *)
Theorem excluded_name_is_no_application_class content name :
  application_first_name content = Some name →
  Js.startsWith (lit "@") name = true ∨ Js.startsWith (lit "android.") name = true
    ∨ name = lit "true" ∨ name = lit "false" →
  extractApplicationName content = None
  ∧ ∀ W T decodeDir signature packageName apk s isBinary s1 r s',
      readManifest W (path_join decodeDir manifest_name) s
        = (Ok (content, isBinary), s1) →
      injectHookCode W T decodeDir signature packageName apk s = (Ok r, s') →
      plan r ≠ ApplicationHook.
Proof.
  intros Hfirst Hname.
  assert (extractApplicationName content = None) as Hnone.
  { unfold extractApplicationName. rewrite Hfirst.
    assert (excluded_name name = true) as ->; [|done].
    unfold excluded_name, Js.eqb.
    destruct Hname as [->|[->|[->| ->]]]; [done|by rewrite orb_true_r|..].
    - rewrite bool_decide_eq_true_2 by done. by rewrite !orb_true_r.
    - rewrite (bool_decide_eq_true_2 (lit "false" = lit "false")) by done.
      by rewrite !orb_true_r. }
  split; [done|].
  intros W T decodeDir signature packageName apk s isBinary s1 r s' Hread Hrun.
  unfold injectHookCode in Hrun.
  apply bind_Ok in Hrun as ([c b] & s1' & Hread' & Hrun).
  rewrite Hread in Hread'. injection Hread' as <- <- <-.
  revert Hrun. generalize s1 r s'.
  match goal with
  | |- ∀ s r s', ?m s = _ → _ => change (ensures m (λ r, plan r ≠ ApplicationHook))
  end.
  rewrite Hnone. ensures_steps; done.
Qed.

Lemma excluded_name_witness :
  application_first_name Demo.manifest_platform = Some (lit "android.app.Application")
  ∧ extractApplicationName Demo.manifest_platform = None.
Proof.
  split; [reflexivity|].
  apply (excluded_name_is_no_application_class Demo.manifest_platform
           (lit "android.app.Application")).
  - reflexivity.
  - right; left; reflexivity.
Defined.

(** ** SignatureExtractor *)

Lemma toLowerCase_hex s :
  forallb is_hex s = true → forallb is_lower_hex (toLowerCase s) = true.
Proof.
  induction s as [|c s IH]; simpl; [done|].
  intros [Hc Hs]%andb_true_iff. rewrite IH by done. rewrite andb_true_r.
  revert Hc. unfold is_hex, is_lower_hex, Js.is_digit.
  destruct (N.leb_spec 65 c), (N.leb_spec c 90), (N.leb_spec 48 c),
    (N.leb_spec c 57), (N.leb_spec 97 c), (N.leb_spec c 102),
    (N.leb_spec c 70); simpl; try done; try lia; intros _;
    repeat match goal with
           | |- context [?a <=? ?b] => destruct (N.leb_spec a b); simpl; try lia
           end; done.
Qed.

Lemma getOriginalSignature_reader_only W apkPath s :
  getOriginalSignature W apkPath s
  = (Ok (reader_only W apkPath (files s)).1,
     {| files := files s;
        logs := logs s ++ LogUsingApkSigReader :: (reader_only W apkPath (files s)).2 |}).
Proof.
  unfold getOriginalSignature, getCertHexUsingApkSig, reader_only, bind, onLog,
    existsSync, get_files, ret, try_catch, execPromise, no_effect.
  simpl. destruct s as [fs lg]; simpl.
  destruct (jarToolPath W (lit "ApkSigReader.jar")) as [|c jar] eqn:Ejar; simpl.
  { by rewrite <- app_assoc. }
  destruct (bool_decide (is_Some (fs !! (c :: jar)))); simpl.
  - destruct (failure _) as [e|]; simpl.
    + by rewrite <- app_assoc.
    + destruct (hex_test _); simpl; done.
  - by rewrite <- app_assoc.
Qed.

Lemma reader_only_lower_hex W apkPath fs : lower_hex (reader_only W apkPath fs).1.
Proof.
  assert (lower_hex sentinel) as Hs by (split; done).
  unfold reader_only.
  destruct (jarToolPath W _) as [|c jar]; [done|].
  destruct (bool_decide _); [|done].
  destruct (failure _); [done|].
  destruct (hex_test _) eqn:Eh; [|done]. simpl.
  unfold hex_test in Eh.
  destruct (Js.trim _) as [|d t] eqn:Et; [done|].
  split; [done|]. by apply toLowerCase_hex.
Qed.

(** C8, amended: the extracted signature is always lowercase hexadecimal
    and never empty; it is the sentinel or the reader's trimmed output in
    lower case, so its length is even whenever the reader printed an even
    number of digits.  The program checks the digits of that output, not
    their number. *)
Theorem signature_is_lower_hex W apkPath s :
  ∃ signature s',
    let printed :=
      Js.trim (stdout (spawn W (ApkSigReader (jarToolPath W (lit "ApkSigReader.jar"))
                                  apkPath) (files s))) in
    getOriginalSignature W apkPath s = (Ok signature, s')
    ∧ lower_hex signature
    ∧ (signature = sentinel ∨ signature = toLowerCase printed)
    ∧ (Nat.Even (length printed) → Nat.Even (length signature)).
Proof.
  eexists _, _. split; [apply getOriginalSignature_reader_only|].
  split; [apply reader_only_lower_hex|].
  assert (Nat.Even (length sentinel)) as Heven by (exists 1%nat; reflexivity).
  unfold reader_only.
  destruct (jarToolPath W _) as [|c jar]; [by auto|].
  destruct (bool_decide _); [|by auto].
  destruct (failure _); [by auto|].
  destruct (hex_test _); [|by auto].
  simpl. split; [by right|]. unfold toLowerCase. by rewrite length_fmap.
Qed.

(** C8 as stated fails where the reader prints an odd number of digits. *)
Lemma signature_of_odd_length :
  (getOriginalSignature Demo.odd_reader (lit "/data/app.apk")
     (Demo.start Demo.all_jars)).1 = Ok (lit "abc")
  ∧ ¬ Nat.Even (length (lit "abc")).
Proof.
  split; [vm_compute; reflexivity|].
  intros [k Hk]. change (3 = 2 * k)%nat in Hk. lia.
Qed.

(** C2, amended: the extraction stage consults the signing-block reader
    and nothing else.  Whether the reader is missing, fails or prints
    something that is not hexadecimal, the stage returns the sentinel,
    logs the warning and goes on; it never throws, never touches the file
    system, and never reads the legacy signature file. *)
Theorem extraction_uses_the_reader_only W apkPath s :
  extractStage W apkPath s
  = (Ok (reader_only W apkPath (files s)).1,
     {| files := files s;
        logs := logs s
                ++ [LogExtractingSignature; LogUsingApkSigReader]
                ++ (reader_only W apkPath (files s)).2
                ++ [if bool_decide ((reader_only W apkPath (files s)).1 = sentinel)
                    then LogWarnNoSignature
                    else LogSignatureExtracted (reader_only W apkPath (files s)).1] |}).
Proof.
  unfold extractStage. unfold bind at 1. unfold onLog at 1. unfold bind at 1.
  rewrite getOriginalSignature_reader_only. cbn [files logs].
  pose proof (reader_only_lower_hex W apkPath (files s)) as [Hne _].
  destruct (reader_only W apkPath (files s)) as [sig evs]. cbn [fst snd] in *.
  unfold Js.eqb. rewrite (bool_decide_eq_false_2 (sig = [])) by done.
  rewrite orb_false_l.
  unfold bind, ret, onLog. cbn [files logs].
  destruct (bool_decide (sig = sentinel)); cbn [files logs];
    by rewrite <- !app_assoc.
Qed.

(** C2 as stated fails where the reader is not installed and the package
    carries a legacy signature file: the stage answers with the sentinel
    although the legacy reader would have found the certificate. *)
Lemma legacy_file_is_not_consulted :
  (extractStage Demo.legacy_only (lit "/data/app.apk")
     (Demo.start Demo.no_reader)).1 = Ok sentinel
  ∧ (getCertRsaHex Demo.legacy_only (lit "/data/app.apk")
       (Demo.start Demo.no_reader)).1 = Ok (lit "308203ab").
Proof. split; vm_compute; reflexivity. Qed.

(** ** Strings and numerals *)

Lemma startsWith_app p s : Js.startsWith p (p ++ s) = true.
Proof. induction p as [|c p IH]; simpl; [done|]. by rewrite N.eqb_refl. Qed.

Lemma startsWith_prefix p s : Js.startsWith p s = true ↔ ∃ t, s = p ++ t.
Proof.
  split.
  - revert s. induction p as [|c p IH]; intros s; simpl; [by exists s|].
    destruct s as [|d s]; [done|].
    intros [->%N.eqb_eq [t ->]%IH]%andb_true_iff. by exists t.
  - intros [t ->]. apply startsWith_app.
Qed.

Lemma strip_app p s : Js.strip p (p ++ s) = Some s.
Proof. unfold Js.strip. by rewrite startsWith_app, drop_app_length. Qed.

Lemma strip_Some p s t : Js.strip p s = Some t → s = p ++ t.
Proof.
  unfold Js.strip. destruct (Js.startsWith p s) eqn:E; [|done].
  apply startsWith_prefix in E as [u ->]. rewrite drop_app_length. by intros [= ->].
Qed.

(** A run of characters of the class, followed by none of it, is what
    the greedy quantifier takes. *)
Lemma span_app (p : N → bool) taken rest :
  forallb p taken = true → head (p <$> rest) ≠ Some true →
  Js.span p (taken ++ rest) = (taken, rest).
Proof.
  intros Htaken Hrest. induction taken as [|c taken IH]; simpl in *.
  - destruct rest as [|d rest]; [done|].
    destruct (p d) eqn:E.
    + exfalso. apply Hrest. cbn. by rewrite E.
    + cbn. by rewrite E.
  - apply andb_true_iff in Htaken as [-> Htaken]. by rewrite IH.
Qed.

Lemma span_spec (p : N → bool) s :
  (Js.span p s).1 ++ (Js.span p s).2 = s
  ∧ forallb p (Js.span p s).1 = true
  ∧ head (p <$> (Js.span p s).2) ≠ Some true.
Proof.
  induction s as [|c s (IH1 & IH2 & IH3)]; simpl; [done|].
  destruct (p c) eqn:Ec.
  - destruct (Js.span p s) as [a b]; simpl in *. rewrite Ec, IH1. done.
  - simpl. rewrite Ec. done.
Qed.

Lemma to_decimal_aux_digits fuel n acc :
  ∃ digits, to_decimal_aux fuel n acc = digits ++ acc
            ∧ forallb Js.is_digit digits = true
            ∧ (fuel ≠ O → digits ≠ []).
Proof.
  revert n acc. induction fuel as [|fuel IH]; intros n acc; simpl.
  - by exists [].
  - assert (Js.is_digit (48 + n `mod` 10) = true) as Hd.
    { unfold Js.is_digit. pose proof (N.mod_upper_bound n 10 ltac:(done)) as H.
      revert H. generalize (n `mod` 10). intros r H.
      apply andb_true_iff. split; apply N.leb_le; lia. }
    destruct (n / 10 =? 0).
    + exists [48 + n `mod` 10]. simpl. by rewrite Hd.
    + destruct (IH (n / 10) ((48 + n `mod` 10) :: acc)) as (ds & -> & Hds & _).
      exists (ds ++ [48 + n `mod` 10]). rewrite <- app_assoc. split; [done|].
      rewrite forallb_app, Hds. simpl. rewrite Hd.
      split; [done|]. intros _. by destruct ds.
Qed.

Lemma parse_to_decimal_aux fuel n acc :
  n < 2 ^ N.of_nat fuel →
  foldl (λ a d, 10 * a + (d - 48)) 0 (to_decimal_aux fuel n acc)
  = foldl (λ a d, 10 * a + (d - 48)) n acc.
Proof.
  revert n acc. induction fuel as [|fuel IH]; intros n acc Hn.
  - simpl in *. by assert (n = 0) as -> by lia.
  - cbn [to_decimal_aux]. pose proof (N.div_mod' n 10) as Hdm.
    assert (n / 10 < 2 ^ N.of_nat fuel) as Hq.
    { rewrite Nat2N.inj_succ, N.pow_succ_r' in Hn.
      apply N.Div0.div_lt_upper_bound. lia. }
    revert Hdm Hq IH. generalize (n / 10) (n `mod` 10). intros q r Hdm Hq IH.
    destruct (N.eqb_spec q 0) as [E|E].
    + cbn [foldl]. f_equal. lia.
    + rewrite IH by done. cbn [foldl]. f_equal. lia.
Qed.

Lemma parse_to_decimal n : parse_decimal (to_decimal n) = n.
Proof.
  unfold parse_decimal, to_decimal. rewrite parse_to_decimal_aux; [done|].
  rewrite Nat2N.inj_succ, N2Nat.id.
  destruct n as [|p]; [done|]. apply N.log2_spec. lia.
Qed.

Lemma to_decimal_digits n :
  forallb Js.is_digit (to_decimal n) = true ∧ to_decimal n ≠ [].
Proof.
  unfold to_decimal.
  destruct (to_decimal_aux_digits (S (N.to_nat (N.log2 n))) n [])
    as (ds & -> & Hds & Hne).
  rewrite app_nil_r. split; [done|]. by apply Hne.
Qed.

(** ** DexMerger: the partition of the helper classes *)

Lemma partition_index_numbered n :
  partition_index (lit "smali_classes" ++ to_decimal n) = Some n.
Proof.
  unfold partition_index.
  destruct (to_decimal_digits n) as [Hd Hne].
  assert (match_smali_classes (lit "smali_classes" ++ to_decimal n)
          = Some (to_decimal n)) as Hm.
  { unfold match_smali_classes. rewrite strip_app. simpl.
    rewrite <- (app_nil_r (to_decimal n)) at 1. rewrite span_app by done.
    simpl. by destruct (to_decimal n). }
  rewrite (search_first _ _ 0%nat _ Hm); [|lia|lia].
  simpl. by rewrite parse_to_decimal.
Qed.

Lemma maxIndex_numbered nums :
  maxIndex ((λ n, lit "smali_classes" ++ to_decimal n) <$> nums)
  = foldl N.max 1 nums.
Proof.
  unfold maxIndex. generalize 1. induction nums as [|n nums IH]; intros mx; [done|].
  cbn [fmap list_fmap foldl]. rewrite partition_index_numbered.
  rewrite <- IH. f_equal.
  destruct (N.ltb_spec mx n); lia.
Qed.



(** ** SmaliCodeGenerator: the register count of the patched method *)

Lemma search_exists {A} (m : jsstr → option A) s p a :
  m (drop p s) = Some a → (p ≤ length s)%nat →
  ∃ j b, Js.search m s = Some (j, b) ∧ (j ≤ p)%nat.
Proof.
  revert p. induction s as [|c s IH]; intros p Hm Hp; simpl in *.
  - rewrite drop_nil in Hm. rewrite Hm. exists 0%nat, a. split; [done|lia].
  - destruct (m (c :: s)) as [b|] eqn:E.
    + exists 0%nat, b. split; [done|lia].
    + destruct p as [|p]; [simpl in Hm; congruence|].
      destruct (IH p Hm ltac:(lia)) as (j & b & -> & Hj).
      exists (S j), b. split; [done|lia].
Qed.

(** A declaration: the keyword, white space, digits, and no further digit. *)
Lemma match_locals_intro ws digits rest :
  ws ≠ [] → forallb Js.is_space ws = true →
  digits ≠ [] → forallb Js.is_digit digits = true →
  head (Js.is_digit <$> rest) ≠ Some true →
  match_locals (lit ".locals" ++ ws ++ digits ++ rest) = Some (ws, digits).
Proof.
  intros Hws Hsp Hds Hdg Hrest. unfold match_locals.
  rewrite strip_app. cbn [mbind option_bind].
  rewrite span_app; [|done|].
  - rewrite span_app by done. by destruct ws, digits.
  - destruct digits as [|d ds]; [done|]. cbn. cbn in Hdg.
    apply andb_true_iff in Hdg as [Hd _]. intros [= Hsd].
    revert Hd Hsd. unfold Js.is_digit, Js.is_space.
    destruct (N.leb_spec 48 d), (N.leb_spec d 57); simpl; try done. intros _.
    repeat match goal with
           | |- context [d =? ?k] => destruct (N.eqb_spec d k); [lia|]
           | |- context [?a <=? d] => destruct (N.leb_spec a d); [lia|]
           end; done.
Qed.

Lemma match_locals_elim s ws digits :
  match_locals s = Some (ws, digits) →
  ∃ rest, s = lit ".locals" ++ ws ++ digits ++ rest
          ∧ ws ≠ [] ∧ forallb Js.is_space ws = true
          ∧ digits ≠ [] ∧ forallb Js.is_digit digits = true
          ∧ head (Js.is_digit <$> rest) ≠ Some true.
Proof.
  unfold match_locals.
  destruct (Js.strip _ s) as [s1|] eqn:E1; [|done]. cbn [mbind option_bind].
  apply strip_Some in E1 as ->.
  destruct (span_spec Js.is_space s1) as (H1 & H2 & _).
  destruct (Js.span Js.is_space s1) as [w s2]. cbn [fst snd] in *.
  destruct (span_spec Js.is_digit s2) as (H3 & H4 & H5).
  destruct (Js.span Js.is_digit s2) as [d s3]. cbn [fst snd] in *.
  destruct w as [|c w]; [done|]. destruct d as [|c' d]; [done|].
  intros [= <- <-]. exists s3. subst. repeat split; done.
Qed.

Lemma span_stop (p : N → bool) r c t :
  p c = false →
  Js.span p (r ++ c :: t) = ((Js.span p r).1, (Js.span p r).2 ++ c :: t).
Proof.
  intros Hc. induction r as [|d r IH]; cbn; [by rewrite Hc|].
  destruct (p d); [|done]. rewrite IH. by destruct (Js.span p r).
Qed.

Lemma strip_locals_cut p t :
  p ≠ [] →
  Js.strip (lit ".locals") (p ++ 46 :: t)
  = (λ r, r ++ 46 :: t) <$> Js.strip (lit ".locals") p.
Proof.
  intros Hp. unfold Js.strip.
  change (lit ".locals") with [46; 108; 111; 99; 97; 108; 115].
  destruct p as [|c0 [|c1 [|c2 [|c3 [|c4 [|c5 [|c6 r]]]]]]]; [done|..];
    cbn [Js.startsWith app length drop];
    repeat match goal with
           | |- context [?a =? ?b] =>
               destruct (N.eqb_spec a b); [|done]; try discriminate
           end; done.
Qed.

(** Whether a declaration starts at some point, and which, is settled
    before the next dot: the text after that dot does not matter. *)
Lemma match_locals_cut p t t' :
  p ≠ [] → match_locals (p ++ 46 :: t) = match_locals (p ++ 46 :: t').
Proof.
  intros Hp. unfold match_locals. rewrite !strip_locals_cut by done.
  destruct (Js.strip (lit ".locals") p) as [r|]; [|done]. cbn [fmap option_fmap option_map mbind option_bind].
  rewrite !(span_stop Js.is_space) by done.
  destruct (Js.span Js.is_space r) as [w s2]. cbn [fst snd].
  rewrite !(span_stop Js.is_digit) by done.
  by destruct (Js.span Js.is_digit s2).
Qed.

(** Checking the declaration leaves it where it is; afterwards it reads
    the larger of its old value and the minimum of the variant. *)
Lemma raise_locals_spec m header j ws digits :
  Js.search match_locals header = Some (j, (ws, digits)) →
  ∃ ws' digits',
    Js.search match_locals (raise_locals m header) = Some (j, (ws', digits'))
    ∧ parse_decimal digits' = N.max (parse_decimal digits) (minLocals m)
    ∧ (minLocals m ≤ parse_decimal digits → raise_locals m header = header).
Proof.
  intros Hs. unfold raise_locals. rewrite Hs. cbn [fst snd].
  destruct (N.ltb_spec (parse_decimal digits) (minLocals m)) as [Hlt|Hge].
  2:{ exists ws, digits. repeat split; [done|lia]. }
  exists [32], (to_decimal (minLocals m)).
  apply search_Some in Hs as (Hj & Hlen & Hbefore).
  destruct (match_locals_elim _ _ _ Hj) as (rest & Hdrop & _ & _ & _ & _ & Hrest).
  destruct (to_decimal_digits (minLocals m)) as [Hdg Hne].
  assert (drop (j + locals_length (ws, digits)) header = rest) as ->.
  { rewrite <- drop_drop, Hdrop. unfold locals_length. cbn [fst snd].
    rewrite (app_assoc (lit ".locals")), (app_assoc (_ ++ ws)).
    rewrite drop_app_length'; [done|].
    rewrite !length_app. reflexivity. }
  assert (length (take j header) = j) as Htake by (rewrite length_take; lia).
  split; [|split; [rewrite parse_to_decimal; lia | lia]].
  apply search_first.
  - rewrite drop_app_length' by done.
    change (lit ".locals ") with (lit ".locals" ++ [32]). rewrite <- app_assoc.
    by apply match_locals_intro.
  - rewrite length_app. lia.
  - intros k Hk. specialize (Hbefore k Hk).
    rewrite <- (take_drop j header) in Hbefore.
    rewrite drop_app_le in Hbefore by lia. rewrite drop_app_le by lia.
    rewrite Hdrop in Hbefore.
    change (lit ".locals") with ([46] ++ lit "locals") in Hbefore.
    change (lit ".locals ") with ([46] ++ lit "locals ").
    rewrite <- !app_assoc in *. cbn [app] in *.
    rewrite <- Hbefore. apply match_locals_cut.
    intros Hnil. apply (f_equal length) in Hnil.
    rewrite length_drop, Htake in Hnil. simpl in Hnil. lia.
Qed.

Lemma dot_star_Some k s n :
  dot_star k s = Some n → ∃ a, (a ≤ n)%nat ∧ k (drop a s) = Some (n - a)%nat.
Proof.
  revert n. induction s as [|c s IH]; intros n; cbn [dot_star].
  - intros H. exists 0%nat. rewrite Nat.sub_0_r. split; [lia|done].
  - assert (k (c :: s) = Some n →
            ∃ a, (a ≤ n)%nat ∧ k (drop a (c :: s)) = Some (n - a)%nat) as Hhere.
    { intros H. exists 0%nat. rewrite Nat.sub_0_r. split; [lia|done]. }
    destruct (Js.is_line_terminator c); [done|].
    destruct (dot_star k s) as [n'|] eqn:E; [|done].
    intros [= <-]. destruct (IH n' eq_refl) as (a & Ha & Hk).
    exists (S a). split; [lia|done].
Qed.

(** The text the header regex matches ends with a declaration. *)
Lemma match_header_declares m s n :
  match_header m s = Some n →
  ∃ p ws digits,
    (p + locals_length (ws, digits) = n)%nat
    ∧ match_locals (drop p (take n s)) = Some (ws, digits).
Proof.
  unfold match_header.
  destruct (Js.strip _ s) as [s1|] eqn:E1; [|done]. cbn [mbind option_bind].
  apply strip_Some in E1 as ->.
  destruct (dot_star _ s1) as [n1|] eqn:E2; [|done]. cbn [mbind option_bind].
  intros [= <-]. apply dot_star_Some in E2 as (a & Ha & Hk).
  destruct (match_sig m (drop a s1)) as [k|] eqn:E3; [|done].
  cbn [mbind option_bind] in Hk. unfold upto_locals in Hk.
  destruct (Js.search match_locals _) as [[i [ws digits]]|] eqn:E4; [|done].
  cbn [mbind option_bind] in Hk. injection Hk as Hk.
  apply search_Some in E4 as (Hm & _ & _).
  rewrite !drop_drop in Hm.
  exists (7 + (a + k + i))%nat, ws, digits. split; [lia|].
  destruct (match_locals_elim _ _ _ Hm) as (rest & Hrest & ? & ? & ? & ? & _).
  assert (S (S (S (S (S (S (S n1))))))
          = 7 + (a + k + i) + locals_length (ws, digits))%nat as -> by lia.
  rewrite <- take_drop_commute.
  change (lit ".method" ++ s1) with ([46; 109; 101; 116; 104; 111; 100] ++ s1).
  rewrite <- drop_drop. rewrite (drop_app_length' _ _ 7) by done.
  replace (a + k + i)%nat with (a + (k + i))%nat by lia.
  rewrite Hrest.
  unfold locals_length. cbn [fst snd].
  rewrite (app_assoc (lit ".locals")), (app_assoc (_ ++ ws)).
  rewrite take_app_length'; [|by rewrite !length_app].
  rewrite <- !app_assoc. rewrite <- (app_nil_r digits) at 1.
  by apply match_locals_intro.
Qed.

Lemma get_substitution_plain matched before after captures replacement :
  no_dollar replacement = true →
  get_substitution matched before after captures replacement = replacement.
Proof.
  induction replacement as [|c r IH]; cbn; [done|].
  intros [Hc Hr]%andb_true_iff. rewrite Hc. f_equal. by apply IH.
Qed.

Lemma no_dollar_app a b : no_dollar (a ++ b) = no_dollar a && no_dollar b.
Proof. apply forallb_app. Qed.

Lemma no_dollar_text lines :
  forallb (forallb no_dollar) lines = true → no_dollar (text lines) = true.
Proof.
  assert (∀ l, forallb no_dollar l = true → no_dollar (concat l) = true) as Hcat.
  { induction l as [|x l IH]; cbn; [done|].
    intros [Hx Hl]%andb_true_iff. by rewrite no_dollar_app, Hx, IH. }
  induction lines as [|l lines IH]; [done|].
  intros [Hl Hlines]%andb_true_iff.
  destruct lines as [|l' lines]; [by apply Hcat|].
  change (text (l :: l' :: lines)) with (concat l ++ 10 :: text (l' :: lines)).
  rewrite no_dollar_app, Hcat by done.
  change (no_dollar (10 :: ?x)) with (no_dollar x). by rewrite IH.
Qed.

Lemma no_dollar_hookCall signature pkgName m :
  no_dollar signature = true → no_dollar pkgName = true →
  no_dollar (hookCall signature pkgName m) = true.
Proof.
  intros Hs Hp.
  destruct m; apply no_dollar_text; cbn [forallb]; rewrite ?Hs, ?Hp; reflexivity.
Qed.

Lemma no_dollar_raise_locals m header :
  no_dollar header = true → no_dollar (raise_locals m header) = true.
Proof.
  intros H. unfold raise_locals.
  destruct (Js.search match_locals header) as [[i wd]|]; [|done].
  destruct (_ <? _); [|done].
  rewrite <- (take_drop i header) in H. rewrite no_dollar_app in H.
  apply andb_true_iff in H as [H1 H2].
  rewrite !no_dollar_app, H1. cbn [andb].
  apply andb_true_iff. split; [reflexivity|]. apply andb_true_iff. split.
  - destruct (to_decimal_digits (minLocals m)) as [Hd _].
    unfold no_dollar. apply forallb_forall. intros c Hc.
    rewrite forallb_forall in Hd. specialize (Hd c Hc).
    destruct (N.eqb_spec c 36) as [->|]; done.
  - rewrite <- (take_drop (locals_length wd) (drop i header)) in H2.
    rewrite no_dollar_app in H2. apply andb_true_iff in H2 as [_ H2].
    by rewrite drop_drop in H2.
Qed.

(** A method that is created carries the minimum of its variant. *)
Lemma newMethod_declares signature pkgName m content :
  ∃ i n j ws digits,
    Js.search (match_header m) (newMethod signature pkgName m content) = Some (i, n)
    ∧ Js.search match_locals
        (take n (drop i (newMethod signature pkgName m content)))
      = Some (j, (ws, digits))
    ∧ parse_decimal digits = minLocals m.
Proof.
  unfold newMethod. generalize (hookCall signature pkgName m). intros hook.
  destruct m; try (generalize (superClass OnCreate content); intros super);
    eexists _, _, _, _, _;
    (split; [vm_compute; reflexivity|]);
    (split; [vm_compute; reflexivity|]); reflexivity.
Qed.

(** What the patch does guarantee.  The header that is matched has its
    first declaration read and checked in place: in the replacement it
    reads the larger of its old value and the minimum of the variant (6
    for the static initializer, 3 for the content provider, 2
    otherwise).  A created method is written with the minimum.  The
    replacement reaches the file as it is only when header, signature
    and package name hold no dollar sign: it is handed to
    [String.prototype.replace] as a replacement pattern.
    [parse_decimal] is the exact value of the digits. *)
Theorem injected_method_declares_enough_locals signature pkgName m content :
  match inject signature pkgName m content with
  | Patched content' =>
      ∃ i n j ws digits ws' digits',
        let before := take i content in
        let header := take n (drop i content) in
        let after := drop (i + n) content in
        let header' := raise_locals m header in
        Js.search (match_header m) content = Some (i, n)
        ∧ Js.search match_locals header = Some (j, (ws, digits))
        ∧ Js.search match_locals header' = Some (j, (ws', digits'))
        ∧ minLocals m ≤ parse_decimal digits'
        ∧ parse_decimal digits' = N.max (parse_decimal digits) (minLocals m)
        ∧ (minLocals m ≤ parse_decimal digits → header' = header)
        ∧ content'
          = before
            ++ get_substitution header before after [header]
                 (header' ++ [10] ++ hookCall signature pkgName m)
            ++ after
        ∧ (no_dollar header = true → no_dollar signature = true →
           no_dollar pkgName = true →
           content'
           = before ++ header' ++ [10] ++ hookCall signature pkgName m ++ after)
  | Created content' =>
      ∃ i n j ws digits,
        let created := newMethod signature pkgName m content in
        content' = Js.trimEnd content ++ [10; 10] ++ created
        ∧ Js.search (match_header m) created = Some (i, n)
        ∧ Js.search match_locals (take n (drop i created)) = Some (j, (ws, digits))
        ∧ parse_decimal digits = minLocals m
  | NoLocals => Js.search (match_header m) content = None
  end.
Proof.
  unfold inject.
  destruct (Js.search (match_methodDef m) content) as [?|].
  - destruct (Js.search (match_header m) content) as [[i n]|] eqn:E; [|done].
    pose proof E as (Hmatch & _ & _)%search_Some.
    apply match_header_declares in Hmatch as (q & ws0 & ds0 & _ & Hdecl).
    set (header := take n (drop i content)) in *.
    assert (q ≤ length header)%nat as Hq.
    { destruct (decide (q ≤ length header)%nat) as [|Hgt]; [done|].
      rewrite drop_ge in Hdecl by lia. done. }
    destruct (search_exists _ _ _ _ Hdecl Hq) as (j & [ws digits] & Hfound & _).
    destruct (raise_locals_spec m header j ws digits Hfound)
      as (ws' & digits' & Hraised & Hvalue & Hkept).
    exists i, n, j, ws, digits, ws', digits'. cbn zeta. fold header.
    repeat split; try done.
    + lia.
    + intros Hh Hs Hp'. rewrite get_substitution_plain.
      * by rewrite <- !app_assoc.
      * rewrite !no_dollar_app, no_dollar_raise_locals, no_dollar_hookCall by done.
        reflexivity.
  - destruct (newMethod_declares signature pkgName m content)
      as (i & n & j & ws & digits & H1 & H2 & H3).
    by exists i, n, j, ws, digits.
Qed.

(** C3, at its failing input: an Application class whose
    [attachBaseContext] is native, ahead of a constructor that takes an
    anonymous inner class.  The header that is matched runs on to the
    [.locals 0] of that constructor, so it holds the type [App$1].  The
    declaration is raised to 2 in the replacement, but [replace] expands
    [$1] to the text that was matched: the file that is written has the
    old header, with its [.locals 0], in the middle of the new one, and
    the first declaration after the method line reads 0. *)
Theorem dollar_pattern_in_the_header_is_expanded :
  ∃ header header' content',
    Js.search (match_header AttachBaseContext) Demo.native_smali
    = Some (71%nat, 161%nat)
    ∧ header = take 161 (drop 71 Demo.native_smali)
    ∧ Js.search match_locals header = Some (152%nat, ([32], lit "0"))
    ∧ header' = raise_locals AttachBaseContext header
    ∧ Js.search match_locals header' = Some (152%nat, ([32], lit "2"))
    ∧ Js.indexOf (lit "$1") header = Some 142%nat
    ∧ inject (lit "3082abcd") (lit "com.example.demo") AttachBaseContext
        Demo.native_smali
      = Patched content'
    ∧ content'
      = take 71 Demo.native_smali
        ++ take 142 header' ++ header ++ drop 144 header'
        ++ [10] ++ hookCall (lit "3082abcd") (lit "com.example.demo") AttachBaseContext
        ++ drop (71 + 161) Demo.native_smali
    ∧ Js.search (match_header AttachBaseContext) content' = Some (71%nat, 303%nat)
    ∧ Js.search match_locals (take 303 (drop 71 content'))
      = Some (294%nat, ([32], lit "0"))
    ∧ parse_decimal (lit "0") < minLocals AttachBaseContext.
Proof.
  eexists _, _, _.
  split; [vm_compute; reflexivity|]. split; [reflexivity|].
  split; [vm_compute; reflexivity|]. split; [reflexivity|].
  split; [vm_compute; reflexivity|]. split; [vm_compute; reflexivity|].
  split; [reflexivity|].
  split; [vm_compute; reflexivity|].
  split; [vm_compute; reflexivity|].
  split; [vm_compute; reflexivity|]. reflexivity.
Qed.

(** ** Paths and the effects of the primitives on the file system *)

Lemma within_spec dir p :
  within dir p = true ↔ p = dir ∨ ∃ t, p = dir ++ 47 :: t.
Proof.
  unfold within, under, Js.eqb. rewrite orb_true_iff, bool_decide_eq_true.
  rewrite startsWith_prefix. split; (intros [?|[t ->]]; [by left|right; exists t]);
    by rewrite <- app_assoc.
Qed.

Lemma path_join_within dir x : dir ≠ [] → within dir (path_join dir x) = true.
Proof.
  intros Hd. apply within_spec. unfold path_join.
  destruct dir as [|c dir]; [done|]. destruct x as [|d x]; [by left|].
  right. by exists (d :: x).
Qed.

Lemma within_trans a b c :
  within a b = true → within b c = true → within a c = true.
Proof.
  rewrite !within_spec. intros [->|[t ->]] [->|[u ->]]; eauto.
  right. exists (t ++ 47 :: u). by rewrite <- !app_assoc.
Qed.

Lemma within_refl d : within d d = true.
Proof. apply within_spec. by left. Qed.

Lemma within_ne d p out : within d p = true → within d out = false → p ≠ out.
Proof. intros Hp Hout ->. congruence. Qed.

Lemma path_join_nonempty a b : a ≠ [] → path_join a b ≠ [].
Proof. unfold path_join. destruct a, b; try done. Qed.

Lemma foldl_path_join_within base cs :
  base ≠ [] → within base (foldl path_join base cs) = true.
Proof.
  revert base. induction cs as [|c cs IH]; intros base Hb; cbn [foldl].
  - apply within_refl.
  - eapply within_trans; [by apply (path_join_within base c)|].
    apply IH. by apply path_join_nonempty.
Qed.

Lemma remove_tree_lookup (d : jsstr) (fs : filesystem) (p : jsstr) :
  remove_tree d fs !! p = if within d p then None else fs !! p.
Proof.
  unfold remove_tree. destruct (within d p) eqn:E.
  - apply map_lookup_filter_None. right. intros x _. cbn. congruence.
  - destruct (fs !! p) as [x|] eqn:Ex.
    + by apply map_lookup_filter_Some.
    + apply map_lookup_filter_None. by left.
Qed.

Lemma insert_all_lookup_ne (f : jsstr → jsstr) (l : list (jsstr * node))
    (fs : filesystem) (p : jsstr) :
  (∀ kv, kv ∈ l → f kv.1 ≠ p) →
  foldr (λ kv acc, <[f kv.1 := kv.2]> acc) fs l !! p = fs !! p.
Proof.
  induction l as [|kv l IH]; intros H; cbn [foldr]; [done|].
  rewrite lookup_insert_ne by (apply H; left).
  apply IH. intros kv' Hin. apply H. by right.
Qed.

Lemma place_lookup_outside (dir : jsstr) (tree : gmap jsstr node)
    (fs : filesystem) (p : jsstr) :
  dir ≠ [] → within dir p = false → place dir tree fs !! p = fs !! p.
Proof.
  intros Hd Hp. unfold place. apply insert_all_lookup_ne.
  intros kv _ <-. by rewrite path_join_within in Hp.
Qed.

Lemma place_lookup (dir : jsstr) (tree : gmap jsstr node) (fs : filesystem)
    (p : jsstr) (x : node) :
  place dir tree fs !! p = Some x →
  fs !! p = Some x ∨ ∃ rel, tree !! rel = Some x ∧ p = path_join dir rel.
Proof.
  unfold place.
  assert (∀ kv, kv ∈ map_to_list tree → tree !! kv.1 = Some kv.2) as Hin.
  { intros [k v]. apply elem_of_map_to_list. }
  revert Hin. generalize (map_to_list tree).
  induction l as [|kv l IH]; intros Hin; cbn [foldr]; [by left|].
  destruct (decide (path_join dir kv.1 = p)) as [<-|Hne].
  - rewrite lookup_insert_eq. intros [= <-]. right. exists kv.1.
    split; [apply Hin; left|done].
  - rewrite lookup_insert_ne by done. apply IH. intros kv' H. apply Hin. by right.
Qed.

Lemma mkdirs_lookup_outside (base : jsstr) (cs : list jsstr)
    (fs : filesystem) (p : jsstr) :
  base ≠ [] → within base p = false → mkdirs base cs fs !! p = fs !! p.
Proof.
  revert base fs. induction cs as [|c cs IH]; intros base fs Hb Hp; cbn [mkdirs];
    [done|].
  assert (within (path_join base c) p = false) as Hp'.
  { destruct (within (path_join base c) p) eqn:E; [|done].
    rewrite (within_trans base (path_join base c) p) in Hp;
      [done|by apply path_join_within|done]. }
  rewrite IH; [|by apply path_join_nonempty|done].
  destruct (fs !! path_join base c); [done|].
  apply lookup_insert_ne. intros <-.
  by rewrite path_join_within in Hp.
Qed.

(** ** Invariants of computations *)

Lemma preserves_ret {A} P (a : A) : preserves P (ret a).
Proof. by intros s. Qed.

Lemma preserves_throw {A} P e : preserves P (@throw A e).
Proof. by intros s. Qed.

Lemma preserves_onLog P e : preserves P (onLog e).
Proof. by intros s. Qed.

Lemma preserves_get_files P : preserves P get_files.
Proof. by intros s. Qed.

Lemma preserves_set_files P f :
  (∀ fs, P fs → P (f fs)) → preserves P (set_files f).
Proof. intros H s. apply H. Qed.

Lemma preserves_bind {A B} P (m : M A) (k : A → M B) (Q : A → Prop) :
  preserves P m → ensures m Q → (∀ a, Q a → preserves P (k a)) →
  preserves P (bind m k).
Proof.
  intros Hm HQ Hk s Hs. unfold bind. specialize (Hm s Hs).
  destruct (m s) as [[a|e] s1] eqn:E; [|done].
  apply (Hk a); [by eapply HQ|done].
Qed.

Lemma preserves_bind' {A B} P (m : M A) (k : A → M B) :
  preserves P m → (∀ a, preserves P (k a)) → preserves P (bind m k).
Proof. intros Hm Hk. apply (preserves_bind P m k (λ _, True)); by auto. Qed.

Lemma preserves_try_catch {A} P (m : M A) h :
  preserves P m → (∀ e, preserves P (h e)) → preserves P (try_catch m h).
Proof.
  intros Hm Hh s Hs. unfold try_catch. specialize (Hm s Hs).
  destruct (m s) as [[a|e] s1]; [done|]. by apply Hh.
Qed.

Lemma preserves_try_finally {A} P (m : M A) cleanup :
  preserves P m → preserves P cleanup → preserves P (try_finally m cleanup).
Proof.
  intros Hm Hc s Hs. unfold try_finally. specialize (Hm s Hs).
  destruct (m s) as [r s1]. specialize (Hc s1 Hm).
  by destruct (cleanup s1) as [[[]|e] s2].
Qed.

Section PrimitiveRules.
Context (W : World) (P : filesystem → Prop).

Lemma preserves_existsSync p : preserves P (existsSync p).
Proof. by intros s. Qed.

Lemma preserves_readFileSync p : preserves P (readFileSync W p).
Proof. intros s Hs. unfold readFileSync, bind, get_files. by destruct (_ !! p) as [[]|]. Qed.

Lemma preserves_readdirSync p : preserves P (readdirSync p).
Proof. intros s Hs. unfold readdirSync, bind, get_files. by destruct (_ !! p) as [[]|]. Qed.

Lemma preserves_write_node p n :
  (∀ fs, P fs → P (<[p := n]> fs)) → preserves P (write_node W p n).
Proof.
  intros H s Hs. unfold write_node, bind, get_files.
  destruct (write_error W p (files s)); [done|]. by apply H.
Qed.

Lemma preserves_writeFileSync p text :
  (∀ fs n, P fs → P (<[p := n]> fs)) → preserves P (writeFileSync W p text).
Proof. intros H. apply preserves_write_node. intros fs. apply H. Qed.

Lemma preserves_copyFileSync src dst :
  (∀ fs n, P fs → P (<[dst := n]> fs)) → preserves P (copyFileSync W src dst).
Proof.
  intros H s Hs. unfold copyFileSync, bind, get_files.
  destruct (_ !! src) as [[d|]|]; try done.
  apply (preserves_write_node dst (File d)); [|done]. intros fs. apply H.
Qed.

Lemma preserves_rmSync p :
  (∀ fs, P fs → P (remove_tree p fs)) → preserves P (rmSync p).
Proof. apply preserves_set_files. Qed.

Lemma preserves_mkdirSync base cs :
  (∀ fs, P fs → P (mkdirs base cs fs)) → preserves P (mkdirSync W base cs).
Proof.
  intros H s Hs. unfold mkdirSync, bind, get_files.
  destruct (write_error W _ (files s)); [done|]. by apply H.
Qed.

Lemma preserves_execPromise c effect :
  (∀ o fs, P fs → P (effect o fs)) → preserves P (execPromise W c effect).
Proof.
  intros H s Hs. unfold execPromise.
  destruct (failure _); by apply H.
Qed.

Lemma preserves_execWithLog c effect :
  (∀ o fs, P fs → P (effect o fs)) → preserves P (execWithLog W c effect).
Proof.
  intros H. unfold execWithLog.
  apply preserves_bind'; [apply preserves_onLog|intros _].
  apply preserves_bind'; [by apply preserves_execPromise|intros [out err]].
  apply preserves_bind'; [destruct out; [apply preserves_ret|apply preserves_onLog]|intros _].
  apply preserves_bind'; [destruct err; [apply preserves_ret|apply preserves_onLog]|intros _].
  apply preserves_ret.
Qed.

End PrimitiveRules.

(** ** DexMerger: what the merge changes in the original container *)

Lemma child_name_spec dir p name :
  child_name dir p = Some name → p = dir ++ 47 :: name ∧ name ≠ [].
Proof.
  unfold child_name, under. destruct (Js.startsWith _ p) eqn:E; [|done].
  apply startsWith_prefix in E as [t ->]. rewrite <- app_assoc.
  replace (length dir + 1)%nat with (length (dir ++ [47])) by (rewrite length_app; done).
  rewrite app_assoc, drop_app_length. destruct t; [done|].
  destruct (existsb _ _); [done|]. intros [= <-]. by rewrite <- app_assoc.
Qed.

Lemma top_files_spec (W : World) (dir : jsstr) (fs : filesystem)
    (name bytes : jsstr) :
  (name, bytes) ∈ top_files W dir fs →
  ∃ x, fs !! (dir ++ 47 :: name) = Some x.
Proof.
  unfold top_files, children. rewrite list_elem_of_omap.
  intros ([name' n] & Hin & Hsel). cbn [fst snd] in Hsel.
  assert (name' = name) as ->.
  { destruct n as [d|]; [|done]. destruct (Js.startsWith _ name'); [done|].
    by injection Hsel. }
  apply list_elem_of_omap in Hin as ([p x] & Hp & Hchild).
  cbn [fst snd] in Hchild. apply elem_of_map_to_list in Hp.
  destruct (child_name dir p) as [nm|] eqn:Ec; [|done].
  injection Hchild as -> ->. apply child_name_spec in Ec as [-> _]. by exists n.
Qed.

Lemma update_entries_lookup (W : World) (dir : jsstr) (fs : filesystem)
    (entries : gmap jsstr jsstr) (name : jsstr) :
  update_entries W dir fs entries !! name = entries !! name
  ∨ ∃ bytes, (name, bytes) ∈ top_files W dir fs.
Proof.
  unfold update_entries. induction (top_files W dir fs) as [|[n b] l IH];
    cbn [foldr fst snd]; [by left|].
  destruct (decide (n = name)) as [->|Hne].
  { right. exists b. left. }
  destruct IH as [IH|[bytes Hin]]; [|right; exists bytes; by right].
  left. destruct (entries !! n); [destruct (newer W _ fs)|];
    by rewrite ?lookup_insert_ne.
Qed.

Section Merge.
Context (W : World) (updateManifest : bool) (entries : gmap jsstr jsstr).
Context (dir outputApk : jsstr).
Context (Hdir : dir ≠ []) (Hout : within dir outputApk = false).

Abbreviation Inv := (merging updateManifest entries dir outputApk).

Lemma merging_insert_outside (fs : filesystem) (name : jsstr) (n : node) :
  mergeable updateManifest name → Inv fs → Inv (<[dir ++ 47 :: name := n]> fs).
Proof.
  intros Hname [(merged & Hm & Hsame) Hscratch]. split.
  - exists merged. split; [|done]. rewrite lookup_insert_ne; [done|].
    intros E. rewrite <- E in Hout.
    assert (within dir (dir ++ 47 :: name) = true) as Hin
      by (apply within_spec; right; by exists name).
    congruence.
  - intros name' x. destruct (decide (name' = name)) as [->|Hne]; [done|].
    rewrite lookup_insert_ne; [apply Hscratch|].
    intros E%app_inv_head. congruence.
Qed.

Lemma merging_extracts apk selected o (fs : filesystem) :
  (∀ name, selected name = true → name ≠ [] ∧ mergeable updateManifest name) →
  Inv fs → Inv (extracts apk dir selected o fs).
Proof.
  intros Hsel HI. unfold extracts.
  destruct (fs !! apk) as [[[|new]|]|]; try done.
  destruct HI as [(merged & Hm & Hsame) Hscratch]. split.
  - exists merged. split; [|done]. by rewrite place_lookup_outside.
  - intros name x [Hold|(rel & Hrel & Hpath)]%place_lookup; [by eapply Hscratch|].
    apply lookup_fmap_Some in Hrel as (bytes & _ & Hrel).
    apply map_lookup_filter_Some in Hrel as [_ Hrel]. cbn [fst] in Hrel.
    destruct (Hsel rel Hrel) as [Hne Hok].
    unfold path_join in Hpath. destruct dir as [|c dir'] eqn:Ed; [done|].
    destruct rel as [|r rel']; [done|].
    rewrite <- Ed in Hpath. apply app_inv_head in Hpath. by injection Hpath as ->.
Qed.

Lemma merging_zip_updates o (fs : filesystem) :
  Inv fs → Inv (zip_updates W dir outputApk o fs).
Proof.
  intros [(merged & Hm & Hsame) Hscratch]. unfold zip_updates. rewrite Hm.
  split.
  - eexists. rewrite lookup_insert_eq. split; [done|].
    intros name Hname.
    destruct (update_entries_lookup W dir fs merged name) as [E|[bytes Hin]].
    + apply Hsame. by rewrite <- E.
    + apply top_files_spec in Hin as [x Hx]. by eapply Hscratch.
  - intros name x. rewrite lookup_insert_ne; [apply Hscratch|].
    intros E. rewrite E in Hout.
    assert (within dir (dir ++ 47 :: name) = true) as Hin
      by (apply within_spec; right; by exists name).
    congruence.
Qed.

Lemma merging_remove (fs : filesystem) : Inv fs → Inv (remove_tree dir fs).
Proof.
  intros [(merged & Hm & Hsame) Hscratch]. split.
  - exists merged. by rewrite remove_tree_lookup, Hout.
  - intros name x. rewrite remove_tree_lookup.
    assert (within dir (dir ++ 47 :: name) = true) as ->
      by (apply within_spec; right; by exists name).
    done.
Qed.

Lemma merging_body newApk binaryManifestPath (update : bool) :
  (update = true → mergeable updateManifest manifest_name) →
  preserves Inv
    (try_finally
       (do _ <- execWithLog W (UnzipExtract newApk (lit "classes*.dex") dir)
                  (extracts newApk dir is_classes_dex);
        run (if update then
               do usable <- match binaryManifestPath with
                            | Some p => existsSync p
                            | None => ret false
                            end;
               match binaryManifestPath, usable with
               | Some p, true =>
                   run onLog LogUseBinaryManifest;
                   copyFileSync W p (path_join dir manifest_name)
               | _, _ =>
                   run onLog LogUseBuiltManifest;
                   do _ <- execWithLog W (UnzipExtract newApk manifest_name dir)
                             (extracts newApk dir (λ n, Js.eqb n manifest_name));
                   ret ()
               end
             else ret ());
        do _ <- execWithLog W (ZipUpdate dir outputApk)
                  (zip_updates W dir outputApk);
        ret ())
       (rmSync dir)).
Proof.
  intros Hupdate.
  assert (path_join dir manifest_name = dir ++ 47 :: manifest_name) as Hjoin.
  { unfold path_join. by destruct dir. }
  apply preserves_try_finally;
    [|apply preserves_rmSync, merging_remove].
  apply preserves_bind'; [|intros _].
  { apply preserves_execWithLog. intros o fs. apply merging_extracts.
    intros name Hname. split; [by destruct name|by left]. }
  apply preserves_bind'; [|intros _].
  { destruct update; [|apply preserves_ret].
    specialize (Hupdate eq_refl).
    apply preserves_bind';
      [destruct binaryManifestPath; [apply preserves_existsSync|apply preserves_ret]|].
    intros usable.
    assert (preserves Inv
              (run onLog LogUseBuiltManifest;
               do _ <- execWithLog W (UnzipExtract newApk manifest_name dir)
                         (extracts newApk dir (λ n, Js.eqb n manifest_name));
               ret ())) as Hbuilt.
    { apply preserves_bind'; [apply preserves_onLog|intros _].
      apply preserves_bind'; [|intros _; apply preserves_ret].
      apply preserves_execWithLog. intros o fs. apply merging_extracts.
      intros name Hname. apply bool_decide_eq_true in Hname as ->. by split. }
    destruct binaryManifestPath as [p|]; [|done]. destruct usable; [|done].
    apply preserves_bind'; [apply preserves_onLog|intros _].
    apply preserves_copyFileSync. intros fs n. rewrite Hjoin.
    by apply merging_insert_outside. }
  apply preserves_bind'; [|intros _; apply preserves_ret].
  apply preserves_execWithLog. intros o fs. apply merging_zip_updates.
Qed.

End Merge.

(** The merged package is the original container in which only
    bytecode partitions ([classes*.dex]) and, when the manifest was
    modified, the manifest entry may differ; every other entry is the
    original one, whatever the rebuilt package holds.  This is so
    however the merge ends, once the copy of the original is made.  The
    scratch directory is a fresh one, as [mkdtempSync] gives. *)
Lemma merged_entries_frame W originalApk newApk outputApk updateManifest
    binaryManifestPath s entries :
  (∀ fs p, within (mkdtemp_name W DexMerge fs) p = true → fs !! p = None) →
  files s !! originalApk = Some (File (Archive entries)) →
  write_error W outputApk (files s) = None →
  ∃ merged,
    files (mergeDexIntoOriginalApk W originalApk newApk outputApk updateManifest
             binaryManifestPath s).2 !! outputApk
    = Some (File (Archive merged))
    ∧ ∀ name, is_classes_dex name = false →
              (name ≠ manifest_name ∨ updateManifest = false) →
              merged !! name = entries !! name.
Proof.
  intros Hfresh Horig Hwrite.
  assert (∀ fs, merging updateManifest entries
                  (mkdtemp_name W DexMerge fs) outputApk fs →
          ∃ merged, fs !! outputApk = Some (File (Archive merged))
            ∧ ∀ name, is_classes_dex name = false →
                (name ≠ manifest_name ∨ updateManifest = false) →
                merged !! name = entries !! name) as Hdone.
  { intros fs [(merged & Hm & Hsame) _]. exists merged. split; [done|].
    intros name Hdex Hman.
    destruct (decide (merged !! name = entries !! name)) as [|Hne]; [done|].
    destruct (Hsame name Hne) as [?|[-> ->]]; [congruence|by destruct Hman]. }
  unfold mergeDexIntoOriginalApk, bind at 1, copyFileSync, bind at 1, get_files.
  rewrite Horig. unfold write_node, bind at 1, get_files. rewrite Hwrite.
  unfold set_files. cbn [files logs].
  set (fs1 := <[outputApk := File (Archive entries)]> (files s)).
  set (dir := mkdtemp_name W DexMerge fs1).
  assert (within dir outputApk = false) as Hout.
  { destruct (within dir outputApk) eqn:E; [|done].
    apply Hfresh in E. unfold fs1 in E. by rewrite lookup_insert_eq in E. }
  assert (dir ≠ []) as Hdir.
  { unfold dir, mkdtemp_name. intros E%app_eq_nil. destruct E as [E _].
    unfold path_join in E. by destruct (tmpdir W). }
  assert (merging updateManifest entries dir outputApk fs1) as Hinv.
  { split.
    - exists entries. split; [apply lookup_insert_eq|by intros name].
    - intros name x Hx. rewrite Hfresh in Hx; [done|].
      apply within_spec. right. by exists name. }
  unfold bind at 1, mkdtempSync, bind at 1, get_files, bind at 1. cbn [files].
  fold dir. unfold write_node, bind at 1, get_files. cbn [files].
  destruct (write_error W dir fs1) as [e|].
  { cbn. apply (Hdone fs1). done. }
  unfold set_files, ret. cbn [files logs].
  assert (merging updateManifest entries dir outputApk (<[dir := Dir]> fs1)) as Hinv'.
  { destruct Hinv as [(merged & Hm & Hsame) Hscratch]. split.
    - exists merged. split; [|done]. rewrite lookup_insert_ne; [done|].
      intros E. rewrite <- E, within_refl in Hout. done.
    - intros name x. rewrite lookup_insert_ne; [apply Hscratch|].
      intros E. apply (f_equal length) in E. rewrite length_app in E.
      simpl in E. lia. }
  pose proof (merging_body W updateManifest entries dir outputApk Hdir Hout
                newApk binaryManifestPath updateManifest
                ltac:(by right)
                {| files := <[dir := Dir]> fs1; logs := logs s |} Hinv') as Hfinal.
  destruct Hfinal as [(merged & Hm & Hsame) _].
  exists merged. split; [exact Hm|].
  intros name Hdex Hman.
  destruct (decide (merged !! name = entries !! name)) as [|Hne]; [done|].
  destruct (Hsame name Hne) as [?|[-> ->]]; [congruence|by destruct Hman].
Qed.

(** A name longer than every path in use is fresh. *)
Lemma fresh_suffix_fresh tool k (fs : filesystem) (p : jsstr) :
  within (mkdtemp_name (Demo.world tool (λ _, Demo.fresh_suffix)) k fs) p = true →
  fs !! p = None.
Proof.
  intros Hin. destruct (fs !! p) as [x|] eqn:Ex; [exfalso|done].
  assert (length p ≤ max_list (length <$> (map_to_list fs).*1))%nat as Hle.
  { apply max_list_elem_of_le. apply list_elem_of_fmap. exists p. split; [done|].
    apply list_elem_of_fmap. exists (p, x). split; [done|].
    by apply elem_of_map_to_list. }
  assert (length (mkdtemp_name (Demo.world tool (λ _, Demo.fresh_suffix)) k fs)
          ≤ length p)%nat as Hge.
  { apply within_spec in Hin as [->|[t ->]]; [done|]. rewrite length_app. lia. }
  unfold mkdtemp_name in Hge. rewrite length_app in Hge. cbn [mkdtemp_suffix Demo.world] in Hge.
  unfold Demo.fresh_suffix in Hge. rewrite length_replicate in Hge. lia.
Qed.

(** ** ResignOrchestrator: what a job leaves at the output path *)

Lemma within_inside a b out :
  within a b = true → within a out = false → within b out = false.
Proof.
  intros Hab Hout. destruct (within b out) eqn:E; [|done].
  by rewrite (within_trans a b out) in Hout.
Qed.

Lemma within_path_join d a b :
  a ≠ [] → within d a = true → within d (path_join a b) = true.
Proof. intros Ha Hd. eapply within_trans; [done|by apply path_join_within]. Qed.

Lemma mkdtemp_name_nonempty W k (fs : filesystem) : mkdtemp_name W k fs ≠ [].
Proof.
  unfold mkdtemp_name, path_join. intros [E _]%app_eq_nil.
  by destruct (tmpdir W), k.
Qed.

Lemma ensures_weaken {A} (m : M A) (Q Q' : A → Prop) :
  ensures m Q → (∀ a, Q a → Q' a) → ensures m Q'.
Proof. intros H HQ s a s' Hm. apply HQ. by eapply H. Qed.

Lemma ensures_mkdtempSync W k :
  ensures (mkdtempSync W k) (λ d, ∃ fs, d = mkdtemp_name W k fs).
Proof.
  intros s d s'. unfold mkdtempSync, bind, get_files, write_node, bind, get_files.
  destruct (write_error W _ (files s)); [done|]. unfold ret.
  intros [= <- _]. by eexists.
Qed.

Lemma ensures_mkdirSync W base cs :
  ensures (mkdirSync W base cs) (λ d, d = foldl path_join base cs).
Proof.
  intros s d s'. unfold mkdirSync, bind, get_files.
  destruct (write_error W _ (files s)); [done|]. by intros [= <- _].
Qed.

Lemma ensures_findSmaliFile decodeDir className :
  decodeDir ≠ [] →
  ensures (findSmaliFile decodeDir className)
    (λ r, ∀ p, r = Some p → within decodeDir p = true).
Proof.
  intros Hd s r s'. unfold findSmaliFile.
  intros (listing & s1 & _ & H)%bind_Ok.
  apply bind_Ok in H as (fs & s2 & _ & H). unfold ret in H. injection H as <- _.
  intros p Hp%head_Some_elem_of%list_elem_of_filter.
  destruct Hp as [_ (d & -> & _)%list_elem_of_fmap].
  apply within_path_join; [by apply path_join_nonempty|by apply path_join_within].
Qed.

Section Frame.
Context (W : World) (T : Templates) (out : jsstr) (v : option node).
Context (Houtside : ∀ k fs, within (mkdtemp_name W k fs) out = false).

Abbreviation kept := (kept out v).

Lemma kept_insert (p : jsstr) (n : node) (fs : filesystem) :
  p ≠ out → kept fs → kept (<[p := n]> fs).
Proof. intros Hp H. unfold kept. by rewrite lookup_insert_ne. Qed.

Lemma kept_inside (d p : jsstr) (n : node) (fs : filesystem) :
  within d out = false → within d p = true → kept fs → kept (<[p := n]> fs).
Proof. intros Hd Hp. apply kept_insert. by eapply within_ne. Qed.

Lemma kept_place (d : jsstr) tree (fs : filesystem) :
  d ≠ [] → within d out = false → kept fs → kept (place d tree fs).
Proof. intros Hd Ho H. unfold kept. by rewrite place_lookup_outside. Qed.

Lemma kept_remove (d : jsstr) (fs : filesystem) :
  within d out = false → kept fs → kept (remove_tree d fs).
Proof. intros Ho H. unfold kept. by rewrite remove_tree_lookup, Ho. Qed.

Lemma kept_mkdirs (d : jsstr) cs (fs : filesystem) :
  d ≠ [] → within d out = false → kept fs → kept (mkdirs d cs fs).
Proof. intros Hd Ho H. unfold kept. by rewrite mkdirs_lookup_outside. Qed.

Lemma kept_leaves_file (d p : jsstr) o (fs : filesystem) :
  within d out = false → within d p = true → kept fs → kept (leaves_file p o fs).
Proof.
  intros Hd Hp H. unfold leaves_file. destruct (out_file o); [|done].
  by eapply kept_inside.
Qed.

Lemma kept_extracts apk (d : jsstr) sel o (fs : filesystem) :
  d ≠ [] → within d out = false → kept fs → kept (extracts apk d sel o fs).
Proof.
  intros Hd Ho H. unfold extracts.
  destruct (fs !! apk) as [[[]|]|]; try done. by apply kept_place.
Qed.

Lemma kept_zip_updates (t d archive : jsstr) o (fs : filesystem) :
  within t out = false → within t archive = true →
  kept fs → kept (zip_updates W d archive o fs).
Proof.
  intros Ht Ha H. unfold zip_updates.
  destruct (fs !! archive) as [[[]|]|]; try done. by eapply kept_inside.
Qed.

End Frame.

Ltac paths :=
  repeat first
    [ assumption
    | apply within_refl
    | apply path_join_within
    | apply within_path_join
    | apply path_join_nonempty
    | apply foldl_path_join_within
    | apply mkdtemp_name_nonempty
    | progress eauto using within_inside ].

Ltac keeps_step :=
  first
    [ apply preserves_ret
    | apply preserves_throw
    | apply preserves_onLog
    | apply preserves_get_files
    | apply preserves_existsSync
    | apply preserves_readFileSync
    | apply preserves_readdirSync
    | apply preserves_execWithLog; intros ? ?
    | apply preserves_execPromise; intros ? ?
    | apply preserves_writeFileSync; intros ? ?
    | apply preserves_copyFileSync; intros ? ?
    | apply preserves_write_node; intros ?
    | apply preserves_rmSync; intros ?
    | apply preserves_mkdirSync; intros ?
    | match goal with
      | |- preserves _ (if ?b then _ else _) => destruct b
      | |- preserves _ (match ?x with _ => _ end) => destruct x
      | |- preserves _ (let (_, _) := ?x in _) => destruct x
      | |- preserves _ (try_catch _ _) => apply preserves_try_catch; [|intros ?]
      | |- preserves _ (try_finally _ _) => apply preserves_try_finally
      | |- preserves _ (bind _ _) => apply preserves_bind'; [|intros ?]
      end ].

Ltac keeps := repeat keeps_step.

Section Job.
Context (W : World) (T : Templates) (out : jsstr) (v : option node).
Context (Houtside : ∀ k fs, within (mkdtemp_name W k fs) out = false).
Context (t : jsstr) (Ht : t ≠ []) (Hto : within t out = false).

Abbreviation P := (kept out v).

Lemma keeps_extractStage apk : preserves P (extractStage W apk).
Proof.
  unfold extractStage, getOriginalSignature, getCertHexUsingApkSig. keeps; done.
Qed.

Lemma keeps_analyzeApk apk : preserves P (analyzeApk W apk).
Proof. unfold analyzeApk. keeps; done. Qed.

Lemma keeps_injectCodeToSmali p signature pkgName m :
  within t p = true → preserves P (injectCodeToSmali W p signature pkgName m).
Proof.
  intros Hp. unfold injectCodeToSmali. keeps; by eapply kept_inside.
Qed.

Lemma keeps_readManifest p :
  within t p = true → preserves P (readManifest W p).
Proof.
  intros Hp. unfold readManifest. keeps; try done; by eapply kept_inside.
Qed.

Lemma keeps_mkdtempSync k : preserves P (mkdtempSync W k).
Proof.
  unfold mkdtempSync. keeps. eapply kept_inside; [apply Houtside|apply within_refl].
Qed.

(** A directory the job makes for itself does not hold the output path. *)
Lemma mkdtempSync_outside k :
  ensures (mkdtempSync W k) (λ d, d ≠ [] ∧ within d out = false).
Proof.
  eapply ensures_weaken; [apply ensures_mkdtempSync|].
  intros d [fs ->]. split; [apply mkdtemp_name_nonempty|apply Houtside].
Qed.

Lemma keeps_mkdirSync d cs :
  within t d = true → d ≠ [] → preserves P (mkdirSync W d cs).
Proof.
  intros Hd Hne. keeps. apply kept_mkdirs; [done|by eapply within_inside].
Qed.

Lemma keeps_writeHelpers d :
  within t d = true → d ≠ [] → preserves P (writeHelpers W T d).
Proof.
  intros Hd Hne. unfold writeHelpers.
  apply preserves_bind'; [keeps|intros listing].
  apply preserves_bind'; [keeps|intros smaliExists].
  eapply preserves_bind; [by apply keeps_mkdirSync|apply ensures_mkdirSync|].
  intros targetDir ->.
  assert (within t (foldl path_join d
                      [nextSmaliDir listing smaliExists; lit "com"; lit "verify";
                       lit "signature"]) = true) as Hin.
  { eapply within_trans; [done|]. by apply foldl_path_join_within. }
  assert (foldl path_join d
            [nextSmaliDir listing smaliExists; lit "com"; lit "verify";
             lit "signature"] ≠ []) as Hne'.
  { cbn [foldl]. paths. }
  keeps; (eapply kept_inside; [done|]); by apply within_path_join.
Qed.

Lemma keeps_createMyApplication d signature pkgName :
  within t d = true → d ≠ [] →
  preserves P (createMyApplication W T d signature pkgName).
Proof.
  intros Hd Hne. unfold createMyApplication.
  eapply preserves_bind; [by apply keeps_mkdirSync|apply ensures_mkdirSync|].
  intros targetDir ->. keeps. eapply kept_inside; [done|].
  apply within_path_join; [cbn [foldl]; paths|].
  eapply within_trans; [done|]. by apply foldl_path_join_within.
Qed.

Lemma keeps_editBinaryManifest apk : preserves P (editBinaryManifest W apk).
Proof.
  unfold editBinaryManifest.
  apply preserves_bind'; [keeps|intros _].
  apply preserves_bind'; [keeps|intros present].
  destruct present; [|keeps].
  apply preserves_try_catch; [|intros e; keeps].
  eapply preserves_bind; [apply keeps_mkdtempSync|apply mkdtempSync_outside|].
  intros d [Hd Hdo].
  keeps; try done.
  - unfold redirected. eapply kept_inside; [exact Hdo|]. by apply path_join_within.
  - eapply kept_leaves_file; [exact Hdo|]. by apply path_join_within.
Qed.

Lemma keeps_editTextManifest p content isBinary :
  within t p = true → preserves P (editTextManifest W p content isBinary).
Proof.
  intros Hp. unfold editTextManifest. keeps; try done. by eapply kept_inside.
Qed.

Lemma keeps_injectLaunchActivity d signature pkgName content :
  within t d = true → d ≠ [] →
  preserves P (injectLaunchActivity W d signature pkgName content).
Proof.
  intros Hd Hne. unfold injectLaunchActivity.
  apply preserves_bind'; [keeps|intros _].
  destruct (findLaunchActivity content) as [launch|]; [|keeps].
  eapply preserves_bind;
    [unfold findSmaliFile; keeps|by apply ensures_findSmaliFile|].
  intros [p|] Hp; [|keeps].
  apply preserves_try_catch; [|intros e; keeps].
  apply preserves_bind'; [|intros _; keeps].
  apply keeps_injectCodeToSmali. eapply within_trans; [done|by apply Hp].
Qed.

Lemma keeps_injectHookCode d signature packageName apk :
  within t d = true → d ≠ [] →
  preserves P (injectHookCode W T d signature packageName apk).
Proof.
  intros Hd Hne. unfold injectHookCode.
  apply preserves_bind'; [apply keeps_readManifest; by apply within_path_join|].
  intros [content isBinary].
  apply preserves_bind'; [keeps|intros pkgName].
  destruct (extractApplicationName content) as [appClass|].
  - apply preserves_bind'; [keeps|intros _].
    eapply preserves_bind;
      [unfold findSmaliFile; keeps|by apply ensures_findSmaliFile|].
    intros [p|] Hp; [|keeps].
    apply preserves_bind'; [|intros _].
    { apply keeps_injectCodeToSmali. eapply within_trans; [done|by apply Hp]. }
    apply preserves_bind'; [by apply keeps_writeHelpers|intros _; keeps].
  - apply preserves_bind'; [keeps|intros _].
    apply preserves_bind'; [apply keeps_editBinaryManifest|intros edited].
    apply preserves_bind'.
    { destruct edited; [keeps|].
      apply keeps_editTextManifest. by apply within_path_join. }
    intros textual. destruct (_ || _).
    + apply preserves_bind'; [by apply keeps_createMyApplication|intros _].
      apply preserves_bind'; [keeps|intros _].
      apply preserves_bind'; [by apply keeps_writeHelpers|intros _; keeps].
    + apply preserves_bind'; [by apply keeps_injectLaunchActivity|intros done_].
      keeps.
Qed.

Lemma keeps_mergeDex original newApk merged updateManifest binaryManifestPath :
  within t merged = true →
  preserves P (mergeDexIntoOriginalApk W original newApk merged updateManifest
                 binaryManifestPath).
Proof.
  intros Hm. unfold mergeDexIntoOriginalApk.
  apply preserves_bind'; [keeps; by eapply kept_inside|intros _].
  eapply preserves_bind; [apply keeps_mkdtempSync|apply mkdtempSync_outside|].
  intros d [Hd Hdo].
  keeps; try done.
  all: try (by apply kept_extracts).
  all: try (by apply kept_remove).
  all: try (by apply (kept_zip_updates W out v t)).
  all: try (eapply kept_inside; [exact Hdo|]; by apply path_join_within).
Qed.

End Job.

(** Where the signer writes: beside the aligned package, in the working
    directory, as long as the name of that directory has no [.apk] in it. *)
Lemma signed_name_aligned t :
  t ≠ [] → Js.indexOf (lit ".apk") t = None →
  signed_name (path_join t (lit "aligned.apk"))
  = path_join t (lit "aligned_signed.apk").
Proof.
  intros Ht Hnone.
  assert (path_join t (lit "aligned.apk") = t ++ lit "/aligned.apk") as ->
    by (unfold path_join; by destruct t).
  assert (path_join t (lit "aligned_signed.apk") = t ++ lit "/aligned_signed.apk")
    as -> by (unfold path_join; by destruct t).
  unfold Js.indexOf in Hnone.
  destruct (Js.search (Js.at_prefix (lit ".apk")) t) as [?|] eqn:Es; [done|].
  pose proof (search_None _ _ Es) as Hno.
  assert (Js.indexOf (lit ".apk") (t ++ lit "/aligned.apk")
          = Some (length t + 8)%nat) as Hat.
  { unfold Js.indexOf. erewrite search_first; [reflexivity| | |].
    - rewrite drop_app_add'; [reflexivity|done].
    - rewrite length_app. change (length (lit "/aligned.apk")) with 12%nat. lia.
    - intros k Hk. destruct (decide (k < length t)%nat) as [Hlt|Hge].
      + rewrite drop_app_le by lia. specialize (Hno k).
        assert (drop k t ≠ []) as Hne.
        { intros E%(f_equal length). rewrite length_drop in E. simpl in E. lia. }
        revert Hno Hne. generalize (drop k t). intros y Hy Hne.
        unfold Js.at_prefix in *.
        change (lit ".apk") with [46; 97; 112; 107] in *.
        change (lit "/aligned.apk") with (47 :: lit "aligned.apk").
        destruct y as [|c0 [|c1 [|c2 [|c3 y]]]]; [done|..];
          cbn [Js.startsWith app] in *;
          repeat match goal with
                 | |- context [?a =? ?b] =>
                     destruct (N.eqb_spec a b); try discriminate; cbn [andb] in *
                 end; try done.
      + replace k with (length t + (k - length t))%nat by lia.
        rewrite drop_app_add' by done.
        assert (k - length t < 8)%nat as Hsmall by lia.
        revert Hsmall. generalize (k - length t)%nat. intros j Hj.
        do 8 (destruct j as [|j]; [reflexivity|]). lia. }
  unfold signed_name, replace_string. rewrite Hat.
  replace (length t + 8 + length (lit ".apk"))%nat with (length t + 12)%nat
    by (change (length (lit ".apk")) with 4%nat; lia).
  rewrite (take_app_add' t _ (length t) 8), (drop_app_add' t _ (length t) 12) by done.
  rewrite <- app_assoc. f_equal.
Qed.

Section Signing.
Context (W : World) (out : jsstr) (v : option node).
Context (t : jsstr) (Ht : t ≠ []) (Hto : within t out = false).
Context (Hplain : Js.indexOf (lit ".apk") t = None).

Lemma keeps_resignApk keystore sp kp al :
  preserves (kept out v)
    (resignApk W {| apkPath := path_join t (lit "aligned.apk");
                    keystorePath := keystore; storePass := sp; keyPass := kp;
                    alias := al |}).
Proof.
  unfold resignApk. cbn [apkPath keystorePath storePass keyPass alias].
  rewrite signed_name_aligned by done.
  assert (within t (path_join t (lit "aligned_signed.apk")) = true) as Hin
    by (by apply path_join_within).
  keeps; try done.
  all: try (by eapply kept_leaves_file).
  all: try (by eapply kept_inside).
Qed.

End Signing.

Lemma finishes_bind {A} P Good (m : M A) (k : A → M SignResult) :
  preserves P m → (∀ a, finishes P Good (k a)) → finishes P Good (bind m k).
Proof.
  intros Hm Hk s Hs. unfold bind. specialize (Hm s Hs).
  destruct (m s) as [[a|e] s1]; [|done]. by apply Hk.
Qed.

Lemma finishes_throw P Good e : finishes P Good (throw e).
Proof. by intros s. Qed.

Lemma cleanup_runs t s :
  ∃ fs', cleanup_of t s = (Ok (), {| files := fs'; logs := logs s |})
         ∧ (fs' = files s ∨ fs' = remove_tree t (files s)).
Proof.
  unfold cleanup_of, bind, existsSync, bind, get_files, ret, rmSync, set_files.
  destruct s as [fs lg]. cbn [files logs].
  destruct (match t with [] => false | _ :: _ => bool_decide (is_Some (fs !! t)) end);
    eexists; (split; [reflexivity|]); by auto.
Qed.

(** C6: a job that can create its working directory returns a result,
    and the result is whole.  Either it reports success with the output
    path, and the artifact is there; or it reports failure with the text
    of the error and no output path, and the output path holds what it
    held before the job (nothing, when there was nothing).  The working
    directories are those [mkdtempSync] makes: none of them contains the
    output path, and the name of the job's own has no [.apk] in it. *)
Theorem job_is_all_or_nothing W T args s :
  let out := hooked_name (apkPath args) in
  (∀ k fs, within (mkdtemp_name W k fs) out = false) →
  (∀ fs, Js.indexOf (lit ".apk") (mkdtemp_name W ApkInject fs) = None) →
  write_error W (mkdtemp_name W ApkInject (files s)) (files s) = None →
  ∃ r s',
    injectAndResignApk W T args s = (Ok r, s')
    ∧ ((success r = true ∧ outputPath r = Some out
        ∧ ∃ d, files s' !! out = Some (File d))
       ∨ (success r = false ∧ outputPath r = None
          ∧ (∃ e, message r = msg_process_failed ++ e)
          ∧ files s' !! out = files s !! out)).
Proof.
  intros out Houtside Hplain Hwrite.
  set (t := mkdtemp_name W ApkInject (files s)) in *.
  assert (t ≠ []) as Ht by apply mkdtemp_name_nonempty.
  assert (within t out = false) as Hto by apply Houtside.
  set (v := files s !! out).
  unfold injectAndResignApk, bind at 1, mkdtempSync, bind at 1, get_files,
    bind at 1, write_node, bind at 1, get_files.
  cbn [files]. fold t. rewrite Hwrite. unfold set_files, ret. cbn [files logs].
  set (s0 := {| files := <[t := Dir]> (files s); logs := logs s |}).
  assert (kept out v (files s0)) as H0.
  { eapply kept_inside; [exact Hto|apply within_refl|done]. }
  match goal with
  | |- ∃ r s', try_finally (try_catch ?body ?handler) ?cleanup s0 = _ ∧ _ =>
      assert (finishes (kept out v) (delivered out) body) as Hbody
  end.
  { apply finishes_bind; [apply keeps_extractStage|intros signature].
    apply finishes_bind; [apply keeps_analyzeApk|intros name].
    apply finishes_bind; [keeps|intros packageName].
    apply finishes_bind; [keeps|intros _].
    apply finishes_bind; [|intros _].
    { keeps. unfold leaves_tree. apply kept_place; [paths|].
      eapply within_inside; [|exact Hto]. paths. }
    apply finishes_bind; [keeps|intros _].
    apply finishes_bind; [|intros injected].
    { apply (keeps_injectHookCode W T out v Houtside t); paths. }
    apply finishes_bind; [keeps|intros _].
    apply finishes_bind; [|intros _].
    { keeps. eapply kept_leaves_file; [exact Hto|paths]. }
    apply finishes_bind; [keeps|intros _].
    apply finishes_bind; [|intros _].
    { apply (keeps_mergeDex W out v Houtside t); paths. }
    apply finishes_bind; [keeps|intros _].
    apply finishes_bind; [keeps|intros hasZipalign].
    apply finishes_bind; [|intros _].
    { destruct hasZipalign; keeps.
      - eapply kept_leaves_file; [exact Hto|paths].
      - eapply kept_inside; [exact Hto|paths]. }
    apply finishes_bind; [keeps|intros _].
    apply finishes_bind; [|intros signResult].
    { apply (keeps_resignApk W out v t); [done|done|apply Hplain]. }
    destruct (negb (success signResult)); [apply finishes_throw|].
    apply finishes_bind; [keeps|intros made].
    destruct made; [|apply finishes_throw].
    intros s1 H1. unfold bind, copyFileSync, bind, get_files.
    destruct (files s1 !! _) as [[d|]|]; try done.
    unfold write_node, bind, get_files.
    destruct (write_error W _ (files s1)); [done|].
    unfold set_files, ret. cbn [files].
    split; [done|]. split; [done|]. exists d. apply lookup_insert_eq. }
  unfold try_finally, try_catch. specialize (Hbody s0 H0).
  match goal with
  | H : match ?body s0 with _ => _ end |- _ => destruct (body s0) as [[r|e] s1]
  end.
  - destruct (cleanup_runs t s1) as (fs' & -> & Hfs').
    exists r. eexists. split; [reflexivity|]. left.
    destruct Hbody as (Hs & Hp & d & Hd).
    split; [done|]. split; [done|]. exists d. cbn [files].
    destruct Hfs' as [->| ->]; [done|by rewrite remove_tree_lookup, Hto].
  - cbn beta. unfold bind, onLog. cbn [files logs].
    match goal with
    | |- context [cleanup_of t ?st] =>
        destruct (cleanup_runs t st) as (fs' & -> & Hfs')
    end.
    eexists _, _. split; [reflexivity|]. right.
    cbn [success outputPath message files].
    split; [done|]. split; [done|]. split; [by exists e|].
    destruct Hfs' as [->| ->]; [done|by rewrite remove_tree_lookup, Hto].
Qed.

Lemma job_witness :
  write_error Demo.plain_world
    (mkdtemp_name Demo.plain_world ApkInject (files (Demo.start Demo.all_jars)))
    (files (Demo.start Demo.all_jars)) = None
  ∧ ∃ r s',
      injectAndResignApk Demo.plain_world Demo.templates Demo.args
        (Demo.start Demo.all_jars) = (Ok r, s')
      ∧ ((success r = true
          ∧ outputPath r = Some (hooked_name (apkPath Demo.args))
          ∧ ∃ d, files s' !! hooked_name (apkPath Demo.args) = Some (File d))
         ∨ (success r = false ∧ outputPath r = None
            ∧ (∃ e, message r = msg_process_failed ++ e)
            ∧ files s' !! hooked_name (apkPath Demo.args)
              = files (Demo.start Demo.all_jars) !! hooked_name (apkPath Demo.args))).
Proof.
  split; [reflexivity|].
  apply (job_is_all_or_nothing Demo.plain_world Demo.templates Demo.args
           (Demo.start Demo.all_jars)).
  - intros k fs. destruct k; reflexivity.
  - intros fs. reflexivity.
  - reflexivity.
Defined.

(** C7, at its failing input: a package without Application class, on a
    machine where ManifestEditor is installed.  The job succeeds and
    removes its working directory and the scratch directory of the
    merge, but the directory it made for the manifest, with the two
    manifests in it, is still there when it returns. *)
Theorem manifest_edit_directory_is_left_behind :
  (∃ r, Demo.plain_job.1 = Ok r ∧ success r = true)
  ∧ files (Demo.start Demo.all_jars) !! lit "/tmp/manifest-edit-Ab3xYz" = None
  ∧ files Demo.plain_job.2 !! lit "/tmp/manifest-edit-Ab3xYz" = Some Dir
  ∧ is_Some (files Demo.plain_job.2
               !! lit "/tmp/manifest-edit-Ab3xYz/AndroidManifest.xml")
  ∧ is_Some (files Demo.plain_job.2
               !! lit "/tmp/manifest-edit-Ab3xYz/AndroidManifest_mod.xml")
  ∧ files Demo.plain_job.2 !! lit "/tmp/apk-inject-Ab3xYz" = None
  ∧ files Demo.plain_job.2 !! lit "/tmp/dex-merge-Ab3xYz" = None.
Proof.
  split; [eexists; split; vm_compute; reflexivity|].
  repeat split; try (vm_compute; reflexivity); vm_compute; eexists; reflexivity.
Qed.

(** ** InjectionPlanner: the order of the strategies *)

Lemma bind_run {A B} (m : M A) (k : A → M B) s a s1 :
  m s = (Ok a, s1) → bind m k s = k a s1.
Proof. intros H. unfold bind. by rewrite H. Qed.

(** C1, amended: the plan follows the manifest analysis in a fixed order,
    and only the last two strategies cascade.  With an Application
    class declared the ApplicationHook is the only strategy: a result is
    an ApplicationHook, and when the class file is not found the
    operation fails at once.  With none declared, the binary manifest
    patch makes a ManifestSynthesis; failing that, the textual patch
    makes one; failing both, the launch Activity gets the static
    initializer (ActivityFallback); failing that too, the operation
    fails with the injection-impossible error. *)
Theorem injection_plan W T decodeDir signature packageName apk s content
    isBinary s1 pkgName :
  let manifestPath := path_join decodeDir manifest_name in
  let outcome := injectHookCode W T decodeDir signature packageName apk s in
  readManifest W manifestPath s = (Ok (content, isBinary), s1) →
  (packageName ≠ [] ∧ pkgName = packageName)
  ∨ (packageName = []
     ∧ ∃ i, Js.search (match_attribute (lit "package")) content = Some (i, pkgName)) →
  match extractApplicationName content with
  | Some appClass =>
      let fullClassName := normalizeClassName appClass pkgName in
      (∀ r s', outcome = (Ok r, s') → plan r = ApplicationHook)
      ∧ (∀ s2, findSmaliFile decodeDir fullClassName
                 (onLog (LogTargetApplication appClass) s1).2 = (Ok None, s2) →
               outcome = (Throw (msg_no_class_file ++ fullClassName), s2))
  | None =>
      ∀ edited s2,
        editBinaryManifest W apk (onLog LogNoApplication s1).2 = (Ok edited, s2) →
        match edited with
        | Some p =>
            ∀ r s', outcome = (Ok r, s') →
                    plan r = ManifestSynthesis true ∧ binaryManifestPath r = Some p
        | None =>
            ∀ textual s3,
              editTextManifest W manifestPath content isBinary s2
                = (Ok textual, s3) →
              if textual then
                ∀ r s', outcome = (Ok r, s') → plan r = ManifestSynthesis false
              else
                ∀ fallback s4,
                  injectLaunchActivity W decodeDir signature pkgName content s3
                    = (Ok fallback, s4) →
                  if fallback then
                    outcome = (Ok {| plan := ActivityFallback;
                                     manifestModified := false;
                                     binaryManifestPath := None |}, s4)
                  else outcome = (Throw msg_injection_impossible, s4)
        end
  end.
Proof.
  intros manifestPath outcome Hread Hpkg.
  assert (outcome
          = (match extractApplicationName content with
             | Some appClass =>
                 run onLog (LogTargetApplication appClass);
                 do smaliPath <- findSmaliFile decodeDir
                                   (normalizeClassName appClass pkgName);
                 match smaliPath with
                 | Some p =>
                     run injectCodeToSmali W p signature pkgName AttachBaseContext;
                     run writeHelpers W T decodeDir;
                     ret {| plan := ApplicationHook; manifestModified := false;
                            binaryManifestPath := None |}
                 | None =>
                     throw (msg_no_class_file ++ normalizeClassName appClass pkgName)
                 end
             | None =>
                 run onLog LogNoApplication;
                 do edited <- editBinaryManifest W apk;
                 do textual <-
                   match edited with
                   | Some _ => ret false
                   | None => editTextManifest W manifestPath content isBinary
                   end;
                 if bool_decide (is_Some edited) || textual then
                   run createMyApplication W T decodeDir signature pkgName;
                   run onLog LogMyApplicationWritten;
                   run writeHelpers W T decodeDir;
                   ret {| plan := ManifestSynthesis (bool_decide (is_Some edited));
                          manifestModified := true; binaryManifestPath := edited |}
                 else
                   do done_ <- injectLaunchActivity W decodeDir signature pkgName
                                 content;
                   if done_ then
                     ret {| plan := ActivityFallback; manifestModified := false;
                            binaryManifestPath := None |}
                   else throw msg_injection_impossible
             end) s1) as Hout.
  { unfold outcome, injectHookCode. fold manifestPath.
    rewrite (bind_run _ _ _ _ _ Hread).
    destruct Hpkg as [[Hne ->]|[-> [i Hi]]].
    - destruct packageName; [done|]. reflexivity.
    - rewrite Hi. reflexivity. }
  clearbody outcome. subst manifestPath.
  destruct (extractApplicationName content) as [appClass|].
  - cbn zeta. split.
    + intros r s'. rewrite Hout. generalize s1 r s'.
      match goal with
      | |- ∀ s r s', ?m s = _ → _ => change (ensures m (λ r, plan r = ApplicationHook))
      end.
      ensures_steps; done.
    + intros s2 Hfind. rewrite Hout. unfold bind at 1.
      change (onLog (LogTargetApplication appClass) s1)
        with (Ok (), (onLog (LogTargetApplication appClass) s1).2).
      cbn iota. by rewrite (bind_run _ _ _ _ _ Hfind).
  - intros edited s2 Hedit. unfold bind at 1 in Hout.
    change (onLog LogNoApplication s1)
      with (Ok (), (onLog LogNoApplication s1).2) in Hout.
    cbn iota in Hout. rewrite (bind_run _ _ _ _ _ Hedit) in Hout.
    destruct edited as [p|].
    + intros r s'. rewrite Hout. unfold bind at 1, ret at 1.
      rewrite bool_decide_eq_true_2 by done. cbn [orb]. generalize s2 r s'.
      match goal with
      | |- ∀ s r s', ?m s = _ → _ =>
          change (ensures m (λ r, plan r = ManifestSynthesis true
                                  ∧ binaryManifestPath r = Some p))
      end.
      ensures_steps; done.
    + intros textual s3 Htext.
      rewrite (bind_run _ _ _ _ _ Htext) in Hout.
      rewrite bool_decide_eq_false_2 in Hout by (by intros [? ?]).
      cbn [orb] in Hout.
      destruct textual.
      * intros r s'. rewrite Hout. generalize s3 r s'.
        match goal with
        | |- ∀ s r s', ?m s = _ → _ =>
            change (ensures m (λ r, plan r = ManifestSynthesis false))
        end.
        ensures_steps; done.
      * intros fallback s4 Hfb. rewrite (bind_run _ _ _ _ _ Hfb) in Hout.
        by destruct fallback.
Qed.

(** C1 as stated fails where the declared Application class has no smali
    file in the decoded tree: the operation fails there and then,
    although the manifest could be patched (the same package without the
    declaration gets a ManifestSynthesis) and a launch Activity is
    there for the fallback. *)
Lemma application_hook_does_not_cascade :
  extractApplicationName Demo.manifest_app = Some (lit ".App")
  ∧ Demo.missing_class.1
    = Throw (msg_no_class_file ++ lit "com.example.demo.App")
  ∧ findLaunchActivity Demo.manifest_app = Some (lit ".MainActivity")
  ∧ ∃ r, Demo.synthesis.1 = Ok r ∧ plan r = ManifestSynthesis true.
Proof.
  split; [reflexivity|]. split; [vm_compute; reflexivity|].
  split; [reflexivity|]. eexists. split; vm_compute; reflexivity.
Qed.

Lemma injection_plan_witness :
  readManifest Demo.plain_world (path_join (lit "/work/decoded") manifest_name)
    (Demo.decoded_state Demo.manifest_plain [(lit "MainActivity", Demo.activity_smali)])
  = (Ok (Demo.manifest_plain, false),
     Demo.decoded_state Demo.manifest_plain [(lit "MainActivity", Demo.activity_smali)])
  ∧ ∃ r s', Demo.synthesis = (Ok r, s')
            ∧ plan r = ManifestSynthesis true
            ∧ binaryManifestPath r
              = Some (lit "/tmp/manifest-edit-Ab3xYz/AndroidManifest_mod.xml").
Proof.
  assert (readManifest Demo.plain_world (path_join (lit "/work/decoded") manifest_name)
            (Demo.decoded_state Demo.manifest_plain
               [(lit "MainActivity", Demo.activity_smali)])
          = (Ok (Demo.manifest_plain, false),
             Demo.decoded_state Demo.manifest_plain
               [(lit "MainActivity", Demo.activity_smali)])) as Hread
    by (vm_compute; reflexivity).
  split; [exact Hread|].
  pose proof (injection_plan Demo.plain_world Demo.templates (lit "/work/decoded")
                (lit "3082abcd") [] (lit "/data/app.apk") _ _ _ _
                (lit "com.example.demo") Hread) as Hplan.
  cbn zeta in Hplan.
  assert (extractApplicationName Demo.manifest_plain = None) as Hnone by reflexivity.
  rewrite Hnone in Hplan.
  specialize (Hplan ltac:(right; split; [reflexivity|eexists; vm_compute; reflexivity])).
  specialize (Hplan (Some (lit "/tmp/manifest-edit-Ab3xYz/AndroidManifest_mod.xml")) _
                ltac:(vm_compute; reflexivity)).
  cbn iota in Hplan.
  fold Demo.synthesis in Hplan.
  destruct Demo.synthesis as [[r|e] s'] eqn:E.
  - exists r, s'. split; [reflexivity|]. by apply (Hplan r s').
  - vm_compute in E. discriminate E.
Defined.

(** The theorem on the Application class of the demo package: its
    [attachBaseContext] declares one register and is raised to two. *)
Lemma patched_method_witness :
  ∃ content' i n j ws digits',
    inject (lit "3082abcd") (lit "com.example.demo") AttachBaseContext
      Demo.application_smali = Patched content'
    ∧ Js.search (match_header AttachBaseContext) Demo.application_smali = Some (i, n)
    ∧ Js.search match_locals
        (raise_locals AttachBaseContext (take n (drop i Demo.application_smali)))
      = Some (j, (ws, digits'))
    ∧ parse_decimal digits' = 2
    ∧ content'
      = take i Demo.application_smali
        ++ raise_locals AttachBaseContext (take n (drop i Demo.application_smali))
        ++ [10]
        ++ hookCall (lit "3082abcd") (lit "com.example.demo") AttachBaseContext
        ++ drop (i + n) Demo.application_smali.
Proof.
  pose proof (injected_method_declares_enough_locals (lit "3082abcd")
                (lit "com.example.demo") AttachBaseContext Demo.application_smali)
    as H.
  destruct (inject _ _ _ _) as [content'| |content'] eqn:E.
  - destruct H as (i & n & j & ws & digits & ws' & digits'
                   & H1 & H2 & H3 & _ & H5 & _ & _ & H8).
    exists content', i, n, j, ws', digits'.
    split; [reflexivity|]. split; [exact H1|]. split; [exact H3|].
    assert (i = 71 ∧ n = 77)%nat as [-> ->].
    { vm_compute in H1. by injection H1 as <- <-. }
    assert (digits = [49]) as ->.
    { vm_compute in H2. by injection H2 as _ _ <-. }
    split; [rewrite H5; reflexivity|].
    apply H8; reflexivity.
  - vm_compute in E. discriminate E.
  - vm_compute in E. discriminate E.
Defined.

(** The theorem on a reader that prints eight digits. *)
Lemma even_signature_witness :
  ∃ signature s',
    getOriginalSignature Demo.even_reader (lit "/data/app.apk")
      (Demo.start Demo.all_jars) = (Ok signature, s')
    ∧ lower_hex signature ∧ Nat.Even (length signature).
Proof.
  destruct (signature_is_lower_hex Demo.even_reader (lit "/data/app.apk")
              (Demo.start Demo.all_jars))
    as (signature & s' & Hrun & Hhex & _ & Heven).
  exists signature, s'. split; [exact Hrun|]. split; [exact Hhex|].
  apply Heven. exists 4%nat. reflexivity.
Defined.

(** * Further properties of the code

    What follows covers code that the claims above leave out. *)

(** ** Computations that always return *)

Lemma never_throws_ret {A} (a : A) : never_throws (ret a).
Proof. intros s. by exists a, s. Qed.

Lemma never_throws_onLog e : never_throws (onLog e).
Proof. intros s. by eexists _, _. Qed.

Lemma never_throws_bind {A B} (m : M A) (k : A → M B) :
  never_throws m → (∀ a, never_throws (k a)) → never_throws (bind m k).
Proof.
  intros Hm Hk s. destruct (Hm s) as (a & s1 & E). unfold bind. rewrite E. apply Hk.
Qed.

Lemma never_throws_try_catch {A} (m : M A) h :
  (∀ e, never_throws (h e)) → never_throws (try_catch m h).
Proof.
  intros Hh s. unfold try_catch. destruct (m s) as [[a|e] s1]; [by exists a, s1|apply Hh].
Qed.

Lemma never_throws_try_finally {A} (m : M A) cleanup :
  never_throws m → never_throws cleanup → never_throws (try_finally m cleanup).
Proof.
  intros Hm Hc s. unfold try_finally. destruct (Hm s) as (a & s1 & ->).
  destruct (Hc s1) as ([] & s2 & ->). by exists a, s2.
Qed.

Lemma never_throws_cleanup_of t : never_throws (cleanup_of t).
Proof. intros s. destruct (cleanup_runs t s) as (fs' & -> & _). by eexists _, _. Qed.

Lemma bind_throws {A B} (m : M A) (k : A → M B) s e s1 :
  m s = (Throw e, s1) → bind m k s = (Throw e, s1).
Proof. intros H. unfold bind. by rewrite H. Qed.

Lemma mkdtempSync_runs W k s :
  mkdtempSync W k s
  = match write_error W (mkdtemp_name W k (files s)) (files s) with
    | Some e => (Throw e, s)
    | None => (Ok (mkdtemp_name W k (files s)),
               {| files := <[mkdtemp_name W k (files s) := Dir]> (files s);
                  logs := logs s |})
    end.
Proof.
  unfold mkdtempSync, bind, get_files, write_node, bind, get_files, set_files, ret.
  by destruct (write_error W _ (files s)).
Qed.

(** X1: a job rejects only when its working directory cannot be made.
    [mkdtempSync] is called before the [try] block: when it throws, the
    error reaches the caller and nothing has been written or logged.
    Every other failure is caught and comes back as a result. *)
Theorem job_rejects_only_without_working_directory W T args s :
  match injectAndResignApk W T args s with
  | (Throw e, s') =>
      write_error W (mkdtemp_name W ApkInject (files s)) (files s) = Some e ∧ s' = s
  | (Ok _, _) =>
      write_error W (mkdtemp_name W ApkInject (files s)) (files s) = None
  end.
Proof.
  unfold injectAndResignApk.
  pose proof (mkdtempSync_runs W ApkInject s) as Hmk.
  destruct (write_error W _ (files s)) as [e|] eqn:Ew.
  - by rewrite (bind_throws _ _ _ _ _ Hmk).
  - rewrite (bind_run _ _ _ _ _ Hmk).
    match goal with
    | |- match ?m ?s1 with _ => _ end =>
        assert (never_throws m) as Hn
    end.
    { apply never_throws_try_finally; [|apply never_throws_cleanup_of].
      apply never_throws_try_catch. intros e.
      apply never_throws_bind; [apply never_throws_onLog|intros _].
      apply never_throws_ret. }
    match goal with
    | |- match ?m ?s1 with _ => _ end => destruct (Hn s1) as (r & s' & ->)
    end.
    done.
Qed.

Lemma existsSync_runs p s :
  existsSync p s
  = (Ok (match p with [] => false | _ => bool_decide (is_Some (files s !! p)) end), s).
Proof. reflexivity. Qed.

Lemma ensures_try_catch {A} (m : M A) h (Q : A → Prop) :
  ensures m Q → (∀ e, ensures (h e) Q) → ensures (try_catch m h) Q.
Proof.
  intros Hm Hh s a s'. unfold try_catch.
  destruct (m s) as [[b|e] s1] eqn:E.
  - intros [= <- <-]. by eapply Hm.
  - apply Hh.
Qed.

Lemma ensures_try_finally {A} (m : M A) cleanup (Q : A → Prop) :
  ensures m Q → ensures (try_finally m cleanup) Q.
Proof.
  intros Hm s a s'. unfold try_finally.
  destruct (m s) as [r s1] eqn:E. destruct (cleanup s1) as [[[]|e] s2]; [|done].
  intros [= -> _]. by eapply Hm.
Qed.

Lemma ensures_bind_post {A B} (m : M A) (k : A → M B) (P : A → Prop) (Q : B → Prop) :
  ensures m P → (∀ a, P a → ensures (k a) Q) → ensures (bind m k) Q.
Proof.
  intros Hm Hk s b s' Hb. apply bind_Ok in Hb as (a & s1 & Ha & Hb).
  eapply Hk; [by eapply Hm|done].
Qed.

Lemma never_throws_existsSync p : never_throws (existsSync p).
Proof. intros s. rewrite existsSync_runs. by eexists _, _. Qed.

Lemma readFileSync_runs W p s :
  readFileSync W p s
  = match files s !! p with
    | Some (File d) => (Ok (data_bytes W d), s)
    | Some Dir => (Throw eisdir, s)
    | None => (Throw (enoent p), s)
    end.
Proof.
  unfold readFileSync, bind, get_files, ret, throw.
  by destruct (files s !! p) as [[|]|].
Qed.

Lemma resignApk_frame W args p v :
  p ≠ signed_name (apkPath args) →
  preserves (λ fs : filesystem, fs !! p = v) (resignApk W args).
Proof.
  intros Hp. unfold resignApk.
  assert (∀ (fs : filesystem) n, fs !! p = v →
            <[signed_name (apkPath args) := n]> fs !! p = v) as Hins.
  { intros fs n H. by rewrite lookup_insert_ne. }
  assert (∀ o (fs : filesystem), fs !! p = v →
            leaves_file (signed_name (apkPath args)) o fs !! p = v) as Hleave.
  { intros o fs H. unfold leaves_file. destruct (out_file o); [by apply Hins|done]. }
  apply preserves_bind'; [apply preserves_existsSync|intros present].
  destruct (negb present); [apply preserves_ret|].
  apply preserves_try_catch.
  2: { intros e. apply preserves_bind'; [apply preserves_onLog|intros _; apply preserves_ret]. }
  apply preserves_bind'; [apply preserves_onLog|intros _].
  apply preserves_bind'; [apply preserves_existsSync|intros hasBat].
  apply preserves_bind'; [apply preserves_existsSync|intros hasJar].
  apply preserves_bind'.
  { destruct hasBat; [|destruct hasJar].
    - apply preserves_bind'; [by apply preserves_execWithLog|intros _; apply preserves_ret].
    - apply preserves_bind'; [by apply preserves_execWithLog|intros _; apply preserves_ret].
    - apply preserves_bind'; [apply preserves_onLog|intros _].
      apply preserves_bind'; [by apply preserves_copyFileSync|intros _].
      apply preserves_bind'; [by apply preserves_execWithLog|intros _; apply preserves_ret]. }
  intros _.
  apply preserves_bind'; [apply preserves_onLog|intros _].
  apply preserves_bind'; [apply preserves_existsSync|intros hasBat'].
  apply preserves_bind'; [apply preserves_existsSync|intros hasJar'].
  apply preserves_bind'.
  { destruct hasBat'; [|destruct hasJar'].
    - apply preserves_bind'; [by apply preserves_execWithLog|intros _; apply preserves_ret].
    - apply preserves_bind'; [by apply preserves_execWithLog|intros _; apply preserves_ret].
    - apply preserves_ret. }
  intros _. apply preserves_ret.
Qed.

Lemma resignApk_result W args :
  ensures (resignApk W args)
    (λ r, if success r
          then outputPath r = Some (signed_name (apkPath args)) ∧ message r = msg_sign_ok
          else outputPath r = None
               ∧ (message r = msg_apk_missing
                  ∨ ∃ e, message r = msg_sign_failed ++ e)).
Proof.
  unfold resignApk.
  apply ensures_bind; intros present.
  destruct (negb present); [apply ensures_ret; cbn; by auto|].
  apply ensures_try_catch.
  - ensures_steps; cbn; by auto.
  - intros e. ensures_steps. cbn. eauto.
Qed.

(** X2: [resignApk] never rejects.  It writes to no path but the
    one next to the input with [_signed.apk] in its name; a success
    carries that path, a failure carries none and the text of what went
    wrong; and when the input is missing it fails at once, before any
    tool is run or any line logged. *)
Theorem resignApk_reports_every_failure W args s :
  ∃ r s', resignApk W args s = (Ok r, s')
    ∧ (∀ p, p ≠ signed_name (apkPath args) → files s' !! p = files s !! p)
    ∧ (if success r
       then outputPath r = Some (signed_name (apkPath args)) ∧ message r = msg_sign_ok
       else outputPath r = None
            ∧ (message r = msg_apk_missing ∨ ∃ e, message r = msg_sign_failed ++ e))
    ∧ (files s !! apkPath args = None → 
       r = {| success := false; message := msg_apk_missing; outputPath := None |}
       ∧ s' = s).
Proof.
  assert (never_throws (resignApk W args)) as Hn.
  { unfold resignApk. apply never_throws_bind.
    { intros s0. rewrite existsSync_runs. by eexists _, _. }
    intros present. destruct (negb present); [apply never_throws_ret|].
    apply never_throws_try_catch. intros e.
    apply never_throws_bind; [apply never_throws_onLog|intros _; apply never_throws_ret]. }
  destruct (Hn s) as (r & s' & E). exists r, s'. split; [done|].
  split; [|split].
  - intros p Hp. pose proof (resignApk_frame W args p (files s !! p) Hp s eq_refl) as H.
    by rewrite E in H.
  - by apply (resignApk_result W args s r s').
  - intros Hnone. revert E. unfold resignApk.
    rewrite (bind_run _ _ _ _ _ (existsSync_runs _ _)).
    rewrite Hnone. 
    assert (bool_decide (is_Some (@None node)) = false) as ->.
    { apply bool_decide_eq_false. by intros [? ?]. }
    destruct (apkPath args); cbn; unfold ret; by intros [= <- <-].
Qed.

(** ** The names of the packages a job writes *)

Lemma replace_string_first pattern replacement s i :
  Js.indexOf pattern s = Some i → no_dollar replacement = true →
  replace_string pattern replacement s
  = take i s ++ replacement ++ drop (i + length pattern) s
  ∧ (i + length pattern ≤ length s)%nat.
Proof.
  intros Hi Hr. unfold replace_string. rewrite Hi.
  rewrite get_substitution_plain by done. split; [done|].
  unfold Js.indexOf in Hi.
  destruct (Js.search (Js.at_prefix pattern) s) as [[j u]|] eqn:E; [|done].
  injection Hi as ->. apply search_Some in E as (Hat & Hle & _).
  unfold Js.at_prefix in Hat. destruct (Js.startsWith pattern (drop i s)) eqn:Es; [|done].
  apply startsWith_prefix in Es as [t Ht].
  apply (f_equal length) in Ht. rewrite length_drop, length_app in Ht. lia.
Qed.

Lemma replace_string_same pattern replacement s :
  no_dollar replacement = true → length replacement ≠ length pattern →
  replace_string pattern replacement s = s ↔ Js.indexOf pattern s = None.
Proof.
  intros Hr Hlen. split.
  - destruct (Js.indexOf pattern s) as [i|] eqn:Hi; [|done].
    destruct (replace_string_first _ _ _ _ Hi Hr) as [-> Hle].
    intros H%(f_equal length). rewrite !length_app, length_take, length_drop in H. lia.
  - intros Hnone. unfold replace_string. by rewrite Hnone.
Qed.

(** X3: the output names come from [String.prototype.replace] with
    a string pattern, so the first [.apk] of the path is what gets
    replaced, wherever it stands; the name differs from the input then.
    A path without [.apk] is its own output name: the result is written
    over the input. *)
Theorem output_name_replaces_the_first_apk apk :
  match Js.indexOf (lit ".apk") apk with
  | Some i =>
      hooked_name apk = take i apk ++ lit "_hooked_signed.apk" ++ drop (i + 4) apk
      ∧ signed_name apk = take i apk ++ lit "_signed.apk" ++ drop (i + 4) apk
      ∧ hooked_name apk ≠ apk ∧ signed_name apk ≠ apk
  | None => hooked_name apk = apk ∧ signed_name apk = apk
  end.
Proof.
  destruct (Js.indexOf (lit ".apk") apk) as [i|] eqn:Hi.
  - destruct (replace_string_first (lit ".apk") (lit "_hooked_signed.apk") apk i Hi eq_refl)
      as [Hh _].
    destruct (replace_string_first (lit ".apk") (lit "_signed.apk") apk i Hi eq_refl)
      as [Hs _].
    repeat split; [exact Hh|exact Hs|..].
    + intros H. apply (replace_string_same (lit ".apk") (lit "_hooked_signed.apk")) in H;
        [congruence|done|done].
    + intros H. apply (replace_string_same (lit ".apk") (lit "_signed.apk")) in H;
        [congruence|done|done].
  - split; by apply replace_string_same.
Qed.

(** ** DexMerger: what the merge touches on the file system *)

Lemma extracts_lookup_outside apk (dir : jsstr) selected o (fs : filesystem) (p : jsstr) :
  dir ≠ [] → within dir p = false → extracts apk dir selected o fs !! p = fs !! p.
Proof.
  intros Hd Hp. unfold extracts.
  destruct (fs !! apk) as [[[|entries]|]|]; try done.
  by apply place_lookup_outside.
Qed.

Lemma zip_updates_lookup_ne W (dir archive : jsstr) o (fs : filesystem) (p : jsstr) :
  p ≠ archive → zip_updates W dir archive o fs !! p = fs !! p.
Proof.
  intros Hp. unfold zip_updates.
  destruct (fs !! archive) as [[[|entries]|]|]; try done.
  by rewrite lookup_insert_ne.
Qed.

Lemma merge_body_frame W (newApk outputApk : jsstr) (updateManifest : bool)
    (binaryManifestPath : option jsstr) (dir p : jsstr) (v : option node) :
  dir ≠ [] → within dir p = false → p ≠ outputApk →
  preserves (λ fs : filesystem, fs !! p = v)
    (do _ <- execWithLog W (UnzipExtract newApk (lit "classes*.dex") dir)
               (extracts newApk dir is_classes_dex);
     run (if updateManifest then
            do usable <- match binaryManifestPath with
                         | Some p => existsSync p
                         | None => ret false
                         end;
            match binaryManifestPath, usable with
            | Some p, true =>
                run onLog LogUseBinaryManifest;
                copyFileSync W p (path_join dir manifest_name)
            | _, _ =>
                run onLog LogUseBuiltManifest;
                do _ <- execWithLog W (UnzipExtract newApk manifest_name dir)
                          (extracts newApk dir (λ n, Js.eqb n manifest_name));
                ret ()
            end
          else ret ());
     do _ <- execWithLog W (ZipUpdate dir outputApk)
               (zip_updates W dir outputApk);
     ret ()).
Proof.
  intros Hd Hp Hout.
  assert (∀ sel o (fs : filesystem), fs !! p = v →
            extracts newApk dir sel o fs !! p = v) as Hex.
  { intros sel o fs H. by rewrite extracts_lookup_outside. }
  apply preserves_bind'; [apply preserves_execWithLog; intros o fs; apply Hex|intros _].
  apply preserves_bind'.
  { destruct updateManifest; [|apply preserves_ret].
    apply preserves_bind'.
    { destruct binaryManifestPath; [apply preserves_existsSync|apply preserves_ret]. }
    intros usable.
    assert (preserves (λ fs : filesystem, fs !! p = v)
              (run onLog LogUseBuiltManifest;
               do _ <- execWithLog W (UnzipExtract newApk manifest_name dir)
                         (extracts newApk dir (λ n, Js.eqb n manifest_name));
               ret ())) as Hbuilt.
    { apply preserves_bind'; [apply preserves_onLog|intros _].
      apply preserves_bind'; [apply preserves_execWithLog; intros o fs; apply Hex|intros _].
      apply preserves_ret. }
    destruct binaryManifestPath as [q|]; [destruct usable|]; try exact Hbuilt.
    apply preserves_bind'; [apply preserves_onLog|intros _].
    apply preserves_copyFileSync. intros fs n H. rewrite lookup_insert_ne; [done|].
    intros <-. by rewrite path_join_within in Hp. }
  intros _.
  apply preserves_bind'; [|intros _; apply preserves_ret].
  apply preserves_execWithLog. intros o fs H. by rewrite zip_updates_lookup_ne.
Qed.

(** X4: the merge changes nothing on the file system but the
    output path.  When it returns or throws, every other path holds what
    it held before; in particular nothing is left of the scratch
    directory.  [mkdtempSync] is taken to make a directory that was not
    there. *)
Theorem merge_touches_the_output_only W originalApk newApk outputApk updateManifest
    binaryManifestPath s :
  (∀ fs p, within (mkdtemp_name W DexMerge fs) p = true → fs !! p = None) →
  ∀ p, p ≠ outputApk →
    files (mergeDexIntoOriginalApk W originalApk newApk outputApk updateManifest
             binaryManifestPath s).2 !! p
    = files s !! p.
Proof.
  intros Hfresh p Hp. unfold mergeDexIntoOriginalApk.
  pose proof (preserves_copyFileSync W (λ fs : filesystem, fs !! p = files s !! p)
                originalApk outputApk) as Hcopy.
  specialize (Hcopy ltac:(intros fs n H; cbn beta in *; by rewrite lookup_insert_ne) s eq_refl).
  unfold bind at 1.
  destruct (copyFileSync W originalApk outputApk s) as [[[]|e] s1]; [|done].
  cbn [snd] in Hcopy.
  pose proof (mkdtempSync_runs W DexMerge s1) as Hmk.
  destruct (write_error W _ (files s1)) as [e|].
  { by rewrite (bind_throws _ _ _ _ _ Hmk). }
  rewrite (bind_run _ _ _ _ _ Hmk). clear Hmk.
  set (dir := mkdtemp_name W DexMerge (files s1)).
  assert (dir ≠ []) as Hdir by apply mkdtemp_name_nonempty.
  unfold try_finally.
  match goal with
  | |- context [let '(r, s') := ?body ?s2 in _] =>
      pose proof (λ H1 H2 v, merge_body_frame W newApk outputApk updateManifest
                    binaryManifestPath dir p v Hdir H1 H2 s2) as Hbody;
      destruct (body s2) as [r sB]
  end.
  unfold rmSync, set_files. cbn [fst snd files].
  rewrite remove_tree_lookup.
  destruct (within dir p) eqn:Hin.
  - rewrite <- Hcopy. symmetry. by apply Hfresh.
  - rewrite <- Hcopy. apply (Hbody eq_refl Hp). cbn [files].
    rewrite lookup_insert_ne; [done|]. intros <-. by rewrite within_refl in Hin.
Qed.


(** ** The reader of the legacy signature file *)

Lemma toString_hex_spec buffer :
  length (toString_hex buffer) = (2 * length buffer)%nat
  ∧ forallb is_lower_hex (toLowerCase (toString_hex buffer)) = true.
Proof.
  assert (∀ n, n < 16 → is_lower_hex (hex_digit n) = true
                        ∧ ((65 <=? hex_digit n) && (hex_digit n <=? 90)) = false) as Hd.
  { intros n Hn. unfold hex_digit, is_lower_hex, Js.is_digit.
    destruct (N.ltb_spec n 10).
    - split.
      + apply orb_true_iff. left. apply andb_true_iff. split; apply N.leb_le; lia.
      + apply andb_false_iff. left. apply N.leb_gt. lia.
    - split.
      + apply orb_true_iff. right. apply andb_true_iff. split; apply N.leb_le; lia.
      + apply andb_false_iff. right. apply N.leb_gt. lia. }
  induction buffer as [|b buffer [IH1 IH2]]; [done|].
  unfold toString_hex in *. cbn [mbind list_bind]. 
  change (mbind ?f (b :: buffer)) with (f b ++ mbind f buffer).
  split.
  - rewrite length_app, IH1. cbn [length]. lia.
  - unfold toLowerCase in *. rewrite fmap_app, forallb_app, IH2, andb_true_r.
    cbn [fmap list_fmap forallb].
    destruct (Hd ((b / 16) `mod` 16)) as [H1 ->]; [apply N.mod_lt; lia|].
    destruct (Hd (b `mod` 16)) as [H2 ->]; [apply N.mod_lt; lia|].
    by rewrite H1, H2.
Qed.

(** X5: the reader of the legacy signature file never throws, and
    what it returns has an even number of characters, all of them
    lowercase hexadecimal digits: the sentinel, or two digits for each
    byte of the certificate file. *)
Theorem legacy_reader_gives_even_lower_hex W apkPath s :
  ∃ signature s',
    getCertRsaHex W apkPath s = (Ok signature, s')
    ∧ Nat.Even (length signature)
    ∧ forallb is_lower_hex signature = true.
Proof.
  assert (never_throws (getCertRsaHex W apkPath)) as Hn.
  { unfold getCertRsaHex. apply never_throws_bind; [|intros found; apply never_throws_ret].
    apply never_throws_try_catch. intros _. apply never_throws_ret. }
  destruct (Hn s) as (signature & s' & E). exists signature, s'. split; [done|].
  revert E. generalize s signature s'.
  match goal with
  | |- ∀ s r s', ?m s = _ → _ =>
      change (ensures m (λ r, Nat.Even (length r) ∧ forallb is_lower_hex r = true))
  end.
  unfold getCertRsaHex.
  assert (Nat.Even (length sentinel) ∧ forallb is_lower_hex sentinel = true) as Hs.
  { split; [by exists 1%nat|done]. }
  apply (ensures_bind_post _ _ (λ found, ∀ x, found = Some x →
           Nat.Even (length x) ∧ forallb is_lower_hex x = true)).
  - apply ensures_try_catch; [|intros _; by apply ensures_ret].
    apply ensures_bind; intros tempDir. apply ensures_try_finally.
    apply ensures_bind; intros [out err].
    destruct (find_cert_file out); [|by apply ensures_ret].
    apply ensures_bind; intros _. apply ensures_bind; intros buffer.
    apply ensures_ret. intros x [= <-].
    destruct (toString_hex_spec buffer) as [Hlen Hlow]. split; [|done].
    unfold toLowerCase. rewrite length_fmap, Hlen. by exists (length buffer).
  - intros [x|] Hx; apply ensures_ret; cbn; [by apply Hx|done].
Qed.

Lemma cert_body_frame W (apkPath dir p : jsstr) (v : option node) :
  dir ≠ [] → within dir p = false →
  preserves (λ fs : filesystem, fs !! p = v)
    (do (out, _) <- execPromise W (UnzipList apkPath) no_effect;
     match find_cert_file out with
     | Some certFile =>
         let outputFile := path_join dir (lit "CERT") in
         do _ <- execPromise W (UnzipPipe apkPath certFile outputFile)
                   (redirected outputFile);
         do buffer <- readFileSync W outputFile;
         ret (Some (toLowerCase (toString_hex buffer)))
     | None => ret None
     end).
Proof.
  intros Hd Hp.
  apply preserves_bind'; [by apply preserves_execPromise|intros [out err]].
  destruct (find_cert_file out); [|apply preserves_ret].
  apply preserves_bind'.
  { apply preserves_execPromise. intros o fs H. unfold redirected.
    rewrite lookup_insert_ne; [done|]. intros <-. by rewrite path_join_within in Hp. }
  intros _. apply preserves_bind'; [apply preserves_readFileSync|intros buffer].
  apply preserves_ret.
Qed.

(** X6: the reader of the legacy signature file leaves the file
    system as it found it: the directory it extracts the certificate
    into is removed on every path.  [mkdtempSync] is taken to make a
    directory that was not there. *)
Theorem legacy_reader_leaves_no_trace W apkPath s :
  (∀ fs p, within (mkdtemp_name W ApkCert fs) p = true → fs !! p = None) →
  files (getCertRsaHex W apkPath s).2 = files s.
Proof.
  intros Hfresh. unfold getCertRsaHex.
  unfold bind at 1. unfold try_catch.
  pose proof (mkdtempSync_runs W ApkCert s) as Hmk.
  destruct (write_error W _ (files s)) as [e|].
  { by rewrite (bind_throws _ _ _ _ _ Hmk). }
  rewrite (bind_run _ _ _ _ _ Hmk). clear Hmk.
  set (dir := mkdtemp_name W ApkCert (files s)).
  assert (dir ≠ []) as Hdir by apply mkdtemp_name_nonempty.
  unfold try_finally.
  match goal with
  | |- context [let '(r, s') := ?body ?s2 in _] =>
      pose proof (λ p H1 v, cert_body_frame W apkPath dir p v Hdir H1 s2) as Hbody;
      destruct (body s2) as [r sB]
  end.
  unfold rmSync, set_files. cbn [fst snd files] in *.
  assert (remove_tree dir (files sB) = files s) as Hsame.
  { apply map_eq. intros p. rewrite remove_tree_lookup.
    destruct (within dir p) eqn:Hin.
    - symmetry. by apply Hfresh.
    - apply (Hbody p Hin). rewrite lookup_insert_ne; [done|].
      intros <-. by rewrite within_refl in Hin. }
  by destruct r.
Qed.

(** ** ResignOrchestrator: the working directory of a job *)

Section Present.
Context (W : World) (T : Templates) (t : jsstr).

Lemma still_there_insert (p : jsstr) (n : node) (fs : filesystem) :
  still_there t fs → still_there t (<[p := n]> fs).
Proof.
  unfold still_there. intros H. destruct (decide (p = t)) as [->|Hne].
  - by rewrite lookup_insert_eq.
  - by rewrite lookup_insert_ne.
Qed.

Lemma still_there_inserts {A} (f : A → jsstr) (g : A → node) (l : list A)
    (fs : filesystem) :
  still_there t fs → still_there t (foldr (λ x acc, <[f x := g x]> acc) fs l).
Proof. intros H. induction l as [|x l IH]; cbn [foldr]; [done|]. by apply still_there_insert. Qed.

Lemma still_there_place (d : jsstr) tree (fs : filesystem) :
  still_there t fs → still_there t (place d tree fs).
Proof. apply still_there_inserts. Qed.

Lemma still_there_mkdirs (d : jsstr) cs (fs : filesystem) :
  still_there t fs → still_there t (mkdirs d cs fs).
Proof.
  revert d fs. induction cs as [|c cs IH]; intros d fs H; cbn [mkdirs]; [done|].
  apply IH. destruct (fs !! path_join d c); [done|]. by apply still_there_insert.
Qed.

Lemma still_there_leaves_file (p : jsstr) o (fs : filesystem) :
  still_there t fs → still_there t (leaves_file p o fs).
Proof. intros H. unfold leaves_file. destruct (out_file o); [|done]. by apply still_there_insert. Qed.

Lemma still_there_leaves_tree (p : jsstr) o (fs : filesystem) :
  still_there t fs → still_there t (leaves_tree p o fs).
Proof. apply still_there_place. Qed.

Lemma still_there_redirected (p : jsstr) o (fs : filesystem) :
  still_there t fs → still_there t (redirected p o fs).
Proof. apply still_there_insert. Qed.

Lemma still_there_extracts apk (d : jsstr) sel o (fs : filesystem) :
  still_there t fs → still_there t (extracts apk d sel o fs).
Proof.
  intros H. unfold extracts. destruct (fs !! apk) as [[[]|]|]; try done.
  by apply still_there_place.
Qed.

Lemma still_there_zip_updates (d archive : jsstr) o (fs : filesystem) :
  still_there t fs → still_there t (zip_updates W d archive o fs).
Proof.
  intros H. unfold zip_updates. destruct (fs !! archive) as [[[]|]|]; try done.
  by apply still_there_insert.
Qed.

Lemma still_there_no_effect o (fs : filesystem) : still_there t fs → still_there t (no_effect o fs).
Proof. done. Qed.

End Present.

Ltac stays :=
  keeps;
  try first
    [ assumption
    | by apply still_there_no_effect
    | by apply still_there_insert
    | by apply still_there_place
    | by apply still_there_mkdirs
    | by apply still_there_leaves_file
    | by apply still_there_leaves_tree
    | by apply still_there_redirected
    | by apply still_there_extracts
    | by apply still_there_zip_updates ].

Lemma still_there_mergeDex W t original newApk merged updateManifest binaryManifestPath :
  (∀ fs p, within (mkdtemp_name W DexMerge fs) p = true → fs !! p = None) →
  preserves (still_there t)
    (mergeDexIntoOriginalApk W original newApk merged updateManifest binaryManifestPath).
Proof.
  intros Hfresh s Hs. unfold mergeDexIntoOriginalApk.
  pose proof (preserves_copyFileSync W (still_there t) original merged
                ltac:(intros fs n; apply still_there_insert) s Hs) as Hcopy.
  unfold bind at 1.
  destruct (copyFileSync W original merged s) as [[[]|e] s1]; [|done].
  cbn [snd] in Hcopy.
  pose proof (mkdtempSync_runs W DexMerge s1) as Hmk.
  destruct (write_error W _ (files s1)) as [e|].
  { by rewrite (bind_throws _ _ _ _ _ Hmk). }
  rewrite (bind_run _ _ _ _ _ Hmk). clear Hmk.
  set (dir := mkdtemp_name W DexMerge (files s1)).
  assert (within dir t = false) as Hout.
  { destruct (within dir t) eqn:E; [|done]. apply Hfresh in E.
    unfold still_there in Hcopy. rewrite E in Hcopy. by destruct Hcopy. }
  apply (preserves_try_finally (still_there t)).
  - stays.
  - apply preserves_rmSync. intros fs H. unfold still_there.
    by rewrite remove_tree_lookup, Hout.
  - cbn [files]. by apply still_there_insert.
Qed.

Lemma still_there_injectHookCode W T t d signature packageName apk :
  preserves (still_there t) (injectHookCode W T d signature packageName apk).
Proof.
  unfold injectHookCode, readManifest, findSmaliFile, injectCodeToSmali, writeHelpers,
    editBinaryManifest, editTextManifest, createMyApplication, injectLaunchActivity,
    findSmaliFile, injectCodeToSmali, mkdtempSync.
  stays.
Qed.

Lemma still_there_resignApk W t args : preserves (still_there t) (resignApk W args).
Proof. unfold resignApk. stays. Qed.

(** X7: when a job ends, with a result or with a rejection, nothing
    is left of its working directory [apk-inject-XXXXXX]: the directory
    is still there when the [finally] block looks for it, and is removed
    with all it holds.  [mkdtempSync] is taken to make directories that
    were not there. *)
Theorem job_removes_its_working_directory W T args s :
  (∀ k fs p, within (mkdtemp_name W k fs) p = true → fs !! p = None) →
  ∀ p, within (mkdtemp_name W ApkInject (files s)) p = true →
       files (injectAndResignApk W T args s).2 !! p = None.
Proof.
  intros Hfresh p Hp. unfold injectAndResignApk.
  pose proof (mkdtempSync_runs W ApkInject s) as Hmk.
  destruct (write_error W _ (files s)) as [e|].
  { rewrite (bind_throws _ _ _ _ _ Hmk). by apply (Hfresh ApkInject). }
  rewrite (bind_run _ _ _ _ _ Hmk). clear Hmk.
  set (t := mkdtemp_name W ApkInject (files s)) in *.
  unfold try_finally.
  match goal with
  | |- context [let '(r, s') := ?body ?s2 in _] =>
      assert (preserves (still_there t) body) as Hbody;
      [|specialize (Hbody s2); destruct (body s2) as [r sB]]
  end.
  { apply preserves_try_catch; [|intros e; stays].
    unfold extractStage, getOriginalSignature, getCertHexUsingApkSig, analyzeApk.
    stays. all: try apply still_there_injectHookCode. all: try apply still_there_resignApk.
    all: try (apply still_there_mergeDex, (Hfresh DexMerge)).
    }
  cbn [snd files] in Hbody.
  assert (still_there t (files sB)) as Hthere.
  { apply Hbody. unfold still_there. by rewrite lookup_insert_eq. }
  unfold cleanup_of. rewrite (bind_run _ _ _ _ _ (existsSync_runs _ _)).
  assert (t ≠ []) as Hne by apply mkdtemp_name_nonempty.
  destruct t as [|c t'] eqn:Et; [done|]. rewrite bool_decide_eq_true_2 by exact Hthere.
  unfold rmSync, set_files. cbn [snd files]. destruct r; cbn [snd files];
    by rewrite remove_tree_lookup, Hp.
Qed.

(** ** ManifestAnalyzer: the launch Activity *)

Lemma indexOf_Some needle hay i :
  Js.indexOf needle hay = Some i →
  ∃ post, hay = take i hay ++ needle ++ post ∧ drop i hay = needle ++ post
          ∧ (i ≤ length hay)%nat
          ∧ ∀ k, (k < i)%nat → Js.startsWith needle (drop k hay) = false.
Proof.
  unfold Js.indexOf. destruct (Js.search _ hay) as [[j u]|] eqn:E; [|done].
  intros [= ->]. apply search_Some in E as (Hat & Hle & Hbefore).
  unfold Js.at_prefix in Hat. destruct (Js.startsWith needle (drop i hay)) eqn:Es; [|done].
  apply startsWith_prefix in Es as [post Hpost]. exists post.
  repeat split; [|done|done|].
  - by rewrite <- Hpost, take_drop.
  - intros k Hk. specialize (Hbefore k Hk). unfold Js.at_prefix in Hbefore.
    by destruct (Js.startsWith needle (drop k hay)).
Qed.

Lemma includes_intro needle pre post :
  Js.includes needle (pre ++ needle ++ post) = true.
Proof.
  unfold Js.includes, Js.indexOf. apply bool_decide_eq_true.
  destruct (search_exists (Js.at_prefix needle) (pre ++ needle ++ post) (length pre) ())
    as (j & b & -> & _).
  - rewrite drop_app_length. unfold Js.at_prefix. by rewrite startsWith_app.
  - rewrite length_app. lia.
  - by eexists.
Qed.

Lemma includes_elim needle hay :
  Js.includes needle hay = true → ∃ pre post, hay = pre ++ needle ++ post.
Proof.
  unfold Js.includes. intros [i Hi]%bool_decide_eq_true.
  apply indexOf_Some in Hi as (post & H & _). by exists (take i hay), post.
Qed.

Lemma includes_infix needle part pre post :
  Js.includes needle part = true → Js.includes needle (pre ++ part ++ post) = true.
Proof.
  intros (a & b & ->)%includes_elim.
  replace (pre ++ (a ++ needle ++ b) ++ post) with ((pre ++ a) ++ needle ++ (b ++ post))
    by (by rewrite <- !app_assoc).
  apply includes_intro.
Qed.

Lemma split_on_infix fuel sep s part :
  part ∈ split_on fuel sep s → ∃ pre post, s = pre ++ part ++ post.
Proof.
  revert s. induction fuel as [|fuel IH]; intros s; cbn [split_on].
  - intros ->%list_elem_of_singleton. exists [], []. by rewrite app_nil_r.
  - destruct (Js.indexOf sep s) as [i|] eqn:Hi.
    + intros [->|Hin]%elem_of_cons.
      * exists [], (drop i s). by rewrite take_drop.
      * apply IH in Hin as (pre & post & Hrest).
        exists (take (i + length sep) s ++ pre), post.
        by rewrite <- app_assoc, <- Hrest, take_drop.
    + intros ->%list_elem_of_singleton. exists [], []. by rewrite app_nil_r.
Qed.

Lemma N_case_61 {A} (c : N) (a b : A) :
  match c with 61 => a | _ => b end = if c =? 61 then a else b.
Proof.
  destruct (N.eqb_spec c 61) as [->|H]; [done|].
  destruct c as [|p]; [done|].
  do 6 (destruct p as [p|p|]; try reflexivity). all: try reflexivity. congruence.
Qed.

Lemma match_attribute_name key s name :
  match_attribute key s = Some name →
  name ≠ [] ∧ forallb (λ c, negb (is_quote c)) name = true.
Proof.
  unfold match_attribute. destruct (Js.strip key s) as [s1|]; [|done]. cbn.
  destruct (Js.span Js.is_space s1).2 as [|c s2]; [done|].
  rewrite N_case_61. destruct (c =? 61); [|done].
  destruct (Js.span Js.is_space s2).2 as [|q s3]; [done|].
  destruct (is_quote q); [|done].
  pose proof (span_spec (λ c, negb (is_quote c)) s3) as (_ & Hall & _).
  destruct (Js.span _ s3) as [nm s4]. cbn [fst] in Hall.
  destruct nm as [|d nm]; [done|]. destruct s4; [done|]. by intros [= <-].
Qed.

Lemma match_attribute_infix key s name :
  match_attribute key s = Some name → ∃ pre post, s = pre ++ name ++ post.
Proof.
  unfold match_attribute. destruct (Js.strip key s) as [s1|] eqn:E1; [|done]. cbn.
  apply strip_Some in E1 as ->.
  pose proof (span_spec Js.is_space s1) as (Hs1 & _ & _).
  destruct (Js.span Js.is_space s1) as [w1 r1]. cbn [fst snd] in *. subst s1.
  destruct r1 as [|c s2]; [done|].
  rewrite N_case_61. destruct (c =? 61); [|done].
  pose proof (span_spec Js.is_space s2) as (Hs2 & _ & _).
  destruct (Js.span Js.is_space s2) as [w2 r2]. cbn [fst snd] in *. subst s2.
  destruct r2 as [|q s3]; [done|].
  destruct (is_quote q); [|done].
  pose proof (span_spec (λ c, negb (is_quote c)) s3) as (Hs3 & _ & _).
  destruct (Js.span _ s3) as [nm s4]. cbn [fst snd] in *. subst s3.
  destruct nm as [|d nm]; [done|]. destruct s4; [done|]. intros [= <-].
  exists (key ++ w1 ++ c :: w2 ++ [q]), (n :: s4).
  by rewrite <- !app_assoc; cbn; rewrite <- !app_assoc.
Qed.

Lemma first_launcher_Some parts name :
  first_launcher parts = Some name →
  ∃ part i, part ∈ parts
    ∧ Js.includes (lit "android.intent.action.MAIN") part = true
    ∧ Js.includes (lit "android.intent.category.LAUNCHER") part = true
    ∧ Js.search match_android_name part = Some (i, name).
Proof.
  induction parts as [|part rest IH]; cbn [first_launcher]; [done|].
  destruct (Js.includes (lit "android.intent.action.MAIN") part) eqn:E1;
    [destruct (Js.includes (lit "android.intent.category.LAUNCHER") part) eqn:E2|];
    cbn [andb].
  - destruct (Js.search match_android_name part) as [[i nm]|] eqn:Es.
    + intros [= ->]. exists part, i. repeat split; [left|assumption..].
    + intros (p & i & Hin & H)%IH. exists p, i. split; [right|]; assumption.
  - intros (p & i & Hin & H)%IH. exists p, i. split; [right|]; assumption.
  - intros (p & i & Hin & H)%IH. exists p, i. split; [right|]; assumption.
Qed.

(** X8: a launch Activity is reported only for a manifest that
    mentions both the MAIN action and the LAUNCHER category, and the
    name reported is a non-empty piece of the manifest without a quote
    character in it. *)
Theorem launch_activity_comes_from_a_launcher_part content name :
  findLaunchActivity content = Some name →
  Js.includes (lit "android.intent.action.MAIN") content = true
  ∧ Js.includes (lit "android.intent.category.LAUNCHER") content = true
  ∧ name ≠ [] ∧ forallb (λ c, negb (is_quote c)) name = true
  ∧ Js.includes name content = true.
Proof.
  unfold findLaunchActivity, split.
  intros (part & i & Hin & Hmain & Hlauncher & Hname)%first_launcher_Some.
  apply split_on_infix in Hin as (pre & post & ->).
  apply search_Some in Hname as (Hat & Hle & _).
  split; [apply includes_infix; assumption|]. split; [apply includes_infix; assumption|].
  pose proof (match_attribute_name _ _ _ Hat) as [Hne Hq].
  split; [assumption|]. split; [assumption|].
  apply includes_infix. 
  destruct (match_attribute_infix _ _ _ Hat) as (a & b & Hab).
  rewrite <- (take_drop i part), Hab.
  replace (take i part ++ a ++ name ++ b) with ((take i part ++ a) ++ name ++ b)
    by (by rewrite <- app_assoc).
  apply includes_intro.
Qed.

(** ** DexMerger: the partition of the helper classes is new *)

Lemma maxIndex_from_le acc dirs :
  acc ≤ foldl (λ mx d, match partition_index d with
                       | Some index => if mx <? index then index else mx
                       | None => mx
                       end) acc dirs.
Proof.
  revert acc. induction dirs as [|d dirs IH]; intros acc; cbn [foldl]; [lia|].
  etrans; [|apply IH]. destruct (partition_index d) as [n|]; [|lia].
  destruct (N.ltb_spec acc n); lia.
Qed.

Lemma maxIndex_from_ge acc dirs d n :
  d ∈ dirs → partition_index d = Some n →
  n ≤ foldl (λ mx d, match partition_index d with
                     | Some index => if mx <? index then index else mx
                     | None => mx
                     end) acc dirs.
Proof.
  revert acc. induction dirs as [|d' dirs IH]; intros acc Hin Hn; [by apply elem_of_nil in Hin|].
  cbn [foldl]. apply elem_of_cons in Hin as [<-|Hin]; [|by apply IH].
  rewrite Hn. etrans; [|apply maxIndex_from_le]. destruct (N.ltb_spec acc n); lia.
Qed.

Lemma nextSmaliDir_not_listed listing smaliExists :
  (smaliExists = false → lit "smali" ∉ listing) →
  nextSmaliDir listing smaliExists ∉ listing.
Proof.
  intros Hsmali. unfold nextSmaliDir.
  destruct (filter _ listing) as [|d dirs] eqn:Hdirs.
  - destruct smaliExists; [|by apply Hsmali].
    intros Hin. 
    assert (lit "smali_classes2" ∈ filter (λ d, Js.startsWith (lit "smali_classes") d = true) listing) as H.
    { apply list_elem_of_filter. split; [reflexivity|assumption]. }
    rewrite Hdirs in H. by apply elem_of_nil in H.
  - rewrite <- Hdirs. set (dirs' := filter _ listing). intros Hin.
    assert (lit "smali_classes" ++ to_decimal (maxIndex dirs' + 1) ∈ dirs') as H.
    { apply list_elem_of_filter. split; [apply startsWith_app|assumption]. }
    pose proof (maxIndex_from_ge 1 dirs' _ _ H (partition_index_numbered _)) as Hle.
    unfold maxIndex in Hle at 1. lia.
Qed.

Lemma child_name_intro dir name :
  name ≠ [] → existsb (N.eqb 47) name = false →
  child_name dir (dir ++ 47 :: name) = Some name.
Proof.
  intros Hne Hslash. unfold child_name, under.
  replace (dir ++ 47 :: name) with ((dir ++ [47]) ++ name) by (by rewrite <- app_assoc).
  rewrite startsWith_app.
  replace (length dir + 1)%nat with (length (dir ++ [47])) by (rewrite length_app; done).
  rewrite drop_app_length. destruct name; [done|]. by rewrite Hslash.
Qed.

Lemma readdirSync_lists dir s listing s' (name : jsstr) (x : node) :
  readdirSync dir s = (Ok listing, s') →
  files s !! (dir ++ 47 :: name) = Some x →
  name ≠ [] → existsb (N.eqb 47) name = false →
  name ∈ listing.
Proof.
  unfold readdirSync, bind, get_files, ret.
  destruct (files s !! dir) as [[|]|]; try done. intros [= <- _] Hx Hne Hslash.
  apply list_elem_of_fmap. exists (name, x). split; [done|].
  unfold children. apply list_elem_of_omap. exists (dir ++ 47 :: name, x).
  split; [by apply elem_of_map_to_list|]. cbn [fst snd].
  by rewrite child_name_intro.
Qed.

Lemma nextSmaliDir_plain listing smaliExists :
  nextSmaliDir listing smaliExists ≠ []
  ∧ existsb (N.eqb 47) (nextSmaliDir listing smaliExists) = false.
Proof.
  unfold nextSmaliDir. destruct (filter _ listing) as [|d dirs].
  - by destruct smaliExists.
  - split; [done|]. rewrite existsb_app. 
    change (existsb (N.eqb 47) (lit "smali_classes")) with false. cbn [orb].
    destruct (to_decimal_digits (maxIndex (d :: dirs) + 1)) as [Hd _].
    revert Hd. generalize (to_decimal (maxIndex (d :: dirs) + 1)).
    induction l as [|c l IH]; cbn [forallb existsb]; [done|].
    intros [Hc Hl]%andb_true_iff. rewrite IH by done. rewrite orb_false_r.
    unfold Js.is_digit in Hc. apply andb_true_iff in Hc as [H1%N.leb_le _].
    apply N.eqb_neq. lia.
Qed.

(** X9: the directory chosen for the helper classes is not in the
    decoded tree yet, whatever the names in the tree are (partitions in
    any order, with leading zeros, or with other text after the number).
    [listing] and [smaliExists] are what [readdirSync] and [existsSync]
    return; partition numbers are taken below 2^53, where the arithmetic
    of the program is exact. *)
Theorem helpers_go_to_a_new_partition decodeDir s listing s1 smaliExists s2 :
  decodeDir ≠ [] →
  (∀ d n, d ∈ listing → partition_index d = Some n → n < 2 ^ 53) →
  readdirSync decodeDir s = (Ok listing, s1) →
  existsSync (path_join decodeDir (lit "smali")) s1 = (Ok smaliExists, s2) →
  files s !! path_join decodeDir (nextSmaliDir listing smaliExists) = None.
Proof.
  intros Hd _ Hlist Hsmali.
  destruct (nextSmaliDir_plain listing smaliExists) as [Hne Hslash].
  assert (path_join decodeDir (nextSmaliDir listing smaliExists)
          = decodeDir ++ 47 :: nextSmaliDir listing smaliExists) as ->.
  { unfold path_join. destruct decodeDir; [done|].
    by destruct (nextSmaliDir listing smaliExists). }
  destruct (files s !! _) as [x|] eqn:Ex; [exfalso|done].
  pose proof (readdirSync_lists _ _ _ _ _ _ Hlist Ex Hne Hslash) as Hin.
  revert Hin. apply nextSmaliDir_not_listed. intros ->.
  assert (s1 = s) as ->.
  { revert Hlist. unfold readdirSync, bind, get_files, ret.
    destruct (files s !! decodeDir) as [[|]|]; try done. by intros [= _ <-]. }
  rewrite existsSync_runs in Hsmali. injection Hsmali as Hsmali _.
  intros Hin.
  assert (path_join decodeDir (lit "smali") = decodeDir ++ 47 :: lit "smali") as Hp.
  { unfold path_join. by destruct decodeDir. }
  rewrite Hp in Hsmali.
  destruct (decodeDir ++ 47 :: lit "smali") eqn:E; [by destruct decodeDir|].
  apply bool_decide_eq_false in Hsmali. apply Hsmali. rewrite <- E.
  revert Hlist Hin. unfold readdirSync, bind, get_files, ret.
  destruct (files s !! decodeDir) as [[|]|]; try done. intros [= <-].
  intros ([nm z] & Hnm & Hc)%list_elem_of_fmap. cbn in Hnm. subst nm.
  unfold children in Hc. apply list_elem_of_omap in Hc as ([p y] & Hp' & Hchild).
  cbn [fst snd] in Hchild. destruct (child_name decodeDir p) as [nm|] eqn:Ec; [|done].
  injection Hchild as -> ->. apply child_name_spec in Ec as [-> _].
  apply elem_of_map_to_list in Hp'. by exists z.
Qed.

(** ** Finding the smali file of a class *)

Lemma readdirSync_runs dir s :
  readdirSync dir s
  = match files s !! dir with
    | Some Dir => (Ok (fst <$> children dir (files s)), s)
    | found => (Throw (scandir_error found dir), s)
    end.
Proof.
  unfold readdirSync, bind, get_files, ret, throw.
  by destruct (files s !! dir) as [[|]|].
Qed.

Lemma children_elem dir (fs : filesystem) name :
  name ∈ (children dir fs).*1 ↔
  ∃ x, fs !! (dir ++ 47 :: name) = Some x ∧ name ≠ []
       ∧ existsb (N.eqb 47) name = false.
Proof.
  split.
  - intros ([nm z] & Hnm & Hc)%list_elem_of_fmap. cbn in Hnm. subst nm.
    unfold children in Hc. apply list_elem_of_omap in Hc as ([p y] & Hp & Hchild).
    cbn [fst snd] in Hchild. destruct (child_name dir p) as [nm|] eqn:Ec; [|done].
    injection Hchild as -> ->. apply elem_of_map_to_list in Hp.
    pose proof Ec as [-> Hne]%child_name_spec. exists z. split; [done|]. split; [done|].
    revert Ec. unfold child_name, under.
    replace (dir ++ 47 :: name) with ((dir ++ [47]) ++ name) by (by rewrite <- app_assoc).
    rewrite startsWith_app.
    replace (length dir + 1)%nat with (length (dir ++ [47])) by (rewrite length_app; done).
    rewrite drop_app_length. destruct name; [done|]. by destruct (existsb _ _).
  - intros (x & Hx & Hne & Hslash). apply list_elem_of_fmap. exists (name, x).
    split; [done|]. unfold children. apply list_elem_of_omap.
    exists (dir ++ 47 :: name, x). split; [by apply elem_of_map_to_list|].
    cbn [fst snd]. by rewrite child_name_intro.
Qed.

(** X10: [findSmaliFile] returns a path only if a file is there, in
    a directory of the decoded tree whose name starts with [smali], under
    the name of the class with slashes for dots; it returns nothing only
    if no such directory holds the class; and it throws only when the
    decoded tree is not a directory.  It changes nothing. *)
Theorem findSmaliFile_finds_the_class_file decodeDir className s :
  match findSmaliFile decodeDir className s with
  | (Ok (Some p), s') =>
      s' = s ∧ is_Some (files s !! p)
      ∧ ∃ d, Js.startsWith (lit "smali") d = true
             ∧ is_Some (files s !! (decodeDir ++ 47 :: d))
             ∧ p = path_join (path_join decodeDir d) (classPath className)
  | (Ok None, s') =>
      s' = s
      ∧ ∀ d, Js.startsWith (lit "smali") d = true →
             existsb (N.eqb 47) d = false →
             is_Some (files s !! (decodeDir ++ 47 :: d)) →
             files s !! path_join (path_join decodeDir d) (classPath className) = None
  | (Throw e, s') => s' = s ∧ files s !! decodeDir ≠ Some Dir
  end.
Proof.
  unfold findSmaliFile. fold (classPath className).
  pose proof (readdirSync_runs decodeDir s) as Hls.
  destruct (files s !! decodeDir) as [[|]|] eqn:Ed.
  1,3: by rewrite (bind_throws _ _ _ _ _ Hls).
  rewrite (bind_run _ _ _ _ _ Hls). unfold bind, get_files, ret.
  set (listing := (children decodeDir (files s)).*1).
  set (dirs := filter (λ d, Js.startsWith (lit "smali") d = true) listing).
  destruct (head _) as [p|] eqn:Eh.
  - apply head_Some_elem_of, list_elem_of_filter in Eh as [Hex Hin].
    apply bool_decide_unpack in Hex.
    apply list_elem_of_fmap in Hin as (d & -> & [Hd Hl]%list_elem_of_filter).
    split; [done|]. split; [done|]. exists d. split; [done|]. split; [|done].
    apply children_elem in Hl as (x & -> & _). by eexists.
  - split; [done|]. intros d Hd Hslash [x Hx].
    apply head_None in Eh.
    destruct (files s !! path_join _ _) as [y|] eqn:Ey; [exfalso|done].
    assert (path_join (path_join decodeDir d) (classPath className)
            ∈ filter (λ p, bool_decide (is_Some (files s !! p)))
                ((λ d, path_join (path_join decodeDir d) (classPath className)) <$> dirs))
      as Hin.
    { apply list_elem_of_filter. split; [apply bool_decide_pack; by eexists|].
      apply list_elem_of_fmap. exists d. split; [done|].
      apply list_elem_of_filter. split; [done|].
      apply children_elem. exists x. split; [done|]. split; [|done].
      intros ->. discriminate Hd. }
    rewrite Eh in Hin. by apply elem_of_nil in Hin.
Qed.

(** ** Reading the manifest *)

(** X11: reading the manifest fails only when there is no file to
    read.  Otherwise it returns a text, empty only if the file decodes to
    the empty text; it says the manifest is binary only for a file of
    more than four bytes that starts with 03 00; and the only path it
    may write to is that of the manifest. *)
Theorem readManifest_fails_only_on_a_missing_file W manifestPath s :
  match readManifest W manifestPath s with
  | (Throw e, s') => s' = s ∧ ∀ d, files s !! manifestPath ≠ Some (File d)
  | (Ok (content, isBinary), s') =>
      ∃ d, files s !! manifestPath = Some (File d)
        ∧ (isBinary = true →
           (4 < length (data_bytes W d))%nat
           ∧ data_bytes W d !! 0%nat = Some 3 ∧ data_bytes W d !! 1%nat = Some 0)
        ∧ (content = [] → utf8_decode W (data_bytes W d) = [])
        ∧ ∀ q, q ≠ manifestPath → files s' !! q = files s !! q
  end.
Proof.
  unfold readManifest.
  pose proof (readFileSync_runs W manifestPath s) as Hread.
  destruct (files s !! manifestPath) as [[d|]|] eqn:Ep.
  2,3: by rewrite (bind_throws _ _ _ _ _ Hread).
  rewrite (bind_run _ _ _ _ _ Hread). clear Hread.
  set (buffer := data_bytes W d).
  match goal with
  | |- match ?m s with _ => _ end =>
      assert (never_throws m) as Hn;
      [|assert (ensures m (λ r,
           (r.2 = true → (4 < length buffer)%nat
                         ∧ buffer !! 0%nat = Some 3 ∧ buffer !! 1%nat = Some 0)
           ∧ (r.1 = [] → utf8_decode W buffer = []))) as He;
        [|assert (∀ q v, q ≠ manifestPath →
                    preserves (λ fs : filesystem, fs !! q = v) m) as Hf;
          [|destruct (Hn s) as ([content isBinary] & s' & E); rewrite E]]]
  end.
  - apply never_throws_bind; [|intros [c b]; apply never_throws_ret].
    destruct (_ && _); [|apply never_throws_ret].
    apply never_throws_bind; [apply never_throws_onLog|intros _].
    apply never_throws_bind; [apply never_throws_existsSync|intros present].
    destruct present.
    + apply never_throws_try_catch. intros e.
      apply never_throws_bind; [apply never_throws_onLog|intros _; apply never_throws_ret].
    + apply never_throws_bind; [apply never_throws_onLog|intros _; apply never_throws_ret].
  - apply (ensures_bind_post _ _ (λ r, r.2 = true →
             (4 < length buffer)%nat ∧ buffer !! 0%nat = Some 3 ∧ buffer !! 1%nat = Some 0)).
    + destruct (bool_decide (4 < length buffer)%nat) eqn:E1;
        [destruct (bool_decide (buffer !! 0%nat = Some 3)) eqn:E2;
         [destruct (bool_decide (buffer !! 1%nat = Some 0)) eqn:E3|]|];
        cbn [andb]; try (by apply ensures_ret).
      apply bool_decide_eq_true in E1, E2, E3.
      apply (ensures_weaken _ (λ _, True)); [|by auto].
      intros ? ? ? _; exact I.
    + intros [c b] Hb. apply ensures_ret. cbn [fst snd] in *. split; [done|].
      by destruct c.
  - intros q v Hq. keeps; try done. by rewrite lookup_insert_ne.
  - exists d. split; [done|].
    destruct (He s _ _ E) as [H1 H2]. split; [exact H1|]. split; [exact H2|].
    intros q Hq. pose proof (Hf q (files s !! q) Hq s eq_refl) as H. by rewrite E in H.
Qed.

(** ** What a computation writes to the log *)

Section Logs.
Context (P : event → Prop).

Lemma logs_quiet {A} (m : M A) : (∀ s, logs (m s).2 = logs s) → logs_only P m.
Proof. intros H s. exists []. by rewrite H, app_nil_r. Qed.

Lemma logs_ret {A} (a : A) : logs_only P (ret a).
Proof. by apply logs_quiet. Qed.

Lemma logs_throw {A} e : logs_only P (@throw A e).
Proof. by apply logs_quiet. Qed.

Lemma logs_onLog e : P e → logs_only P (onLog e).
Proof. intros H s. exists [e]. split; [done|]. by constructor. Qed.

Lemma logs_bind {A B} (m : M A) (k : A → M B) :
  logs_only P m → (∀ a, logs_only P (k a)) → logs_only P (bind m k).
Proof.
  intros Hm Hk s. unfold bind. destruct (Hm s) as (n1 & E1 & H1).
  destruct (m s) as [[a|e] s1]; cbn [snd] in E1; [|by exists n1].
  destruct (Hk a s1) as (n2 & E2 & H2). exists (n1 ++ n2).
  split; [by rewrite E2, E1, app_assoc|by apply Forall_app].
Qed.

Lemma logs_try_catch {A} (m : M A) h :
  logs_only P m → (∀ e, logs_only P (h e)) → logs_only P (try_catch m h).
Proof.
  intros Hm Hh s. unfold try_catch. destruct (Hm s) as (n1 & E1 & H1).
  destruct (m s) as [[a|e] s1]; cbn [snd] in E1; [by exists n1|].
  destruct (Hh e s1) as (n2 & E2 & H2). exists (n1 ++ n2).
  split; [by rewrite E2, E1, app_assoc|by apply Forall_app].
Qed.

Lemma logs_try_finally {A} (m : M A) cleanup :
  logs_only P m → logs_only P cleanup → logs_only P (try_finally m cleanup).
Proof.
  intros Hm Hc s. unfold try_finally. destruct (Hm s) as (n1 & E1 & H1).
  destruct (m s) as [r s1]; cbn [snd] in E1.
  destruct (Hc s1) as (n2 & E2 & H2). exists (n1 ++ n2).
  split; [|by apply Forall_app].
  destruct (cleanup s1) as [[[]|e] s2]; cbn [snd] in *; by rewrite E2, E1, app_assoc.
Qed.

Lemma logs_existsSync p : logs_only P (existsSync p).
Proof. by apply logs_quiet. Qed.

Lemma logs_get_files : logs_only P get_files.
Proof. by apply logs_quiet. Qed.

Lemma logs_set_files f : logs_only P (set_files f).
Proof. by apply logs_quiet. Qed.

Lemma logs_readFileSync W p : logs_only P (readFileSync W p).
Proof. apply logs_quiet. intros s. by rewrite readFileSync_runs; destruct (_ !! p) as [[]|]. Qed.

Lemma logs_readdirSync p : logs_only P (readdirSync p).
Proof.
  apply logs_quiet. intros s. unfold readdirSync, bind, get_files.
  by destruct (_ !! p) as [[]|].
Qed.

Lemma logs_write_node W p n : logs_only P (write_node W p n).
Proof.
  apply logs_quiet. intros s. unfold write_node, bind, get_files.
  by destruct (write_error W p (files s)).
Qed.

Lemma logs_writeFileSync W p text : logs_only P (writeFileSync W p text).
Proof. apply logs_write_node. Qed.

Lemma logs_copyFileSync W src dst : logs_only P (copyFileSync W src dst).
Proof.
  apply logs_quiet. intros s. unfold copyFileSync, bind, get_files.
  destruct (_ !! src) as [[d|]|]; try done.
  unfold write_node, bind, get_files. by destruct (write_error W dst (files s)).
Qed.

Lemma logs_rmSync p : logs_only P (rmSync p).
Proof. by apply logs_quiet. Qed.

Lemma logs_mkdtempSync W k : logs_only P (mkdtempSync W k).
Proof.
  apply logs_quiet. intros s. rewrite mkdtempSync_runs.
  by destruct (write_error W _ (files s)).
Qed.

Lemma logs_mkdirSync W base cs : logs_only P (mkdirSync W base cs).
Proof.
  apply logs_quiet. intros s. unfold mkdirSync, bind, get_files.
  by destruct (write_error W _ (files s)).
Qed.

Lemma logs_execPromise W c effect : logs_only P (execPromise W c effect).
Proof. apply logs_quiet. intros s. unfold execPromise. by destruct (failure _). Qed.

End Logs.

Ltac logs_step :=
  first
    [ apply logs_ret
    | apply logs_throw
    | apply logs_onLog
    | apply logs_get_files
    | apply logs_existsSync
    | apply logs_readFileSync
    | apply logs_readdirSync
    | apply logs_execPromise
    | apply logs_writeFileSync
    | apply logs_copyFileSync
    | apply logs_write_node
    | apply logs_rmSync
    | apply logs_mkdtempSync
    | apply logs_mkdirSync
    | match goal with
      | |- logs_only _ (if ?b then _ else _) => destruct b
      | |- logs_only _ (match ?x with _ => _ end) => destruct x
      | |- logs_only _ (let (_, _) := ?x in _) => destruct x
      | |- logs_only _ (try_catch _ _) => apply logs_try_catch; [|intros ?]
      | |- logs_only _ (try_finally _ _) => apply logs_try_finally
      | |- logs_only _ (bind _ _) => apply logs_bind; [|intros ?]
      end ].

Ltac logs_steps := repeat logs_step.

Lemma silent_before_helpers W T decodeDir signature pkgName apk content manifestPath
    isBinary :
  logs_only not_helpers_line (readManifest W manifestPath)
  ∧ logs_only not_helpers_line (editBinaryManifest W apk)
  ∧ logs_only not_helpers_line (editTextManifest W manifestPath content isBinary)
  ∧ logs_only not_helpers_line (injectLaunchActivity W decodeDir signature pkgName content)
  ∧ logs_only not_helpers_line (createMyApplication W T decodeDir signature pkgName).
Proof.
  repeat split.
  - unfold readManifest, execWithLog. logs_steps; done.
  - unfold editBinaryManifest, execWithLog. logs_steps; done.
  - unfold editTextManifest. logs_steps; done.
  - unfold injectLaunchActivity, findSmaliFile, injectCodeToSmali. logs_steps; done.
  - unfold createMyApplication. logs_steps; done.
Qed.

Lemma logs_only_run {A} P (m : M A) s r s' :
  logs_only P m → m s = (r, s') → ∃ new, logs s' = logs s ++ new ∧ Forall P new.
Proof. intros H E. specialize (H s). by rewrite E in H. Qed.

Lemma grows_run {A} (m : M A) s r s' :
  logs_only (λ _, True) m → m s = (r, s') → ∃ new, logs s' = logs s ++ new.
Proof. intros H E. destruct (logs_only_run _ _ _ _ _ H E) as (new & -> & _). by eexists. Qed.

Lemma writeFileSync_Ok W p text s s' :
  writeFileSync W p text s = (Ok (), s') →
  files s' = <[p := File (Text (utf8_encode W text))]> (files s) ∧ logs s' = logs s.
Proof.
  unfold writeFileSync, write_node, bind, get_files, set_files.
  destruct (write_error W p (files s)); [done|]. by intros [= <-].
Qed.

Lemma path_join_name_inj dir a b :
  a ≠ [] → b ≠ [] → path_join dir a = path_join dir b → a = b.
Proof.
  intros Ha Hb. unfold path_join. destruct dir as [|c d]; [done|].
  destruct a as [|x a], b as [|y b]; try done.
  intros E. apply app_inv_head in E. cbn in E. by injection E as -> ->.
Qed.

Lemma writeHelpers_returns W T decodeDir s s' :
  writeHelpers W T decodeDir s = (Ok (), s') →
  ∃ next,
    logs s' = logs s ++ [LogHelpersWritten next]
    ∧ files s' !! helperPath decodeDir next (lit "ProxyHookPMS.smali")
      = Some (File (Text (utf8_encode W (proxyHookPMS T))))
    ∧ files s' !! helperPath decodeDir next (lit "HookServiceWraper.smali")
      = Some (File (Text (utf8_encode W (hookServiceWraper T)))).
Proof.
  unfold writeHelpers.
  intros (listing & s1 & H1 & H)%bind_Ok.
  apply bind_Ok in H as (smaliExists & s2 & H2 & H).
  apply bind_Ok in H as (targetDir & s3 & H3 & H).
  apply bind_Ok in H as ([] & s4 & H4 & H).
  apply bind_Ok in H as ([] & s5 & H5 & H).
  exists (nextSmaliDir listing smaliExists).
  pose proof (ensures_mkdirSync _ _ _ _ _ _ H3) as ->.
  apply writeFileSync_Ok in H4 as [F4 L4]. apply writeFileSync_Ok in H5 as [F5 L5].
  unfold onLog in H. injection H as <-. cbn [logs files]. fold (helperPath decodeDir (nextSmaliDir listing smaliExists) (lit "ProxyHookPMS.smali")) in *.
  fold (helperPath decodeDir (nextSmaliDir listing smaliExists) (lit "HookServiceWraper.smali")) in *.
  split; [|split].
  - f_equal. rewrite L5, L4.
    assert (∀ {A} (m : M A) (a : A) t t', logs_only (λ _, False) m → m t = (Ok a, t') →
               logs t' = logs t) as Hq.
    { intros A m a t t' Hm E. destruct (logs_only_run _ _ _ _ _ Hm E) as (new & -> & Hnew).
      destruct new as [|e new]; [by rewrite app_nil_r|]. by apply Forall_cons in Hnew as [[] _]. }
    rewrite (Hq _ _ _ _ _ (logs_mkdirSync _ _ _ _) H3).
    rewrite (Hq _ _ _ _ _ (logs_existsSync _ _) H2).
    by rewrite (Hq _ _ _ _ _ (logs_readdirSync _ _) H1).
  - rewrite F5, lookup_insert_ne, F4; [apply lookup_insert_eq|].
    unfold helperPath. intros E%path_join_name_inj; done.
  - rewrite F5. apply lookup_insert_eq.
Qed.

(** What the steps of the injection change on the file system. *)
Lemma readManifest_changes W p s x s' :
  readManifest W p s = (Ok x, s') →
  is_Some (files s !! p) ∧ ∀ q, q ≠ p → files s' !! q = files s !! q.
Proof.
  intros H. split.
  - revert H. unfold readManifest. intros (buffer & s1 & H1 & _)%bind_Ok.
    rewrite readFileSync_runs in H1. by destruct (files s !! p) as [[|]|].
  - intros q Hq.
    assert (preserves (λ fs : filesystem, fs !! q = files s !! q) (readManifest W p)) as Hp.
    { unfold readManifest. keeps; try done. by rewrite lookup_insert_ne. }
    specialize (Hp s eq_refl). by rewrite H in Hp.
Qed.

Lemma editBinaryManifest_changes W apk s r s' q :
  editBinaryManifest W apk s = (r, s') →
  within (mkdtemp_name W ManifestEdit (files s)) q = false →
  files s' !! q = files s !! q.
Proof.
  unfold editBinaryManifest. intros H Hq.
  set (d := mkdtemp_name W ManifestEdit (files s)) in *.
  assert (d ≠ []) as Hd by apply mkdtemp_name_nonempty.
  unfold bind at 1, onLog in H. unfold bind at 1 in H. rewrite existsSync_runs in H.
  cbn [files] in H.
  destruct (match jarToolPath W _ with [] => false | _ => _ end).
  2:{ unfold ret in H. by injection H as _ <-. }
  unfold try_catch, bind at 1 in H. rewrite mkdtempSync_runs in H. cbn [files logs] in H.
  fold d in H. destruct (write_error W d (files s)).
  { unfold bind, onLog, ret in H. by injection H as _ <-. }
  match type of H with
  | match ?body ?s2 with _ => _ end = _ =>
      assert (preserves (λ fs : filesystem, fs !! q = files s !! q) body) as Hp;
      [|specialize (Hp s2); destruct (body s2) as [[a|e] sB]]
  end.
  - keeps; try done.
    + unfold redirected. rewrite lookup_insert_ne; [done|]. intros <-.
      by rewrite path_join_within in Hq.
    + unfold leaves_file. destruct (out_file _); [|done].
      rewrite lookup_insert_ne; [done|]. intros <-. by rewrite path_join_within in Hq.
  - injection H as _ <-. apply Hp. cbn [files]. apply lookup_insert_ne.
    intros <-. by rewrite within_refl in Hq.
  - unfold bind, onLog, ret in H. injection H as _ <-. cbn [files]. apply Hp.
    cbn [files]. apply lookup_insert_ne. intros <-. by rewrite within_refl in Hq.
Qed.

Lemma editTextManifest_changes W p content isBinary s r s' q :
  editTextManifest W p content isBinary s = (r, s') → q ≠ p →
  files s' !! q = files s !! q.
Proof.
  intros H Hq.
  assert (preserves (λ fs : filesystem, fs !! q = files s !! q)
            (editTextManifest W p content isBinary)) as Hp.
  { unfold editTextManifest. keeps; try done. by rewrite lookup_insert_ne. }
  specialize (Hp s eq_refl). by rewrite H in Hp.
Qed.

Lemma injectLaunchActivity_changes W decodeDir signature pkgName content s s' :
  injectLaunchActivity W decodeDir signature pkgName content s = (Ok true, s') →
  ∃ patched, is_Some (files s !! patched)
             ∧ ∀ q, q ≠ patched → files s' !! q = files s !! q.
Proof.
  unfold injectLaunchActivity. intros ([] & s1 & H1 & H)%bind_Ok.
  unfold onLog in H1. injection H1 as <-.
  destruct (findLaunchActivity content) as [launch|]; [|done].
  apply bind_Ok in H as (smaliPath & s2 & H2 & H).
  destruct smaliPath as [p|]; [|done].
  assert (files s2 = files s ∧ is_Some (files s !! p)) as [E2 Hp].
  { revert H2. unfold findSmaliFile. intros (listing & t1 & Hl & H2)%bind_Ok.
    rewrite readdirSync_runs in Hl. cbn [files] in Hl.
    destruct (files s !! decodeDir) as [[|]|]; try done. injection Hl as _ <-.
    unfold bind, get_files, ret in H2. cbn [files] in H2. injection H2 as H2 <-.
    split; [done|].
    apply head_Some_elem_of, list_elem_of_filter in H2 as [Hex _].
    by apply bool_decide_unpack in Hex. }
  exists p. split; [done|]. intros q Hq. rewrite <- E2.
  unfold try_catch in H.
  match type of H with
  | match ?body s2 with _ => _ end = _ =>
      assert (preserves (λ fs : filesystem, fs !! q = files s2 !! q) body) as Hb;
      [|specialize (Hb s2 eq_refl); destruct (body s2) as [[a|e] sB]]
  end.
  - unfold injectCodeToSmali. keeps; try done. by rewrite lookup_insert_ne.
  - by injection H as _ <-.
  - done.
Qed.

Lemma injectLaunchActivity_logs W decodeDir signature pkgName content s s' :
  injectLaunchActivity W decodeDir signature pkgName content s = (Ok true, s') →
  ∃ pre, logs s' = logs s ++ pre ++ [LogActivityFallbackOk].
Proof.
  unfold injectLaunchActivity. intros ([] & s1 & H1 & H)%bind_Ok.
  unfold onLog in H1. injection H1 as <-.
  destruct (findLaunchActivity content) as [launch|]; [|done].
  apply bind_Ok in H as (smaliPath & s2 & H2 & H).
  destruct smaliPath as [p|]; [|done].
  unfold try_catch in H.
  match type of H with
  | match ?body s2 with _ => _ end = _ => destruct (body s2) as [[a|e] sB] eqn:Eb
  end; [|done].
  injection H as -> ->.
  apply bind_Ok in Eb as ([] & s3 & H3 & Eb).
  apply bind_Ok in Eb as ([] & s4 & H4 & Eb).
  unfold onLog in H4. injection H4 as <-. unfold ret in Eb. injection Eb as <-.
  cbn [logs].
  assert (logs_only (λ _, True) (injectCodeToSmali W p signature pkgName StaticBlock))
    as L3 by (unfold injectCodeToSmali; logs_steps; done).
  assert (logs_only (λ _, True) (findSmaliFile decodeDir
            (normalizeClassName launch pkgName))) as L2
    by (unfold findSmaliFile; logs_steps; done).
  destruct (grows_run _ _ _ _ L3 H3) as [n3 E3].
  destruct (grows_run _ _ _ _ L2 H2) as [n2 E2]. cbn [logs] in E2.
  exists ([LogTryActivityFallback] ++ n2 ++ n3).
  rewrite E3, E2. by rewrite <- !app_assoc.
Qed.

(** X12: an injection that ends with the ActivityFallback plan
    has not written the helper classes.  Its log ends with the line
    that reports the patched launch Activity and no line reports the
    helper classes; it has made no file or directory outside the
    scratch directory of the manifest editor; and of the paths outside
    that directory at most two hold something else than before: the
    manifest and the class file it patched.  With the two other plans
    both helper classes are on the file system, with the text of their
    templates, in the partition that the last line of the log names.
    The injection only ever adds lines to the log. *)
Theorem fallback_writes_no_helper_classes W T decodeDir signature packageName apk
    s r s' :
  injectHookCode W T decodeDir signature packageName apk s = (Ok r, s') →
  ∃ new, logs s' = logs s ++ new
    ∧ match plan r with
      | ActivityFallback =>
          Forall not_helpers_line new
          ∧ last new = Some LogActivityFallbackOk
          ∧ ∃ scratch patched,
              (∃ fs, scratch = mkdtemp_name W ManifestEdit fs)
              ∧ (∀ p, files s !! p = None → is_Some (files s' !! p) →
                      within scratch p = true)
              ∧ (∀ p, p ≠ path_join decodeDir manifest_name → p ≠ patched →
                      within scratch p = false → files s' !! p = files s !! p)
      | _ =>
          ∃ d, last new = Some (LogHelpersWritten d)
               ∧ files s' !! helperPath decodeDir d (lit "ProxyHookPMS.smali")
                 = Some (File (Text (utf8_encode W (proxyHookPMS T))))
               ∧ files s' !! helperPath decodeDir d (lit "HookServiceWraper.smali")
                 = Some (File (Text (utf8_encode W (hookServiceWraper T))))
      end.
Proof.
  unfold injectHookCode.
  intros ([content isBinary] & s1 & H1 & H)%bind_Ok.
  apply bind_Ok in H as (pkgName & s2 & H2 & H).
  destruct (silent_before_helpers W T decodeDir signature pkgName apk content
              (path_join decodeDir manifest_name) isBinary)
    as (Lread & Lbin & Ltext & Llaunch & Lcreate).
  destruct (logs_only_run _ _ _ _ _ Lread H1) as (n1 & E1 & F1).
  assert (s2 = s1) as ->.
  { destruct packageName; [destruct (Js.search _ content) as [[]|]|];
      unfold ret, throw in H2; by injection H2 as _ <-. }
  destruct (extractApplicationName content) as [appClass|].
  - apply bind_Ok in H as ([] & s3 & H3 & H).
    apply bind_Ok in H as (smaliPath & s4 & H4 & H).
    destruct smaliPath as [p|]; [|done].
    apply bind_Ok in H as ([] & s5 & H5 & H).
    apply bind_Ok in H as ([] & s6 & H6 & H).
    unfold ret in H. injection H as <- <-. cbn [plan].
    apply writeHelpers_returns in H6 as (next & E6 & Hproxy & Hwrapper).
    assert (logs_only (λ _, True) (injectCodeToSmali W p signature pkgName AttachBaseContext))
      as L5 by (unfold injectCodeToSmali; logs_steps; done).
    assert (logs_only (λ _, True) (findSmaliFile decodeDir
              (normalizeClassName appClass pkgName))) as L4
      by (unfold findSmaliFile; logs_steps; done).
    destruct (grows_run _ _ _ _ L5 H5) as [n5 E5].
    destruct (grows_run _ _ _ _ L4 H4) as [n4 E4].
    unfold onLog in H3. injection H3 as <-. cbn [logs] in E4.
    exists (n1 ++ [LogTargetApplication appClass] ++ n4 ++ n5 ++ [LogHelpersWritten next]).
    split.
    + rewrite E6, E5, E4, E1. by rewrite <- !app_assoc.
    + exists next. split; [by rewrite !app_assoc, last_snoc|]. by split.
  - apply bind_Ok in H as ([] & s3 & H3 & H).
    apply bind_Ok in H as (edited & s4 & H4 & H).
    apply bind_Ok in H as (textual & s5 & H5 & H).
    unfold onLog in H3. injection H3 as <-.
    destruct (logs_only_run _ _ _ _ _ Lbin H4) as (n4 & E4 & F4). cbn [logs] in E4.
    assert (∃ n5, logs s5 = logs s4 ++ n5 ∧ Forall not_helpers_line n5) as (n5 & E5 & F5).
    { destruct edited.
      - unfold ret in H5. injection H5 as _ <-. exists []. by rewrite app_nil_r.
      - by apply (logs_only_run _ _ _ _ _ Ltext H5). }
    destruct (_ || _).
    + apply bind_Ok in H as ([] & s6 & H6 & H).
      apply bind_Ok in H as ([] & s7 & H7 & H).
      apply bind_Ok in H as ([] & s8 & H8 & H).
      unfold ret in H. injection H as <- <-. cbn [plan].
      apply writeHelpers_returns in H8 as (next & E8 & Hproxy & Hwrapper).
      destruct (logs_only_run _ _ _ _ _ Lcreate H6) as (n6 & E6 & _).
      unfold onLog in H7. injection H7 as <-. cbn [logs] in E8.
      eexists. split.
      * rewrite E8, E6, E5, E4, E1. rewrite <- !app_assoc. reflexivity.
      * exists next. split; [by rewrite !app_assoc, last_snoc|]. by split.
    + apply bind_Ok in H as (done_ & s6 & H6 & H).
      destruct done_; [|done]. unfold ret in H. injection H as <- <-. cbn [plan].
      destruct (logs_only_run _ _ _ _ _ Llaunch H6) as (n6 & E6 & F6).
      destruct (injectLaunchActivity_logs _ _ _ _ _ _ _ H6) as (pre & Elast).
      rewrite E6 in Elast. apply app_inv_head in Elast.
      eexists. split; [|split; [|split]].
      * rewrite E6, E5, E4, E1. rewrite <- !app_assoc. reflexivity.
      * repeat (apply Forall_app; split); try done. by repeat constructor.
      * rewrite Elast. by rewrite !app_assoc, last_snoc.
      * apply readManifest_changes in H1 as [Hmanifest Hread].
        apply injectLaunchActivity_changes in H6 as (patched & Hpatched & Hlaunch).
        set (manifestPath := path_join decodeDir manifest_name) in *.
        set (scratch := mkdtemp_name W ManifestEdit (files s1)).
        assert (∀ q, within scratch q = false → files s4 !! q = files s1 !! q) as Hbin.
        { intros q Hq. by apply (editBinaryManifest_changes _ _ _ _ _ _ H4). }
        assert (∀ q, q ≠ manifestPath → files s5 !! q = files s4 !! q) as Htext.
        { intros q Hq. destruct edited.
          - unfold ret in H5. by injection H5 as _ <-.
          - by apply (editTextManifest_changes _ _ _ _ _ _ _ _ H5). }
        assert (∀ q, q ≠ manifestPath → within scratch q = false →
                     files s5 !! q = files s !! q) as Hbefore.
        { intros q Hq1 Hq2. by rewrite Htext, Hbin, Hread. }
        exists scratch, patched. split; [by eexists|]. split.
        -- intros p Hnone Hsome. destruct (within scratch p) eqn:Hin; [done|exfalso].
           destruct (decide (p = manifestPath)) as [->|Hpm].
           { rewrite Hnone in Hmanifest. by destruct Hmanifest. }
           destruct (decide (p = patched)) as [->|Hpp].
           { rewrite Hbefore, Hnone in Hpatched by done. by destruct Hpatched. }
           rewrite Hlaunch, Hbefore, Hnone in Hsome by done. by destruct Hsome.
        -- intros p Hpm Hpp Hin. by rewrite Hlaunch, Hbefore.
Qed.

(** ** The textual manifest patch, seen by the analyzer *)

Lemma startsWith_local p k front x y :
  (k + length p ≤ length front)%nat →
  Js.startsWith p (drop k (front ++ x)) = Js.startsWith p (drop k (front ++ y)).
Proof.
  revert k front. induction p as [|c p IH]; intros k front Hk; [done|].
  cbn [length] in Hk.
  rewrite !drop_app_le by lia.
  destruct (drop k front) as [|d rest] eqn:E.
  { apply (f_equal length) in E. rewrite length_drop in E. cbn in E. lia. }
  cbn. f_equal.
  assert (rest = drop (S k) front) as ->.
  { rewrite <- (Nat.add_1_l k), Nat.add_comm, <- drop_drop, E. done. }
  rewrite <- !drop_app_le by lia. apply IH. lia.
Qed.

Lemma match_stop_head s : match_stop s = Some () → head s = Some 60.
Proof.
  unfold match_stop. destruct (existsb _ _) eqn:E; [|done]. intros _.
  apply existsb_exists in E as (t & Hin & Hs).
  destruct s as [|c s]; [by repeat (destruct Hin as [<-|Hin]; [done|])|].
  cbn. f_equal.
  assert (head t = Some 60) as Ht by (repeat (destruct Hin as [<-|Hin]; [done|]); done).
  destruct t as [|a t]; [done|]. injection Ht as ->.
  cbn [Js.startsWith_ci] in Hs. apply andb_true_iff in Hs as [Hc _].
  apply N.eqb_eq in Hc. change (Js.canon 60) with 60 in Hc.
  unfold Js.canon in Hc. destruct ((97 <=? c) && (c <=? 122)) eqn:Ec; [|done].
  apply andb_true_iff in Ec as [H1%N.leb_le H2%N.leb_le]. lia.
Qed.

Lemma patched_manifest_name rest :
  extractApplicationName (named_application ++ rest)  = Some application_class
  ∧ Js.startsWith (lit "<application") (named_application ++ rest) = true.
Proof.
  split; [|reflexivity].
  unfold extractApplicationName, application_first_name, scanningArea.
  assert (Js.indexOf (lit "<application") (named_application ++ rest) = Some 0%nat) as ->
    by reflexivity.
  cbn [mbind option_bind]. rewrite drop_0.
  assert (∃ rest', match Js.search match_stop (named_application ++ rest) with
                   | Some (i, _) => take i (named_application ++ rest)
                   | None => named_application ++ rest
                   end = named_application ++ rest') as [rest' ->].
  { destruct (Js.search match_stop _) as [[i []]|] eqn:Es; [|by exists rest].
    apply search_Some in Es as (Hstop & _ & _).
    destruct (decide (i < length named_application)%nat) as [Hlt|Hge].
    - exfalso. destruct i as [|i]; [discriminate Hstop|].
      apply match_stop_head in Hstop.
      rewrite drop_app_le in Hstop by lia. revert Hstop.
      change (length named_application) with 60%nat in Hlt.
      do 59 (destruct i as [|i]; [discriminate|]). lia.
    - exists (take (i - length named_application) rest).
      by rewrite take_app_ge by lia. }
  assert (Js.search match_android_name (named_application ++ rest')
          = Some (13%nat, application_class)) as ->.
  { apply search_first; [reflexivity|rewrite length_app; change (length named_application) with 60%nat; lia|].
    intros k Hk. do 13 (destruct k as [|k]; [reflexivity|]). lia. }
  reflexivity.
Qed.

Lemma indexOf_here needle s :
  Js.startsWith needle s = true → Js.indexOf needle s = Some 0%nat.
Proof.
  intros H. unfold Js.indexOf. destruct s; cbn; unfold Js.at_prefix; by rewrite H.
Qed.

Lemma indexOf_first needle s i :
  Js.startsWith needle (drop i s) = true → (i ≤ length s)%nat →
  (∀ k, (k < i)%nat → Js.startsWith needle (drop k s) = false) →
  Js.indexOf needle s = Some i.
Proof.
  intros Hi Hle Hk. unfold Js.indexOf.
  rewrite (search_first (Js.at_prefix needle) s i ()); [done| |done|].
  - unfold Js.at_prefix. by rewrite Hi.
  - intros k Hlt. unfold Js.at_prefix. by rewrite Hk.
Qed.

Lemma extractApplicationName_from content i :
  Js.indexOf (lit "<application") content = Some i →
  extractApplicationName content = extractApplicationName (drop i content).
Proof.
  intros Hi. pose proof Hi as (post & _ & Hdrop & _)%indexOf_Some.
  unfold extractApplicationName, application_first_name, scanningArea.
  rewrite Hi. rewrite (indexOf_here _ (drop i content)).
  - cbn [mbind option_bind]. by rewrite drop_0.
  - rewrite Hdrop. apply startsWith_app.
Qed.

Lemma textual_patch content :
  Js.includes (lit "<application") content = true →
  extractApplicationName
    (replace_string (lit "<application") named_application content)
  = Some application_class.
Proof.
  unfold Js.includes. intros [i Hi]%bool_decide_eq_true.
  destruct (replace_string_first (lit "<application") named_application content i Hi
              eq_refl) as [-> Hle].
  pose proof Hi as (post & Hcontent & Hdrop & _ & Hbefore)%indexOf_Some.
  set (after := drop (i + length (lit "<application")) content).
  assert (length (take i content) = i) as Hlen by (rewrite length_take; lia).
  rewrite (extractApplicationName_from _ i).
  - rewrite <- Hlen at 1. rewrite drop_app_length. apply patched_manifest_name.
  - apply indexOf_first.
    + rewrite <- Hlen at 1. rewrite drop_app_length. reflexivity.
    + rewrite length_app. lia.
    + intros k Hk. etrans; [|exact (Hbefore k Hk)].
      rewrite Hcontent at 2.
      change named_application
        with (lit "<application" ++ (lit " android:name=" ++ dq ++ application_class ++ dq)).
      rewrite <- !app_assoc. rewrite !(app_assoc (take i content) (lit "<application")).
      apply startsWith_local. rewrite length_app, Hlen. lia.
Qed.

(** X13: after a successful textual patch the manifest on disk
    declares the synthetic class: the analyzer, run on the text that was
    written, finds [com.demo.repackage.MyApplication] as the Application
    class, whatever the manifest held before. *)
Theorem textual_patch_names_the_synthetic_class W manifestPath content isBinary s s' :
  editTextManifest W manifestPath content isBinary s = (Ok true, s') →
  ∃ newManifest,
    files s' !! manifestPath = Some (File (Text (utf8_encode W newManifest)))
    ∧ extractApplicationName newManifest = Some application_class.
Proof.
  unfold editTextManifest. destruct isBinary.
  { unfold bind, onLog, ret. by intros [= ]. }
  unfold try_catch, bind at 1, onLog at 1.
  destruct (Js.includes (lit "<application") content) eqn:Einc.
  2: { unfold bind, onLog, ret. by intros [= ]. }
  unfold bind at 1. unfold writeFileSync, write_node, bind at 1, get_files at 1.
  cbn [files logs].
  destruct (write_error W manifestPath (files s)) as [e|].
  { unfold throw, bind, onLog, ret. by intros [= ]. }
  unfold set_files, bind, onLog, ret. cbn [files logs]. intros [= <-]. cbn [files].
  exists (replace_string (lit "<application") named_application content).
  split; [by rewrite lookup_insert_eq|]. by apply textual_patch.
Qed.

(** ** SmaliCodeGenerator: the hook call in the injected text *)

Lemma includes_concat x (l : list jsstr) pre post :
  l = pre ++ post → Js.includes x (concat post) = true →
  Js.includes x (concat l) = true.
Proof.
  intros -> H. rewrite concat_app.
  rewrite <- (app_nil_r (concat post)). by apply includes_infix.
Qed.

Lemma includes_text x (lines : list (list jsstr)) l :
  l ∈ lines → Js.includes x (concat l) = true → Js.includes x (text lines) = true.
Proof.
  intros Hin Hx. induction lines as [|l' lines IH]; [by apply elem_of_nil in Hin|].
  destruct lines as [|l'' lines].
  - apply list_elem_of_singleton in Hin as ->. done.
  - change (text (l' :: l'' :: lines)) with (concat l' ++ 10 :: text (l'' :: lines)).
    apply elem_of_cons in Hin as [->|Hin].
    + by apply (includes_infix x (concat l') [] (10 :: text (l'' :: lines))).
    + replace (concat l' ++ 10 :: text (l'' :: lines))
        with ((concat l' ++ [10]) ++ text (l'' :: lines) ++ [])
        by (by rewrite app_nil_r, <- app_assoc).
      apply includes_infix. by apply IH.
Qed.

Lemma quoted_in_line x a rest :
  Js.includes (dq ++ x ++ dq) (concat (a :: dq :: x :: dq :: rest)) = true.
Proof.
  cbn [concat].
  replace (a ++ dq ++ x ++ dq ++ concat rest) with (a ++ (dq ++ x ++ dq) ++ concat rest)
    by (by rewrite <- !app_assoc).
  apply includes_intro.
Qed.

Lemma second_in_line x a : Js.includes x (concat [a; x]) = true.
Proof. cbn [concat]. apply includes_intro. Qed.

Ltac find_line :=
  first [ apply list_elem_of_here | apply list_elem_of_further; find_line ].

Lemma hookCall_carries signature pkgName m :
  Js.includes (dq ++ signature ++ dq) (hookCall signature pkgName m) = true
  ∧ Js.includes (dq ++ pkgName ++ dq) (hookCall signature pkgName m) = true.
Proof.
  destruct m; unfold hookCall, hookCall_generic, hookCall_provider, hookCall_static;
    split.
  all: eapply includes_text; [|apply quoted_in_line]; find_line.
Qed.

(** X14: the hook call holds the original signature and the
    package name as string constants, and a smali text that was patched
    or given a new method contains the hook call.  The texts handed to
    [String.prototype.replace] are taken to hold no dollar sign. *)
Theorem injected_text_carries_the_signature signature pkgName m content :
  no_dollar signature = true → no_dollar pkgName = true →
  (∀ i n, Js.search (match_header m) content = Some (i, n) →
          no_dollar (take n (drop i content)) = true) →
  Js.includes (dq ++ signature ++ dq) (hookCall signature pkgName m) = true
  ∧ Js.includes (dq ++ pkgName ++ dq) (hookCall signature pkgName m) = true
  ∧ match inject signature pkgName m content with
    | Patched content' | Created content' =>
        Js.includes (hookCall signature pkgName m) content' = true
    | NoLocals => True
    end.
Proof.
  intros Hs Hp Hheader.
  destruct (hookCall_carries signature pkgName m) as [H1 H2].
  split; [exact H1|]. split; [exact H2|].
  unfold inject.
  destruct (Js.search (match_methodDef m) content) as [[i0 n0]|].
  - destruct (Js.search (match_header m) content) as [[i n]|] eqn:Eh; [|done].
    rewrite get_substitution_plain.
    + replace (take i content
                ++ (raise_locals m (take n (drop i content)) ++ [10]
                    ++ hookCall signature pkgName m)
                ++ drop (i + n) content)
        with ((take i content ++ raise_locals m (take n (drop i content)) ++ [10])
                ++ hookCall signature pkgName m ++ drop (i + n) content)
        by (by rewrite <- !app_assoc).
      apply includes_intro.
    + rewrite !no_dollar_app. rewrite no_dollar_raise_locals by (by apply Hheader).
      by rewrite no_dollar_hookCall.
  - replace (Js.trimEnd content ++ [10; 10] ++ newMethod signature pkgName m content)
      with ((Js.trimEnd content ++ [10; 10]) ++ newMethod signature pkgName m content ++ [])
      by (by rewrite app_nil_r, <- app_assoc).
    apply includes_infix. unfold newMethod.
    destruct m; unfold newMethod_generic, newMethod_provider, newMethod_static.
    all: eapply includes_text; [|apply second_in_line]; find_line.
Qed.

(** ** Listings: keystore aliases and signing identities *)

Lemma trimStart_spec s :
  (∃ ws, s = ws ++ Js.trimStart s)
  ∧ head (Js.is_space <$> Js.trimStart s) ≠ Some true.
Proof.
  unfold Js.trimStart. destruct (span_spec Js.is_space s) as (H1 & _ & H3).
  split; [|done]. by exists (Js.span Js.is_space s).1.
Qed.

Lemma trimStart_fix s :
  head (Js.is_space <$> s) ≠ Some true → Js.trimStart s = s.
Proof.
  unfold Js.trimStart. destruct s as [|c s]; [done|]. cbn.
  destruct (Js.is_space c); [by intros []|done].
Qed.

Lemma trim_trim s : Js.trim (Js.trim s) = Js.trim s.
Proof.
  unfold Js.trim, Js.trimEnd.
  set (u := Js.trimStart s).
  destruct (trimStart_spec s) as [_ Hu]. fold u in Hu.
  destruct (trimStart_spec (reverse u)) as [[ws Hws] Hv].
  set (v := Js.trimStart (reverse u)) in *.
  assert (u = reverse v ++ reverse ws) as Eu.
  { by rewrite <- reverse_app, <- Hws, reverse_involutive. }
  assert (Js.trimStart (reverse v) = reverse v) as ->.
  { apply trimStart_fix. destruct (reverse v) as [|c t] eqn:Et; [done|].
    rewrite Eu in Hu. exact Hu. }
  rewrite reverse_involutive. by rewrite (trimStart_fix v).
Qed.

Lemma split_second label line :
  label ≠ [] → Js.includes label line = true → is_Some (split label line !! 1%nat).
Proof.
  intros Hl Hinc. unfold Js.includes in Hinc. apply bool_decide_eq_true in Hinc as [i Hi].
  unfold split. pose proof Hi as (post & Hline & _)%indexOf_Some.
  destruct (length line) as [|fuel] eqn:El.
  { apply (f_equal length) in Hline. rewrite !length_app, El in Hline.
    destruct label; [done|]. cbn in Hline. lia. }
  cbn [split_on]. rewrite Hi.
  assert (∀ f x, split_on f label x ≠ []) as Hne.
  { intros [|f] x; cbn [split_on]; [done|]. by destruct (Js.indexOf label x). }
  specialize (Hne fuel (drop (i + length label) line)).
  destruct (split_on fuel label _) as [|part parts]; [done|]. by exists part.
Qed.

Lemma collect_aliases_runs lines aliases s :
  ∃ found,
    collect_aliases lines aliases s = (Ok (aliases ++ found), s)
    ∧ Forall (λ a, Js.trim a = a) found
    ∧ length found = length (filter (λ line, names_alias line = true) lines).
Proof.
  revert aliases. induction lines as [|line rest IH]; intros aliases.
  { exists []. by rewrite app_nil_r. }
  cbn [collect_aliases].
  assert (∀ label, label ≠ [] → Js.includes label line = true →
            ∃ found,
              (do a <- alias_after label line; collect_aliases rest (aliases ++ [a])) s
              = (Ok (aliases ++ found), s)
              ∧ Forall (λ a, Js.trim a = a) found
              ∧ length found
                = S (length (filter (λ line, names_alias line = true) rest))) as Hstep.
  { intros label Hl Hinc. destruct (split_second label line Hl Hinc) as [part Hpart].
    unfold alias_after. rewrite Hpart.
    destruct (IH (aliases ++ [Js.trim part])) as (found & E & Ht & Hlen).
    exists (Js.trim part :: found). unfold bind, ret. rewrite E.
    split; [by rewrite <- app_assoc|]. split; [|by rewrite <- Hlen].
    constructor; [apply trim_trim|done]. }
  rewrite filter_cons. destruct (decide (names_alias line = true)) as [Hn|Hn].
  - unfold names_alias in Hn. cbn [length].
    destruct (Js.includes (lit "Alias name:") line) eqn:E1; [by apply Hstep|].
    cbn [orb] in Hn. rewrite Hn. by apply Hstep.
  - apply not_true_is_false in Hn. unfold names_alias in Hn.
    apply orb_false_iff in Hn as [-> ->]. apply IH.
Qed.

(** X15: [getKeystoreAliases] returns one alias for each line of
    the keytool listing that carries one of the two labels, each without
    white space around it; it never fails on a line (the part after the
    label is always there); and it throws exactly when keytool fails,
    with the text of the failure after a fixed prefix. *)
Theorem keystore_aliases_are_trimmed ask keystorePath storePass s :
  let o := ask (KeytoolList keystorePath storePass) (files s) in
  match getKeystoreAliases ask keystorePath storePass s with
  | (Ok aliases, s') =>
      s' = s ∧ failure o = None
      ∧ Forall (λ a, Js.trim a = a) aliases
      ∧ length aliases
        = length (filter (λ line, names_alias line = true) (split [10] (stdout o)))
  | (Throw e, s') =>
      s' = s ∧ ∃ e0, failure o = Some e0 ∧ e = msg_keystore_unreadable ++ e0
  end.
Proof.
  intros o. unfold getKeystoreAliases, try_catch, bind, execQuery. fold o.
  destruct (failure o) as [e0|].
  - unfold throw. split; [done|]. by exists e0.
  - destruct (collect_aliases_runs (split [10] (stdout o)) [] s) as (found & -> & Ht & Hlen).
    done.
Qed.

Lemma distinct_from seen l :
  NoDup seen →
  NoDup (foldl (λ seen x, if bool_decide (x ∈ seen) then seen else seen ++ [x]) seen l)
  ∧ ∀ x : jsstr,
      x ∈ foldl (λ seen x, if bool_decide (x ∈ seen) then seen else seen ++ [x]) seen l
      ↔ x ∈ seen ∨ x ∈ l.
Proof.
  revert seen. induction l as [|y l IH]; intros seen Hseen; cbn [foldl].
  { split; [done|]. intros x. rewrite elem_of_nil. tauto. }
  destruct (bool_decide (y ∈ seen)) eqn:E.
  - apply bool_decide_eq_true in E. destruct (IH seen Hseen) as [H1 H2].
    split; [done|]. intros x. rewrite H2, elem_of_cons.
    split; [tauto|]. intros [?|[->|?]]; tauto.
  - apply bool_decide_eq_false in E.
    destruct (IH (seen ++ [y])) as [H1 H2].
    { apply NoDup_app. split; [done|]. split; [|apply NoDup_singleton].
      intros x Hx ->%list_elem_of_singleton. done. }
    split; [done|]. intros x. rewrite H2, elem_of_app, list_elem_of_singleton, elem_of_cons.
    tauto.
Qed.

Lemma match_quoted_name s name :
  match_quoted s = Some name → name ≠ [] ∧ forallb (λ c, negb (c =? 34)) name = true.
Proof.
  unfold match_quoted. destruct s as [|c s1]; [done|]. destruct (c =? 34); [|done].
  pose proof (span_spec (λ c, negb (c =? 34)) s1) as (_ & Hall & _).
  destruct (Js.span _ s1) as [nm s2]. cbn [fst] in Hall.
  destruct nm as [|d nm]; [done|]. destruct s2; [done|]. by intros [= <-].
Qed.

(** X16: [getIosIdentities] never throws.  The identities it
    returns are all different, non-empty and free of double quotes; there
    are none on another platform than macOS or when the tool fails;
    otherwise every quoted name of a line of the output is among them. *)
Theorem ios_identities_are_distinct ask darwin s :
  ∃ identities,
    getIosIdentities ask darwin s = (Ok identities, s)
    ∧ NoDup identities
    ∧ Forall (λ name, name ≠ [] ∧ forallb (λ c, negb (c =? 34)) name = true) identities
    ∧ (darwin = false ∨ failure (ask SecurityFindIdentity (files s)) ≠ None →
       identities = [])
    ∧ (darwin = true → failure (ask SecurityFindIdentity (files s)) = None →
       ∀ line i name,
         line ∈ split [10] (stdout (ask SecurityFindIdentity (files s))) →
         Js.search match_quoted line = Some (i, name) → name ∈ identities).
Proof.
  unfold getIosIdentities. destruct darwin; cbn [negb].
  2: { exists []. repeat split; try done. apply NoDup_nil_2. }
  unfold try_catch, bind, execQuery, ret.
  destruct (failure (ask SecurityFindIdentity (files s))) as [e|] eqn:Ef.
  { exists []. repeat split; try done. apply NoDup_nil_2. }
  set (out := stdout _).
  destruct (distinct_from [] (omap (λ line, snd <$> Js.search match_quoted line)
                                (split [10] out)) NoDup_nil_2) as [Hnd Hin].
  eexists. split; [reflexivity|]. split; [exact Hnd|]. split; [|split].
  - apply Forall_forall. intros name Hname. apply Hin in Hname as [Hname|Hname];
      [by apply elem_of_nil in Hname|].
    apply list_elem_of_omap in Hname as (line & _ & Hline).
    destruct (Js.search match_quoted line) as [[i nm]|] eqn:Es; [|done].
    injection Hline as ->. apply search_Some in Es as (Hm & _).
    by apply match_quoted_name in Hm.
  - by intros [?|?].
  - intros _ _ line i name Hline Hs. apply Hin. right.
    apply list_elem_of_omap. exists line. split; [done|]. by rewrite Hs.
Qed.

(** ** The bundled tools, and the provider of an application *)

(** X17: [getJarToolPath] returns the empty string or a path that
    exists, so that a caller's [existsSync] on the result answers
    whether a tool was found; it returns the empty string exactly when
    none of its three places holds the tool. *)
Theorem jar_tool_path_is_empty_or_exists I jarName s :
  ∃ p, getJarToolPath I jarName s = (Ok p, s)
    ∧ existsSync p s = (Ok (bool_decide (p ≠ [])), s)
    ∧ (p = [] ↔
       existsSync (foldl path_join (resourcesPath I) [lit "bin"; lit "tools"; jarName]) s
         = (Ok false, s)
       ∧ existsSync (foldl path_join (cwd I)
                       [lit "resources"; lit "bin"; lit "tools"; jarName]) s
         = (Ok false, s)
       ∧ existsSync (foldl path_join (rootDir I)
                       [lit "resources"; lit "bin"; lit "tools"; jarName]) s
         = (Ok false, s)).
Proof.
  unfold getJarToolPath.
  set (p1 := foldl path_join (resourcesPath I) _).
  set (p2 := foldl path_join (cwd I) _).
  set (p3 := foldl path_join (rootDir I) _).
  assert (∀ p, existsSync p s = (Ok true, s) → p ≠ []) as Hne.
  { intros p. rewrite existsSync_runs. by destruct p. }
  assert (∀ p, ∃ b, existsSync p s = (Ok b, s)) as Hb.
  { intros p. rewrite existsSync_runs. by eexists. }
  destruct (Hb p1) as [b1 E1]. rewrite (bind_run _ _ _ _ _ E1).
  destruct b1.
  { exists p1. split; [done|]. pose proof (Hne _ E1).
    rewrite bool_decide_eq_true_2 by done. split; [done|].
    split; [done|]. intros (H1 & _). congruence. }
  destruct (Hb p2) as [b2 E2]. rewrite (bind_run _ _ _ _ _ E2).
  destruct b2.
  { exists p2. split; [done|]. pose proof (Hne _ E2).
    rewrite bool_decide_eq_true_2 by done. split; [done|].
    split; [done|]. intros (_ & H2 & _). congruence. }
  destruct (Hb p3) as [b3 E3]. rewrite (bind_run _ _ _ _ _ E3).
  destruct b3.
  { exists p3. split; [done|]. pose proof (Hne _ E3).
    rewrite bool_decide_eq_true_2 by done. split; [done|].
    split; [done|]. intros (_ & _ & H3). congruence. }
  exists []. split; [done|]. split; [done|]. done.
Qed.

Lemma search_drop_None {A} (m : jsstr → option A) s k :
  Js.search m s = None → Js.search m (drop k s) = None.
Proof.
  intros H. destruct (Js.search m (drop k s)) as [[j a]|] eqn:E; [|done].
  apply search_Some in E as (Hm & _). rewrite drop_drop in Hm.
  by rewrite (search_None _ _ H) in Hm.
Qed.

(** X18: [findContentProvider] looks at the first [<provider]
    only: the result is the first [android:name] after it, unless that
    names a platform, androidx or Google class, in which case there is
    no result even when a later provider would do. *)
Theorem first_provider_decides content :
  findContentProvider content
  = match Js.indexOf (lit "<provider") content with
    | Some i =>
        match Js.search match_android_name (drop (i + 9) content) with
        | Some (_, name) =>
            if Js.startsWith (lit "android.") name
               || Js.startsWith (lit "androidx.") name
               || Js.startsWith (lit "com.google.") name
            then None else Some name
        | None => None
        end
    | None => None
    end.
Proof.
  unfold findContentProvider.
  destruct (Js.indexOf (lit "<provider") content) as [i|] eqn:Hi.
  - pose proof Hi as (post & _ & Hdrop & Hle & Hbefore)%indexOf_Some.
    assert (drop (i + 9) content = post) as Hpost.
    { rewrite <- drop_drop, Hdrop. reflexivity. }
    rewrite Hpost.
    destruct (Js.search match_android_name post) as [[j name]|] eqn:Es.
    + rewrite (search_first match_provider_name content i name); [done| |done|].
      * unfold match_provider_name. rewrite Hdrop, strip_app. cbn. by rewrite Es.
      * intros k Hk. unfold match_provider_name, Js.strip. by rewrite (Hbefore k Hk).
    + destruct (Js.search match_provider_name content) as [[k name]|] eqn:Ep; [|done].
      exfalso. apply search_Some in Ep as (Hm & Hk & _).
      unfold match_provider_name in Hm.
      destruct (Js.strip (lit "<provider") (drop k content)) as [s1|] eqn:E1; [|done].
      cbn in Hm. destruct (Js.search match_android_name s1) as [[j nm]|] eqn:E2; [|done].
      apply strip_Some in E1.
      destruct (decide (k < i)%nat) as [Hlt|Hge].
      { specialize (Hbefore k Hlt). rewrite E1, startsWith_app in Hbefore. done. }
      assert (s1 = drop (k + 9 - (i + 9)) post) as Hs1.
      { rewrite <- Hpost, drop_drop.
        replace (i + 9 + (k + 9 - (i + 9)))%nat with (k + 9)%nat by lia.
        rewrite <- drop_drop, E1. reflexivity. }
      rewrite Hs1, (search_drop_None _ _ _ Es) in E2. done.
  - destruct (Js.search match_provider_name content) as [[k name]|] eqn:Ep; [|done].
    exfalso. apply search_Some in Ep as (Hm & Hk & _).
    unfold match_provider_name, Js.strip in Hm.
    destruct (Js.startsWith (lit "<provider") (drop k content)) eqn:E; [|done].
    unfold Js.indexOf in Hi.
    destruct (Js.search (Js.at_prefix (lit "<provider")) content) as [[]|] eqn:Eat; [done|].
    pose proof (search_None _ _ Eat k) as Hnone. unfold Js.at_prefix in Hnone.
    by rewrite E in Hnone.
Qed.

(** ** The signature schemes of a package *)

Lemma startsWith_ci_app p s : Js.startsWith_ci p (p ++ s) = true.
Proof. induction p as [|c p IH]; cbn; [done|]. by rewrite N.eqb_refl. Qed.

(** X19: the second test of the fallback never decides: a text in
    which the label of a scheme is followed by a colon and the word
    false has a verdict already.  So a scheme counts as verified when
    the first line with a verdict says true, or when no line has a
    verdict and the label occurs at all. *)
Theorem scheme_without_a_verdict_counts_as_verified v stdout :
  hasScheme v stdout
  = match Js.search (match_verified v) stdout with
    | Some (_, verified) => verified
    | None => Js.includes (scheme_label v) stdout
    end.
Proof.
  unfold hasScheme.
  destruct (Js.search (match_verified v) stdout) as [[i b]|] eqn:Es; [done|].
  destruct (Js.includes (scheme_label v ++ lit ": false") stdout) eqn:Einc;
    [exfalso|by rewrite andb_true_r].
  apply includes_elim in Einc as (pre & post & ->).
  pose proof (search_None _ _ Es (length pre)) as Hnone.
  rewrite drop_app_length, <- !app_assoc in Hnone.
  unfold match_verified in Hnone. rewrite startsWith_ci_app, drop_app_length in Hnone.
  discriminate Hnone.
Qed.

(** ** DexMerger: partitions of successive injections *)

Lemma maxIndex_from_max acc acc' dirs :
  foldl (λ mx d, match partition_index d with
                 | Some index => if mx <? index then index else mx
                 | None => mx
                 end) (N.max acc acc') dirs
  = N.max acc
      (foldl (λ mx d, match partition_index d with
                      | Some index => if mx <? index then index else mx
                      | None => mx
                      end) acc' dirs).
Proof.
  revert acc'. induction dirs as [|d dirs IH]; intros acc'; cbn [foldl]; [done|].
  destruct (partition_index d) as [n|]; [|apply IH].
  rewrite <- IH. f_equal.
  destruct (N.ltb_spec (N.max acc acc') n), (N.ltb_spec acc' n); lia.
Qed.

Lemma maxIndex_from acc dirs :
  1 ≤ acc →
  foldl (λ mx d, match partition_index d with
                 | Some index => if mx <? index then index else mx
                 | None => mx
                 end) acc dirs
  = N.max acc (maxIndex dirs).
Proof.
  intros Hacc. unfold maxIndex. rewrite <- maxIndex_from_max. f_equal. lia.
Qed.

Lemma maxIndex_app l1 l2 : maxIndex (l1 ++ l2) = N.max (maxIndex l1) (maxIndex l2).
Proof.
  unfold maxIndex at 1. rewrite foldl_app. fold (maxIndex l1).
  apply maxIndex_from. unfold maxIndex. apply maxIndex_from_le.
Qed.

Lemma maxIndex_cons d l n :
  partition_index d = Some n → maxIndex (d :: l) = N.max (N.max 1 n) (maxIndex l).
Proof.
  intros Hn. unfold maxIndex at 1. cbn [foldl]. rewrite Hn.
  rewrite maxIndex_from by (destruct (N.ltb_spec 1 n); lia).
  destruct (N.ltb_spec 1 n); lia.
Qed.

Lemma partition_index_smali : partition_index (lit "smali") = None.
Proof. reflexivity. Qed.

(** X20: once the directory of the helper classes is in the tree,
    wherever it is listed, the next choice is the partition after it.
    The partition numbers of the tree and the number [k] chosen first
    are taken below 2^53, so that [k + 1] is at most 2^53 and the
    arithmetic of the program is exact. *)
Theorem next_partition_follows_the_last_one pre post smaliExists smaliExists' k :
  (∀ d n, d ∈ pre ++ post → partition_index d = Some n → n < 2 ^ 53) →
  k < 2 ^ 53 →
  partition_index (nextSmaliDir (pre ++ post) smaliExists) = Some k →
  nextSmaliDir (pre ++ nextSmaliDir (pre ++ post) smaliExists :: post) smaliExists'
  = lit "smali_classes" ++ to_decimal (k + 1).
Proof.
  intros _ _ Hk.
  set (dirs := λ l : list jsstr, filter (λ d, Js.startsWith (lit "smali_classes") d = true) l).
  assert (∃ n, nextSmaliDir (pre ++ post) smaliExists = lit "smali_classes" ++ to_decimal n
               ∧ n = k ∧ maxIndex (dirs (pre ++ post)) ≤ k ∧ 1 ≤ k) as (n & Hnext & -> & Hmax & H1).
  { revert Hk. unfold nextSmaliDir. fold (dirs (pre ++ post)).
    destruct (dirs (pre ++ post)) as [|d ds] eqn:Ed.
    - destruct smaliExists; [|by rewrite partition_index_smali].
      assert (partition_index (lit "smali_classes2") = Some 2) as ->
        by (vm_compute; reflexivity).
      intros [= <-]. exists 2. split; [reflexivity|]. split; [done|].
      split; [change (maxIndex []) with 1; lia|lia].
    - rewrite partition_index_numbered. intros [= <-]. eexists. split; [reflexivity|].
      split; [done|]. split; [lia|lia]. }
  rewrite Hnext. unfold nextSmaliDir at 1.
  fold (dirs (pre ++ (lit "smali_classes" ++ to_decimal k) :: post)).
  assert (dirs (pre ++ (lit "smali_classes" ++ to_decimal k) :: post)
          = dirs pre ++ (lit "smali_classes" ++ to_decimal k) :: dirs post) as ->.
  { unfold dirs. rewrite filter_app, filter_cons.
    by rewrite decide_True by apply startsWith_app. }
  assert (maxIndex (dirs pre ++ (lit "smali_classes" ++ to_decimal k) :: dirs post) = k)
    as Hm.
  { rewrite maxIndex_app, (maxIndex_cons _ _ k) by apply partition_index_numbered.
    unfold dirs in Hmax. rewrite filter_app, maxIndex_app in Hmax.
    fold (dirs pre) (dirs post) in Hmax. lia. }
  revert Hm.
  destruct (dirs pre ++ _ :: dirs post) as [|d ds] eqn:Ed; [by destruct (dirs pre)|].
  by intros ->.
Qed.

(** ** DexMerger: what the merge puts into the copy of the original *)

Lemma execWithLog_result W c eff s :
  ∃ l, execWithLog W c eff s
       = (match failure (spawn W c (files s)) with
          | Some e => Throw e
          | None => Ok (stdout (spawn W c (files s)), stderr (spawn W c (files s)))
          end,
          {| files := eff (spawn W c (files s)) (files s); logs := l |}).
Proof.
  unfold execWithLog, bind, onLog, execPromise, ret. cbn [files logs].
  destruct (failure _); [eexists; reflexivity|].
  destruct (stdout _), (stderr _); eexists; reflexivity.
Qed.

(** [path.join] on a directory keeps names apart. *)
Lemma path_join_inj dir a b : dir ≠ [] → path_join dir a = path_join dir b → a = b.
Proof.
  intros Hd. unfold path_join. destruct dir as [|c d]; [by destruct Hd|].
  destruct a as [|x a], b as [|y b]; try done.
  - intros E%(f_equal length). rewrite !length_app in E. cbn in E. lia.
  - intros E%(f_equal length). rewrite !length_app in E. cbn in E. lia.
  - intros E. apply app_inv_head in E. cbn in E. by injection E as -> ->.
Qed.

Lemma inserts_lookup_join (dir : jsstr) (l : list (jsstr * node)) (fs : filesystem)
    (rel : jsstr) :
  dir ≠ [] → NoDup l.*1 →
  (∀ x, (rel, x) ∈ l →
        foldr (λ kv acc, <[path_join dir kv.1 := kv.2]> acc) fs l !! path_join dir rel
        = Some x)
  ∧ (rel ∉ l.*1 →
     foldr (λ kv acc, <[path_join dir kv.1 := kv.2]> acc) fs l !! path_join dir rel
     = fs !! path_join dir rel).
Proof.
  intros Hd. induction l as [|[k y] l IH]; intros Hnd; cbn [foldr fst snd].
  - split; [intros x Hx; by apply elem_of_nil in Hx|done].
  - rewrite fmap_cons in Hnd. apply NoDup_cons in Hnd as [Hk Hnd]. cbn [fst] in Hk.
    destruct (IH Hnd) as [IH1 IH2].
    destruct (decide (k = rel)) as [->|Hne].
    + rewrite lookup_insert_eq. split.
      * intros x [[= <-]|Hx]%elem_of_cons; [done|].
        exfalso. apply Hk. apply list_elem_of_fmap. by exists (rel, x).
      * intros Hnot. exfalso. apply Hnot. rewrite fmap_cons. left.
    + rewrite lookup_insert_ne by (intros E%path_join_inj; done). split.
      * intros x [[= E _]|Hx]%elem_of_cons; [congruence|by apply IH1].
      * intros Hnot. apply IH2. intros Hin. apply Hnot. rewrite fmap_cons. by right.
Qed.

(** What a tree that is placed below [dir] leaves at a path of [dir]. *)
Lemma place_lookup_join (dir : jsstr) (tree : gmap jsstr node) (fs : filesystem)
    (rel : jsstr) :
  dir ≠ [] →
  place dir tree fs !! path_join dir rel
  = match tree !! rel with Some x => Some x | None => fs !! path_join dir rel end.
Proof.
  intros Hd. unfold place.
  destruct (inserts_lookup_join dir (map_to_list tree) fs rel Hd
              (NoDup_fst_map_to_list tree)) as [H1 H2].
  destruct (tree !! rel) as [x|] eqn:E.
  - apply H1. by apply elem_of_map_to_list.
  - apply H2. intros ([k x] & Hk & Hin)%list_elem_of_fmap. cbn in Hk. subst k.
    apply elem_of_map_to_list in Hin. congruence.
Qed.

(** The names of the children of a directory are distinct. *)
Lemma children_NoDup (dir : jsstr) (fs : filesystem) : NoDup (children dir fs).*1.
Proof.
  unfold children. pose proof (NoDup_fst_map_to_list fs) as Hnd.
  revert Hnd. generalize (map_to_list fs).
  induction l as [|[p x] l IH]; intros Hnd; [constructor|].
  rewrite fmap_cons in Hnd. apply NoDup_cons in Hnd as [Hp Hnd]. cbn [fst] in Hp.
  cbn [omap list_omap fst snd].
  destruct (child_name dir p) as [name|] eqn:Ec; cbn [fmap option_fmap option_map];
    [|by apply IH].
  rewrite fmap_cons. apply NoDup_cons. split; [|by apply IH]. cbn [fst].
  intros ([nm y] & Hnm & Hin)%list_elem_of_fmap. cbn in Hnm. subst nm.
  apply list_elem_of_omap in Hin as ([q z] & Hq & Hc). cbn [fst snd] in Hc.
  destruct (child_name dir q) as [nm|] eqn:Eq; [|done]. injection Hc as -> ->.
  apply child_name_spec in Ec as [-> _]. apply child_name_spec in Eq as [-> _].
  apply Hp. apply list_elem_of_fmap. by exists (dir ++ 47 :: name, y).
Qed.

Lemma top_files_NoDup (W : World) (dir : jsstr) (fs : filesystem) : NoDup (top_files W dir fs).*1.
Proof.
  unfold top_files. pose proof (children_NoDup dir fs) as Hnd.
  revert Hnd. generalize (children dir fs).
  induction l as [|[name x] l IH]; intros Hnd; [constructor|].
  rewrite fmap_cons in Hnd. apply NoDup_cons in Hnd as [Hn Hnd]. cbn [fst] in Hn.
  cbn [omap list_omap fst snd].
  assert (∀ nm b, (nm, b) ∈ omap (λ kv : jsstr * node, match kv.2 with
              | File d => if Js.startsWith (lit ".") kv.1 then None
                          else Some (kv.1, data_bytes W d)
              | Dir => None
              end) l → nm ∈ l.*1) as Hsub.
  { intros nm b ([nm' y] & Hin & Hc)%list_elem_of_omap. cbn [fst snd] in Hc.
    destruct y as [d|]; [|done]. destruct (Js.startsWith _ nm'); [done|].
    injection Hc as -> _. apply list_elem_of_fmap. by exists (nm, File d). }
  destruct x as [d|]; [|by apply IH].
  destruct (Js.startsWith (lit ".") name); [by apply IH|].
  rewrite fmap_cons. apply NoDup_cons. split; [|by apply IH]. cbn [fst].
  intros ([nm b] & Hnm & Hin)%list_elem_of_fmap. cbn in Hnm. subst nm.
  apply Hn. by eapply Hsub.
Qed.

(** The files [zip] is given: the regular files at the top of the
    directory whose names do not start with a dot. *)
Lemma top_files_elem (W : World) (dir : jsstr) (fs : filesystem) (name bytes : jsstr) :
  (name, bytes) ∈ top_files W dir fs ↔
  ∃ d, fs !! (dir ++ 47 :: name) = Some (File d) ∧ bytes = data_bytes W d
       ∧ name ≠ [] ∧ existsb (N.eqb 47) name = false
       ∧ Js.startsWith (lit ".") name = false.
Proof.
  unfold top_files. rewrite list_elem_of_omap. split.
  - intros ([nm x] & Hin & Hc). cbn [fst snd] in Hc.
    destruct x as [d|]; [|done]. destruct (Js.startsWith (lit ".") nm) eqn:Edot; [done|].
    injection Hc as -> <-.
    assert (name ∈ (children dir fs).*1) as Hn.
    { apply list_elem_of_fmap. by exists (name, File d). }
    apply children_elem in Hn as (x & Hx & Hne & Hslash).
    exists d. repeat split; try done.
    unfold children in Hin. apply list_elem_of_omap in Hin as ([q z] & Hq & Hc).
    cbn [fst snd] in Hc. destruct (child_name dir q) as [nm|] eqn:Eq; [|done].
    injection Hc as -> ->. apply child_name_spec in Eq as [-> _].
    by apply elem_of_map_to_list in Hq.
  - intros (d & Hd & -> & Hne & Hslash & Hdot). exists (name, File d).
    split; [|cbn [fst snd]; by rewrite Hdot].
    unfold children. apply list_elem_of_omap. exists (dir ++ 47 :: name, File d).
    split; [by apply elem_of_map_to_list|]. cbn [fst snd].
    by rewrite child_name_intro.
Qed.

(** The entry of a plain name after [zip -u -j]. *)
Lemma update_entries_exact (W : World) (dir : jsstr) (fs : filesystem)
    (entries : gmap jsstr jsstr) (name : jsstr) :
  dir ≠ [] → name ≠ [] → existsb (N.eqb 47) name = false →
  Js.startsWith (lit ".") name = false →
  update_entries W dir fs entries !! name
  = match fs !! (dir ++ 47 :: name) with
    | Some (File d) =>
        if zip_takes W dir fs entries name then Some (data_bytes W d)
        else entries !! name
    | _ => entries !! name
    end.
Proof.
  intros Hdir Hne Hslash Hdot.
  pose proof (top_files_elem W dir fs name) as Hel.
  pose proof (top_files_NoDup W dir fs) as Hnd.
  unfold update_entries, zip_takes.
  assert (∀ l : list (jsstr * jsstr), NoDup l.*1 →
            (∀ b, (name, b) ∈ l →
               foldr (λ kv acc,
                        match entries !! kv.1 with
                        | Some _ => if newer W (path_join dir kv.1) fs
                                    then <[kv.1 := kv.2]> acc else acc
                        | None => <[kv.1 := kv.2]> acc
                        end) entries l !! name
               = if match entries !! name with
                    | Some _ => newer W (path_join dir name) fs
                    | None => true
                    end then Some b else entries !! name)
            ∧ (name ∉ l.*1 →
               foldr (λ kv acc,
                        match entries !! kv.1 with
                        | Some _ => if newer W (path_join dir kv.1) fs
                                    then <[kv.1 := kv.2]> acc else acc
                        | None => <[kv.1 := kv.2]> acc
                        end) entries l !! name
               = entries !! name)) as Hfold.
  { induction l as [|[k y] l IH]; intros Hl; cbn [foldr fst snd].
    - split; [intros b Hb; by apply elem_of_nil in Hb|done].
    - rewrite fmap_cons in Hl. apply NoDup_cons in Hl as [Hk Hl]. cbn [fst] in Hk.
      destruct (IH Hl) as [IH1 IH2].
      destruct (decide (k = name)) as [->|Hkn].
      + split.
        * intros b [[= <-]|Hb]%elem_of_cons.
          -- destruct (entries !! name) as [old|] eqn:Eold.
             ++ destruct (newer W (path_join dir name) fs);
                  [by rewrite lookup_insert_eq|].
                rewrite IH2 by done. done.
             ++ by rewrite lookup_insert_eq.
          -- exfalso. apply Hk. apply list_elem_of_fmap. by exists (name, b).
        * intros Hnot. exfalso. apply Hnot. rewrite fmap_cons. left.
      + assert (∀ acc : gmap jsstr jsstr,
                  match entries !! k with
                  | Some _ => if newer W (path_join dir k) fs then <[k := y]> acc else acc
                  | None => <[k := y]> acc
                  end !! name = acc !! name) as Hstep.
        { intros acc.
          destruct (entries !! k); [destruct (newer W (path_join dir k) fs)|];
            try done; by apply lookup_insert_ne. }
        rewrite Hstep. split.
        * intros b [[= E _]|Hb]%elem_of_cons; [congruence|by apply IH1].
        * intros Hnot. apply IH2. intros Hin. apply Hnot. rewrite fmap_cons. by right. }
  destruct (Hfold _ Hnd) as [H1 H2].
  destruct (fs !! (dir ++ 47 :: name)) as [[d|]|] eqn:Ef.
  - apply H1. apply Hel. by exists d.
  - apply H2. intros ([nm b] & Hnm & Hin)%list_elem_of_fmap. cbn in Hnm. subst nm.
    apply Hel in Hin as (d & Hd & _). congruence.
  - apply H2. intros ([nm b] & Hnm & Hin)%list_elem_of_fmap. cbn in Hnm. subst nm.
    apply Hel in Hin as (d & Hd & _). congruence.
Qed.

Lemma execWithLog_Ok W c eff s x s' :
  execWithLog W c eff s = (Ok x, s') →
  files s' = eff (spawn W c (files s)) (files s).
Proof.
  destruct (execWithLog_result W c eff s) as [l ->].
  destruct (failure _); [done|]. by intros [= _ <-].
Qed.

Lemma try_finally_Ok {A} (m : M A) cleanup s a s'' :
  try_finally m cleanup s = (Ok a, s'') →
  ∃ s', m s = (Ok a, s') ∧ cleanup s' = (Ok (), s'').
Proof.
  unfold try_finally. destruct (m s) as [r s'].
  destruct (cleanup s') as [[[]|e] s2] eqn:E; [|done].
  intros [= -> <-]. by exists s'.
Qed.

Lemma copyFileSync_Ok W src dst s s' :
  copyFileSync W src dst s = (Ok (), s') →
  ∃ d, files s !! src = Some (File d) ∧ files s' = <[dst := File d]> (files s).
Proof.
  unfold copyFileSync, bind, get_files, write_node, bind, get_files, set_files, throw.
  destruct (files s !! src) as [[d|]|]; try done.
  destruct (write_error W dst (files s)); [done|].
  intros [= <-]. by exists d.
Qed.

Lemma is_classes_dex_plain name :
  is_classes_dex name = true →
  name ≠ [] ∧ name ≠ manifest_name ∧ Js.startsWith (lit ".") name = false.
Proof.
  unfold is_classes_dex. intros [[H _]%andb_true_iff _]%andb_true_iff.
  apply startsWith_prefix in H as [t ->]. repeat split; done.
Qed.

Section MergeReturns.
Context (W : World) (originalApk newApk outputApk : jsstr) (updateManifest : bool).
Context (binaryManifestPath : option jsstr) (s s' : state).
Context (entries rebuilt : gmap jsstr jsstr).
Context (Hfresh : ∀ fs p, within (mkdtemp_name W DexMerge fs) p = true → fs !! p = None).
Context (Horig : files s !! originalApk = Some (File (Archive entries))).
Context (Hnew : files s !! newApk = Some (File (Archive rebuilt))).
Context (Hne : newApk ≠ outputApk).
Context (Hrun : mergeDexIntoOriginalApk W originalApk newApk outputApk updateManifest
                  binaryManifestPath s = (Ok (), s')).

(** A merge that returns has updated the copy of the original from a
    scratch directory that holds the partitions of the rebuilt package
    and, when the manifest was modified, the manifest. *)
Lemma merge_returns :
  ∃ dir zipped,
    dir = mkdtemp_name W DexMerge (<[outputApk := File (Archive entries)]> (files s))
    ∧ dir ≠ []
    ∧ files s' !! outputApk
      = Some (File (Archive (update_entries W dir zipped entries)))
    ∧ (∀ name, is_classes_dex name = true →
         zipped !! (dir ++ 47 :: name) = (λ b, File (Text b)) <$> rebuilt !! name)
    ∧ (updateManifest = false → zipped !! (dir ++ 47 :: manifest_name) = None)
    ∧ (updateManifest = true → binaryManifestPath = None →
         zipped !! (dir ++ 47 :: manifest_name)
         = (λ b, File (Text b)) <$> rebuilt !! manifest_name)
    ∧ (updateManifest = true →
       ∀ p d, binaryManifestPath = Some p → p ≠ [] → p ≠ outputApk →
              files s !! p = Some (File d) →
              zipped !! (dir ++ 47 :: manifest_name) = Some (File d)).
Proof.
  revert Hrun. unfold mergeDexIntoOriginalApk.
  intros ([] & s1 & Hcopy & Hrun)%bind_Ok.
  apply copyFileSync_Ok in Hcopy as (d0 & Hd0 & Hs1).
  rewrite Horig in Hd0. injection Hd0 as <-.
  apply bind_Ok in Hrun as (dir & s2 & Hmk & Hrun).
  rewrite mkdtempSync_runs in Hmk.
  destruct (write_error W _ (files s1)); [done|]. injection Hmk as <- <-.
  set (fs1 := files s1) in *.
  set (dir := mkdtemp_name W DexMerge fs1) in *.
  assert (dir ≠ []) as Hdir by apply mkdtemp_name_nonempty.
  assert (∀ p x, fs1 !! p = Some x → within dir p = false) as Hout.
  { intros p x Hp. destruct (within dir p) eqn:E; [|done].
    apply Hfresh in E. congruence. }
  assert (∀ name, path_join dir name = dir ++ 47 :: name ∨ name = []) as Hjoin.
  { intros name. unfold path_join. destruct dir; [done|]. destruct name; [by right|by left]. }
  assert (∀ name, fs1 !! (dir ++ 47 :: name) = None) as Hempty.
  { intros name. apply Hfresh. apply within_spec. right. by exists name. }
  assert (fs1 !! outputApk = Some (File (Archive entries))) as Hcopy.
  { rewrite Hs1. apply lookup_insert_eq. }
  assert (fs1 !! newApk = Some (File (Archive rebuilt))) as Hnew1.
  { rewrite Hs1. by rewrite lookup_insert_ne. }
  apply try_finally_Ok in Hrun as (sB & Hbody & Hrm).
  unfold rmSync, set_files in Hrm. injection Hrm as <-. cbn [files].
  rewrite remove_tree_lookup, (Hout _ _ Hcopy).
  apply bind_Ok in Hbody as (x1 & sA & Hex & Hbody).
  apply execWithLog_Ok in Hex. cbn [files] in Hex.
  apply bind_Ok in Hbody as ([] & sM & Hman & Hbody).
  apply bind_Ok in Hbody as (x2 & sZ & Hzip & Hret). injection Hret as <-.
  apply execWithLog_Ok in Hzip.
  (* the scratch directory after the extraction of the partitions *)
  assert (∀ p x, fs1 !! p = Some x → files sA !! p = Some x) as HkeptA.
  { intros p x Hp. rewrite Hex, extracts_lookup_outside by eauto.
    rewrite lookup_insert_ne; [done|]. intros <-.
    pose proof (Hout _ _ Hp) as H. by rewrite within_refl in H. }
  assert (∀ name, name ≠ [] →
            files sA !! (dir ++ 47 :: name)
            = if is_classes_dex name then (λ b, File (Text b)) <$> rebuilt !! name
              else None) as HdexA.
  { intros name Hn. rewrite Hex. unfold extracts.
    rewrite lookup_insert_ne, Hnew1
      by (intros <-; pose proof (Hout _ _ Hnew1) as H; by rewrite within_refl in H).
    destruct (Hjoin name) as [<-|]; [|done].
    rewrite place_lookup_join by done. rewrite lookup_fmap.
    destruct (is_classes_dex name) eqn:Edex.
    - destruct (rebuilt !! name) as [b|] eqn:Eb.
      + rewrite (map_lookup_filter_Some_2 _ _ name b); done.
      + rewrite (proj2 (map_lookup_filter_None _ _ name)) by (by left).
        cbn. destruct (Hjoin name) as [->|]; [|done].
        rewrite lookup_insert_ne; [apply Hempty|].
        intros E%(f_equal length). rewrite length_app in E. cbn in E. lia.
    - rewrite (proj2 (map_lookup_filter_None _ _ name)).
      + cbn. destruct (Hjoin name) as [->|]; [|done].
        rewrite lookup_insert_ne; [apply Hempty|].
        intros E%(f_equal length). rewrite length_app in E. cbn in E. lia.
      + right. intros b _. cbn. congruence. }
  assert (is_classes_dex manifest_name = false) as Hmanifest by reflexivity.
  assert (path_join dir manifest_name = dir ++ 47 :: manifest_name) as Hdst.
  { by destruct (Hjoin manifest_name). }
  (* the manifest taken from the rebuilt package *)
  assert (∀ sU, files sU = files sA →
            (run onLog LogUseBuiltManifest;
             do _ <- execWithLog W (UnzipExtract newApk manifest_name dir)
                       (extracts newApk dir (λ n, Js.eqb n manifest_name));
             ret ()) sU = (Ok (), sM) →
            files sM !! outputApk = Some (File (Archive entries))
            ∧ (∀ name, is_classes_dex name = true →
                 files sM !! (dir ++ 47 :: name) = files sA !! (dir ++ 47 :: name))
            ∧ files sM !! (dir ++ 47 :: manifest_name)
              = (λ b, File (Text b)) <$> rebuilt !! manifest_name) as Hbuilt.
  { intros sU HU ([] & sL & HL & H)%bind_Ok.
    unfold onLog in HL. injection HL as <-.
    apply bind_Ok in H as (x & sE & HE & H). injection H as <-.
    apply execWithLog_Ok in HE. cbn [files] in HE. rewrite HU in HE.
    rewrite HE. unfold extracts. rewrite (HkeptA _ _ Hnew1).
    split; [|split].
    - rewrite place_lookup_outside by eauto. by apply HkeptA.
    - intros name Hname. destruct (is_classes_dex_plain _ Hname) as (Hn & Hnm & _).
      destruct (Hjoin name) as [<-|]; [|done].
      rewrite place_lookup_join by done. rewrite lookup_fmap.
      rewrite (proj2 (map_lookup_filter_None _ _ name)); [done|].
      right. intros b _. cbn. intros E%bool_decide_eq_true. done.
    - rewrite <- Hdst. rewrite place_lookup_join by done. rewrite lookup_fmap.
      destruct (rebuilt !! manifest_name) as [b|] eqn:Eb.
      + rewrite (map_lookup_filter_Some_2 _ _ manifest_name b); [done|done|].
        cbn. by apply bool_decide_eq_true.
      + rewrite (proj2 (map_lookup_filter_None _ _ manifest_name)) by (by left).
        cbn. rewrite Hdst, HdexA by done. by rewrite Hmanifest. }
  assert (files sM !! outputApk = Some (File (Archive entries))
          ∧ (∀ name, is_classes_dex name = true →
               files sM !! (dir ++ 47 :: name) = files sA !! (dir ++ 47 :: name))
          ∧ (updateManifest = false → files sM !! (dir ++ 47 :: manifest_name) = None)
          ∧ (updateManifest = true → binaryManifestPath = None →
               files sM !! (dir ++ 47 :: manifest_name)
               = (λ b, File (Text b)) <$> rebuilt !! manifest_name)
          ∧ (updateManifest = true →
             ∀ p d, binaryManifestPath = Some p → p ≠ [] → p ≠ outputApk →
                    files s !! p = Some (File d) →
                    files sM !! (dir ++ 47 :: manifest_name) = Some (File d)))
    as (HoutM & HdexM & Hoff & Hfrom_build & Hfrom_file).
  { destruct updateManifest.
    - apply bind_Ok in Hman as (usable & sU & HU & Hman).
      destruct binaryManifestPath as [p|].
      + rewrite existsSync_runs in HU. injection HU as <- <-.
        destruct (match p with [] => false | _ => _ end) eqn:Eex.
        * apply bind_Ok in Hman as ([] & sL & HL & Hman).
          unfold onLog in HL. injection HL as <-.
          apply copyFileSync_Ok in Hman as (d & Hd & HM). cbn [files] in Hd, HM.
          rewrite HM, Hdst. split; [|split; [|split; [|split]]]; try done.
          -- rewrite lookup_insert_ne; [by apply HkeptA|].
             intros <-. pose proof (Hout _ _ Hcopy) as H.
             rewrite (proj2 (within_spec dir _)) in H; [done|].
             right. by exists manifest_name.
          -- intros name Hname. destruct (is_classes_dex_plain _ Hname) as (_ & Hnm & _).
             rewrite lookup_insert_ne; [done|]. intros E%app_inv_head. congruence.
          -- intros _ q d' [= <-] Hq Hqo Hqd. rewrite lookup_insert_eq.
             assert (files sA !! p = Some (File d')) as Hp.
             { apply HkeptA. rewrite Hs1. by rewrite lookup_insert_ne. }
             congruence.
        * destruct (Hbuilt sA eq_refl Hman) as (H1 & H2 & H3).
          split; [|split; [|split; [|split]]]; try done.
          intros _ q d' [= <-] Hq Hqo Hqd. exfalso.
          assert (files sA !! p = Some (File d')) as Hp.
          { apply HkeptA. rewrite Hs1. by rewrite lookup_insert_ne. }
          destruct p; [done|]. apply bool_decide_eq_false in Eex. apply Eex.
          by eexists.
      + injection HU as <- <-. destruct (Hbuilt sA eq_refl Hman) as (H1 & H2 & H3).
        split; [|split; [|split; [|split]]]; try done.
    - injection Hman as <-. split; [|split; [|split; [|split]]]; try done.
      + by apply HkeptA.
      + intros _. rewrite HdexA by done. by rewrite Hmanifest. }
  exists dir, (files sM). split; [unfold dir; by rewrite Hs1|]. split; [done|]. split.
  { rewrite Hzip. unfold zip_updates. rewrite HoutM. by rewrite lookup_insert_eq. }
  split; [|split; [|split]]; try done.
  intros name Hname. destruct (is_classes_dex_plain _ Hname) as (Hn & _ & _).
  rewrite HdexM, HdexA by done. by rewrite Hname.
Qed.

End MergeReturns.




(** ** ResignOrchestrator: the input package *)

(** X21: a job does not touch its input package: when the input
    path has [.apk] in it and lies in none of the directories
    [mkdtempSync] makes, it holds after the job, whatever the outcome,
    what it held before. *)
Theorem job_leaves_the_input_alone W T args s :
  (∀ k fs, within (mkdtemp_name W k fs) (apkPath args) = false) →
  (∀ fs, Js.indexOf (lit ".apk") (mkdtemp_name W ApkInject fs) = None) →
  is_Some (Js.indexOf (lit ".apk") (apkPath args)) →
  files (injectAndResignApk W T args s).2 !! apkPath args = files s !! apkPath args.
Proof.
  intros Houtside Hplain Hname.
  set (input := apkPath args) in *. set (v := files s !! input).
  assert (hooked_name input ≠ input) as Hout.
  { intros H. apply (replace_string_same (lit ".apk") (lit "_hooked_signed.apk")) in H;
      [|reflexivity|discriminate]. rewrite H in Hname. by destruct Hname. }
  change (kept input v (files (injectAndResignApk W T args s).2)).
  assert (preserves (kept input v) (injectAndResignApk W T args)) as Hjob; [|by apply Hjob].
  unfold injectAndResignApk.
  eapply preserves_bind; [by apply keeps_mkdtempSync|apply ensures_mkdtempSync|].
  intros t [fs0 Et].
  assert (t ≠ []) as Ht by (rewrite Et; apply mkdtemp_name_nonempty).
  assert (within t input = false) as Hto by (rewrite Et; apply Houtside).
  apply preserves_try_finally; [|unfold cleanup_of; keeps; by apply kept_remove].
  apply preserves_try_catch; [|intros e; keeps].
  apply preserves_bind'; [by apply keeps_extractStage|intros signature].
  apply preserves_bind'; [by apply keeps_analyzeApk|intros name].
  apply preserves_bind'; [keeps|intros packageName].
  apply preserves_bind'; [keeps|intros _].
  apply preserves_bind'; [|intros _].
  { keeps. unfold leaves_tree. apply kept_place; [paths|].
    eapply within_inside; [|exact Hto]. paths. }
  apply preserves_bind'; [keeps|intros _].
  apply preserves_bind'; [|intros injected].
  { apply (keeps_injectHookCode W T input v Houtside t); paths. }
  apply preserves_bind'; [keeps|intros _].
  apply preserves_bind'; [|intros _].
  { keeps. eapply kept_leaves_file; [exact Hto|paths]. }
  apply preserves_bind'; [keeps|intros _].
  apply preserves_bind'; [|intros _].
  { apply (keeps_mergeDex W input v Houtside t); paths. }
  apply preserves_bind'; [keeps|intros _].
  apply preserves_bind'; [keeps|intros hasZipalign].
  apply preserves_bind'; [|intros _].
  { destruct hasZipalign; keeps.
    - eapply kept_leaves_file; [exact Hto|paths].
    - eapply kept_inside; [exact Hto|paths]. }
  apply preserves_bind'; [keeps|intros _].
  apply preserves_bind'; [|intros signResult].
  { apply (keeps_resignApk W input v t); [done|done|]. rewrite Et. apply Hplain. }
  keeps. by apply kept_insert.
Qed.

(** ** The theorems above at concrete packages *)

Lemma merge_frame_witness :
  lit "/data/app.apk" ≠ lit "/tmp/merged.apk"
  ∧ files (mergeDexIntoOriginalApk Demo.merge_world (lit "/data/app.apk")
             (lit "/tmp/dist.apk") (lit "/tmp/merged.apk") false None
             Demo.before_merge).2 !! lit "/data/app.apk"
    = files Demo.before_merge !! lit "/data/app.apk".
Proof.
  split; [discriminate|].
  apply (merge_touches_the_output_only Demo.merge_world);
    [intros fs p; apply fresh_suffix_fresh|discriminate].
Defined.

Lemma legacy_reader_witness :
  files (getCertRsaHex Demo.legacy_only (lit "/data/app.apk")
           (Demo.start Demo.no_reader)).2
  = files (Demo.start Demo.no_reader).
Proof.
  apply (legacy_reader_leaves_no_trace Demo.legacy_only).
  intros fs p. apply fresh_suffix_fresh.
Defined.

Lemma working_directory_witness :
  within (mkdtemp_name Demo.merge_world ApkInject (files (Demo.start Demo.all_jars)))
    (mkdtemp_name Demo.merge_world ApkInject (files (Demo.start Demo.all_jars))
       ++ lit "/decoded") = true
  ∧ files (injectAndResignApk Demo.merge_world Demo.templates Demo.args
             (Demo.start Demo.all_jars)).2
      !! (mkdtemp_name Demo.merge_world ApkInject (files (Demo.start Demo.all_jars))
            ++ lit "/decoded")
    = None.
Proof.
  assert (within (mkdtemp_name Demo.merge_world ApkInject (files (Demo.start Demo.all_jars)))
            (mkdtemp_name Demo.merge_world ApkInject (files (Demo.start Demo.all_jars))
               ++ lit "/decoded") = true) as Hin.
  { apply within_spec. right. by exists (lit "decoded"). }
  split; [exact Hin|].
  apply (job_removes_its_working_directory Demo.merge_world); [|exact Hin].
  intros k fs p. apply fresh_suffix_fresh.
Defined.

Lemma launch_activity_witness :
  findLaunchActivity Demo.manifest_plain = Some (lit ".MainActivity")
  ∧ Js.includes (lit ".MainActivity") Demo.manifest_plain = true.
Proof.
  assert (findLaunchActivity Demo.manifest_plain = Some (lit ".MainActivity")) as H
    by reflexivity.
  split; [exact H|].
  apply (launch_activity_comes_from_a_launcher_part _ _ H).
Defined.


Lemma lit_nonempty a s : lit (String a s) ≠ [].
Proof. change (N_of_ascii a :: lit s ≠ []). intros H. inversion H. Qed.

Lemma new_partition_witness :
  readdirSync (lit "/work/decoded") Sample.plain_tree
  = (Ok [lit "AndroidManifest.xml"; lit "smali"], Sample.plain_tree)
  ∧ existsSync (path_join (lit "/work/decoded") (lit "smali")) Sample.plain_tree
    = (Ok true, Sample.plain_tree)
  ∧ files Sample.plain_tree
      !! path_join (lit "/work/decoded")
           (nextSmaliDir [lit "AndroidManifest.xml"; lit "smali"] true)
    = None.
Proof.
  assert (readdirSync (lit "/work/decoded") Sample.plain_tree
          = (Ok [lit "AndroidManifest.xml"; lit "smali"], Sample.plain_tree)) as Hlist
    by (vm_compute; reflexivity).
  assert (existsSync (path_join (lit "/work/decoded") (lit "smali")) Sample.plain_tree
          = (Ok true, Sample.plain_tree)) as Hsmali by (vm_compute; reflexivity).
  split; [exact Hlist|]. split; [exact Hsmali|].
  apply (helpers_go_to_a_new_partition (lit "/work/decoded") Sample.plain_tree
           [lit "AndroidManifest.xml"; lit "smali"] Sample.plain_tree true Sample.plain_tree).
  - apply lit_nonempty.
  - intros d n Hin Hn.
    apply elem_of_cons in Hin as [->|Hin]; [vm_compute in Hn; discriminate Hn|].
    apply elem_of_cons in Hin as [->|Hin]; [vm_compute in Hn; discriminate Hn|].
    inversion Hin.
  - exact Hlist.
  - exact Hsmali.
Defined.

Lemma fallback_witness :
  ∃ r s' new scratch patched,
    Sample.fallback = (Ok r, s') ∧ plan r = ActivityFallback
    ∧ logs s' = new ∧ Forall not_helpers_line new
    ∧ last new = Some LogActivityFallbackOk
    ∧ (∀ p, files Sample.bare_state !! p = None → is_Some (files s' !! p) →
            within scratch p = true)
    ∧ (∀ p, p ≠ lit "/work/decoded/AndroidManifest.xml" → p ≠ patched →
            within scratch p = false →
            files s' !! p = files Sample.bare_state !! p).
Proof.
  destruct Sample.fallback as [[r|e] s'] eqn:E.
  - pose proof E as E'. unfold Sample.fallback in E'.
    destruct (fallback_writes_no_helper_classes _ _ _ _ _ _ _ _ _ E')
      as (new & Hlogs & Hplan).
    assert (plan r = ActivityFallback) as Hr.
    { vm_compute in E. by injection E as <- _. }
    rewrite Hr in Hplan.
    destruct Hplan as (Hquiet & Hlast & scratch & patched & _ & Hmade & Hsame).
    exists r, s', new, scratch, patched.
    split; [reflexivity|]. split; [exact Hr|]. split; [exact Hlogs|].
    split; [exact Hquiet|]. split; [exact Hlast|]. split; [exact Hmade|exact Hsame].
  - vm_compute in E. discriminate E.
Defined.

Lemma textual_patch_witness :
  ∃ s' newManifest,
    editTextManifest Demo.plain_world (lit "/work/decoded/AndroidManifest.xml")
      Demo.manifest_plain false Sample.plain_tree = (Ok true, s')
    ∧ files s' !! lit "/work/decoded/AndroidManifest.xml"
      = Some (File (Text (utf8_encode Demo.plain_world newManifest)))
    ∧ extractApplicationName newManifest = Some application_class.
Proof.
  destruct (editTextManifest Demo.plain_world (lit "/work/decoded/AndroidManifest.xml")
              Demo.manifest_plain false Sample.plain_tree) as [[[|]|e] s'] eqn:E.
  - destruct (textual_patch_names_the_synthetic_class _ _ _ _ _ _ E)
      as (newManifest & Hfile & Hname).
    exists s', newManifest. split; [reflexivity|]. split; [exact Hfile|exact Hname].
  - vm_compute in E. discriminate E.
  - vm_compute in E. discriminate E.
Defined.

Lemma hook_call_witness :
  ∃ content',
    inject (lit "3082abcd") (lit "com.example.demo") AttachBaseContext
      Demo.application_smali = Patched content'
    ∧ Js.includes
        (hookCall (lit "3082abcd") (lit "com.example.demo") AttachBaseContext)
        content' = true.
Proof.
  destruct (injected_text_carries_the_signature (lit "3082abcd")
              (lit "com.example.demo") AttachBaseContext Demo.application_smali
              eq_refl eq_refl) as (_ & _ & H).
  { intros i n E. vm_compute in E. injection E as <- <-. reflexivity. }
  destruct (inject _ _ _ _) as [content'| |content'] eqn:E.
  - exists content'. split; [reflexivity|exact H].
  - vm_compute in E. discriminate E.
  - vm_compute in E. discriminate E.
Defined.

Lemma successive_partitions_witness :
  3 < 2 ^ 53
  ∧ partition_index (nextSmaliDir ([lit "smali"] ++ [lit "smali_classes2"]) true) = Some 3
  ∧ nextSmaliDir
      ([lit "smali"]
         ++ nextSmaliDir ([lit "smali"] ++ [lit "smali_classes2"]) true
         :: [lit "smali_classes2"]) true
    = lit "smali_classes" ++ to_decimal (3 + 1).
Proof.
  assert (partition_index (nextSmaliDir ([lit "smali"] ++ [lit "smali_classes2"]) true)
          = Some 3) as Hk by (vm_compute; reflexivity).
  split; [reflexivity|]. split; [exact Hk|].
  apply (next_partition_follows_the_last_one [lit "smali"] [lit "smali_classes2"]
           true true 3); [|reflexivity|exact Hk].
  intros d n Hin Hn.
  apply elem_of_cons in Hin as [->|Hin]; [vm_compute in Hn; discriminate Hn|].
  apply elem_of_cons in Hin as [->|Hin];
    [vm_compute in Hn; injection Hn as <-; reflexivity|].
  by apply elem_of_nil in Hin.
Defined.

Lemma input_witness :
  files (injectAndResignApk Demo.plain_world Demo.templates Demo.args
           (Demo.start Demo.all_jars)).2 !! apkPath Demo.args
  = files (Demo.start Demo.all_jars) !! apkPath Demo.args.
Proof.
  apply (job_leaves_the_input_alone Demo.plain_world).
  - intros k fs. destruct k; reflexivity.
  - intros fs. reflexivity.
  - exists 9%nat. reflexivity.
Defined.
